(** * dev_connector: the Express route handlers of the REST API

    A shallow embedding of the route handlers of [routes/api/users.js] (the
    registration router and the posts router) and [routes/api/profile.js],
    with the properties of the specification proved or refuted on them.

    Modelling conventions.
    - Identifiers are modelled by their hexadecimal rendering, the string that
      [toString()] and the [id] getter return.  [req.user.id] comes out of a
      token the server signed over [user.id], so it already is such a string;
      identifiers taken from the URL ([req.params]) go through the cast of the
      object-document mapper, [ObjectId_cast].
    - A handler is a computation in the monad [JsM]: it threads the document
      store, the response sent so far and the console, and completes normally
      or by throwing.
    - Every store operation rejects while the store is unreachable
      ([unreachable]); otherwise it behaves like the in-memory collection.
    - Strings are held in UTF-8; the fields of a request are strings.
    - The schemas of the models are not part of the sources: saving a
      document stores it as it is.
    - The validators look for a field in the body, the cookies, the
      headers, the route parameters and the query of the request
      ([Validator.Locations]), the handlers read the body.  A handler with
      a [body] argument is the route on a request that holds fields in its
      body only. *)

From Stdlib Require Import ZArith Ascii.
From stdpp Require Import gmap strings list fin_maps.

Local Open Scope Z_scope.

(** ** JavaScript primitives used by the handlers *)

Module Js.

(** [s.indexOf(search)] on strings: position of the first occurrence, or -1. *)
Definition String_indexOf (s search : string) : Z :=
  match String.index 0 search s with
  | Some i => Z.of_nat i
  | None => -1
  end.

(** [a.indexOf(x)] on arrays of strings (strict equality), or -1. *)
Definition Array_indexOf (a : list string) (x : string) : Z :=
  match list_find (λ y, y = x) a with
  | Some (i, _) => Z.of_nat i
  | None => -1
  end.

(** Numbers, as far as the handlers produce them. *)
Inductive number :=
| NaN
| Num (z : Z).

(** [ToNumber] of an array of integers.  The array is first turned into a
    primitive by [Array.prototype.toString], that is [join(",")], and the
    string is then read as a numeric literal: the empty string reads as 0,
    the decimal rendering of one integer reads as that integer, and a
    string with a comma in it is no numeric literal at all. *)
Definition ToNumber_array (a : list Z) : number :=
  match a with
  | [] => Num 0
  | [k] => Num k
  | _ :: _ :: _ => NaN
  end.

(** [ToIntegerOrInfinity]: NaN becomes 0. *)
Definition ToIntegerOrInfinity (n : number) : Z :=
  match n with
  | NaN => 0
  | Num z => z
  end.

(** [a.splice(start, deleteCount)], the array that is left.  A negative
    [start] counts from the end of the array. *)
Definition splice {A} (a : list A) (start deleteCount : Z) : list A :=
  let len := Z.of_nat (length a) in
  let actualStart :=
    if start <? 0 then Z.max (len + start) 0 else Z.min start len in
  let actualDeleteCount := Z.min (Z.max deleteCount 0) (len - actualStart) in
  take (Z.to_nat actualStart) a
    ++ drop (Z.to_nat (actualStart + actualDeleteCount)) a.

(** A string is truthy unless it is empty; [undefined] is falsy. *)
Definition truthy (v : option string) : bool :=
  match v with
  | Some s => negb (String.eqb s "")
  | None => false
  end.

(** Strings are held in UTF-8.  A character is a byte together with the
    continuation bytes (10xxxxxx) that follow it; [chars] cuts a string
    into its characters and [concat] puts them together again. *)
Definition is_continuation (b : Ascii.ascii) : bool :=
  let n := Ascii.N_of_ascii b in ((128 <=? n) && (n <? 192))%N.
Definition continues (s : string) : bool :=
  match s with
  | String b _ => is_continuation b
  | EmptyString => false
  end.
Fixpoint chars (s : string) : list string :=
  match s with
  | EmptyString => []
  | String b rest =>
      match chars rest with
      | c :: cs =>
          if continues c then String b c :: cs
          else String b EmptyString :: c :: cs
      | [] => [String b EmptyString]
      end
  end.
Fixpoint concat (l : list string) : string :=
  match l with
  | [] => EmptyString
  | c :: l => c +:+ concat l
  end.

(** The number of characters of a string. *)
Definition code_points (s : string) : nat := length (chars s).

(** The characters that [s.trim()] strips: the white space and the line
    terminators of ECMAScript (U+0009 to U+000D, U+0020, U+00A0, U+1680,
    U+2000 to U+200A, U+2028, U+2029, U+202F, U+205F, U+3000, U+FEFF),
    each by the bytes of its encoding. *)
Definition of_bytes (bytes : list N) : string :=
  String.string_of_list_ascii (Ascii.ascii_of_N <$> bytes).
Definition white_space : list string :=
  of_bytes
    <$> [ [9]; [10]; [11]; [12]; [13]; [32]; [194; 160]; [225; 154; 128];
          [226; 128; 128]; [226; 128; 129]; [226; 128; 130]; [226; 128; 131];
          [226; 128; 132]; [226; 128; 133]; [226; 128; 134]; [226; 128; 135];
          [226; 128; 136]; [226; 128; 137]; [226; 128; 138]; [226; 128; 168];
          [226; 128; 169]; [226; 128; 175]; [226; 129; 159]; [227; 128; 128];
          [239; 187; 191] ]%N.
Definition is_white_space (c : string) : bool := bool_decide (c ∈ white_space).

Fixpoint drop_while {A} (P : A → bool) (l : list A) : list A :=
  match l with
  | [] => []
  | x :: rest => if P x then drop_while P rest else l
  end.

(** [s.trim()]: the string without the white space at its start and at its
    end. *)
Definition String_trim (s : string) : string :=
  let trimStart := drop_while is_white_space (chars s) in
  concat (reverse (drop_while is_white_space (reverse trimStart))).

End Js.

(** ** Errors *)

Record JsError := mkError {
  name : string;
  message : string;
  kind : option string;
}.

Definition TypeError (msg : string) : JsError :=
  {| name := "TypeError"; message := msg; kind := None |}.
Definition ReferenceError (msg : string) : JsError :=
  {| name := "ReferenceError"; message := msg; kind := None |}.
Definition CastError (path : string) : JsError :=
  {| name := "CastError";
     message := "Cast to ObjectId failed at path " +:+ path;
     kind := Some "ObjectId" |}.

Global Instance JsError_eq_dec : EqDecision JsError.
Proof. solve_decision. Defined.

(** ** Data model *)

(** Modelled from the spec: the schemas of [modals/User], [modals/Post] and
    [modals/Profile] are not part of the sources; the documents carry the
    attributes of section 3 of the specification. *)

Record User := {
  user_id : string;
  user_name : string;
  user_email : string;
  user_avatar : string;
  user_password : string;
  user_date : Z;
}.

Record Like := { like_user : string }.

Record Comment := {
  comment_id : string;
  comment_user : string;
  comment_text : string;
  comment_name : string;
  comment_avatar : string;
}.

Record Post := {
  post_user : string;
  post_text : string;
  post_name : string;
  post_avatar : string;
  likes : list Like;
  comments : list Comment;
  post_date : Z;
}.

Global Instance Like_eq_dec : EqDecision Like.
Proof. solve_decision. Defined.
Global Instance Comment_eq_dec : EqDecision Comment.
Proof. solve_decision. Defined.
Global Instance Post_eq_dec : EqDecision Post.
Proof. solve_decision. Defined.
Global Instance User_eq_dec : EqDecision User.
Proof. solve_decision. Defined.

(** A profile is kept as the JavaScript object it is: a finite map from field
    names to values.  Experience and education entries are sub-documents with
    an identifier of their own. *)

Record SubDoc := {
  subdoc_id : string;
  subdoc_attrs : gmap string string;
}.

Inductive Value :=
| VNull
| VStr (s : string)
| VStrs (l : list string)
| VObj (o : gmap string string)
| VSubdocs (l : list SubDoc).

Abbreviation Doc := (gmap string Value).

Global Instance SubDoc_eq_dec : EqDecision SubDoc.
Proof. solve_decision. Defined.
Global Instance Value_eq_dec : EqDecision Value.
Proof. solve_decision. Defined.

(** ** Responses, console, store *)

(** An entry of an [errors] array; the validator also reports the offending
    parameter. *)
Record FieldError := {
  param : option string;
  msg : string;
}.

Inductive Body :=
| Json_msg (m : string)
| Json_errors (errors : list FieldError)
| Json_token (token : string)
| Json_likes (l : list Like)
| Json_comments (l : list Comment)
| Json_profile (d : Doc)
| Json_null
| Json_parsed (text : string)
| Text (s : string)
| Error_page (e : JsError).

Record Response := {
  status : Z;
  body : Body;
}.

Inductive Logged :=
| Log_string (s : string)
| Log_comment (c : option Comment)
| Log_error (e : JsError)
| Log_unhandled (e : JsError).

Record Store := {
  users : list User;
  profiles : list Doc;
  posts : gmap string Post;
  unreachable : option JsError;
}.

Record Ctx := {
  db : Store;
  sent : option Response;
  console : list Logged;
}.

Global Instance FieldError_eq_dec : EqDecision FieldError.
Proof. solve_decision. Defined.
Global Instance Body_eq_dec : EqDecision Body.
Proof. solve_decision. Defined.
Global Instance Response_eq_dec : EqDecision Response.
Proof. solve_decision. Defined.

Definition set_db (f : Store → Store) (c : Ctx) : Ctx :=
  {| db := f (db c); sent := sent c; console := console c |}.
Definition set_users (us : list User) (s : Store) : Store :=
  {| users := us; profiles := profiles s; posts := posts s;
     unreachable := unreachable s |}.
Definition set_profiles (ps : list Doc) (s : Store) : Store :=
  {| users := users s; profiles := ps; posts := posts s;
     unreachable := unreachable s |}.
Definition set_posts (ps : gmap string Post) (s : Store) : Store :=
  {| users := users s; profiles := profiles s; posts := ps;
     unreachable := unreachable s |}.
Definition set_likes (l : list Like) (p : Post) : Post :=
  {| post_user := post_user p; post_text := post_text p;
     post_name := post_name p; post_avatar := post_avatar p;
     likes := l; comments := comments p; post_date := post_date p |}.
Definition set_comments (l : list Comment) (p : Post) : Post :=
  {| post_user := post_user p; post_text := post_text p;
     post_name := post_name p; post_avatar := post_avatar p;
     likes := likes p; comments := l; post_date := post_date p |}.

(** ** The handler monad *)

Inductive Completion (A : Type) : Type :=
| Normal (a : A) (c : Ctx)
| Throw (e : JsError) (c : Ctx).
Arguments Normal {A} a c.
Arguments Throw {A} e c.

Definition JsM (A : Type) : Type := Ctx → Completion A.

Global Instance Js_ret : MRet JsM := λ A a c, Normal a c.
Global Instance Js_bind : MBind JsM := λ A B k m c,
  match m c with
  | Normal a c' => k a c'
  | Throw e c' => Throw e c'
  end.

Definition throw {A} (e : JsError) : JsM A := λ c, Throw e c.

(** [try { body } catch (err) { handler }] *)
Definition try_catch {A} (body : JsM A) (handler : JsError → JsM A) : JsM A :=
  λ c, match body c with
       | Normal a c' => Normal a c'
       | Throw e c' => handler e c'
       end.

(** The context a completion ends in. *)
Definition final {A} (r : Completion A) : Ctx :=
  match r with
  | Normal _ c => c
  | Throw _ c => c
  end.

(** The context after a response was sent, and after a line was logged. *)
Definition reply (code : Z) (b : Body) (c : Ctx) : Ctx :=
  {| db := db c; sent := Some {| status := code; body := b |};
     console := console c |}.
Definition logged (l : Logged) (c : Ctx) : Ctx :=
  {| db := db c; sent := sent c; console := console c ++ [l] |}.

(** [res.status(code).json(body)], [res.json(body)] and
    [res.status(code).send(text)]. *)
Definition res_status_json (code : Z) (b : Body) : JsM unit :=
  λ c, Normal () (reply code b c).
Definition res_json (b : Body) : JsM unit := res_status_json 200 b.
Definition res_status_send (code : Z) (text : string) : JsM unit :=
  res_status_json code (Text text).

(** [console.log], [console.error] *)
Definition console_log (l : Logged) : JsM unit := λ c, Normal () (logged l c).

(** Reading a property of a value that may be [null]. *)
Definition property_of {A} (prop : string) (o : option A) : JsM A :=
  match o with
  | Some a => mret a
  | None =>
      throw (TypeError ("Cannot read property '" +:+ prop +:+ "' of null or undefined"))
  end.

(** Every store operation first needs the store: it rejects while the store
    is unreachable. *)
Definition connected : JsM unit := λ c,
  match unreachable (db c) with
  | Some e => Throw e c
  | None => Normal () c
  end.

Definition read_store {A} (f : Store → A) : JsM A := λ c, Normal (f (db c)) c.
Definition write_store (f : Store → Store) : JsM unit :=
  λ c, Normal () (set_db f c).

(** [config.get(key)] over the configuration [config_get], which holds no
    value ([None]) for a key that is not configured. *)
Definition config (config_get : string → option string) (key : string)
    : JsM string :=
  match config_get key with
  | Some v => mret v
  | None =>
      throw {| name := "Error";
               message := "Configuration property " +:+ key +:+ " is not defined";
               kind := None |}
  end.

(** The [catch] block most handlers share:
    [console.error(err.message); res.status(500).send("Server Error")] *)
Definition server_error (err : JsError) : JsM unit :=
  console_log (Log_string (message err));;
  res_status_send 500 "Server Error".

(** What a handler that is no [async] function throws before it returns is
    caught by the router and ends in the error handling of Express, the
    application installing none of its own: the answer is 500 with the
    error page of Express for the error ([Error_page], its text depending on
    the environment), and the error is printed as Express prints it
    ([Log_unhandled]). *)
Definition express_error (err : JsError) : JsM unit :=
  res_status_json 500 (Error_page err);;
  console_log (Log_unhandled err).

(** A request arrives with nothing sent yet and an empty console. *)
Definition request (s : Store) : Ctx :=
  {| db := s; sent := None; console := [] |}.

(** What a handler leaves behind: the response, the store and the exception
    that escaped it. *)
Definition response_of {A} (r : Completion A) : option Response := sent (final r).
Definition store_of {A} (r : Completion A) : Store := db (final r).

(** Serving a request on a store, and a sequence of requests one after the
    other: each handler starts where the one before left the store. *)
Definition serve (handler : JsM unit) (s : Store) : Store :=
  store_of (handler (request s)).
Definition serve_all (handlers : list (JsM unit)) (s : Store) : Store :=
  foldl (λ s handler, serve handler s) s handlers.

(** ** Validation *)

Module Validator.

(** The places of a request where a chain built by [check(field)] of
    express-validator looks for the field. *)
Record Locations := {
  req_body : gmap string string;
  req_cookies : gmap string string;
  req_headers : gmap string string;
  req_params : gmap string string;
  req_query : gmap string string;
}.

(** A request that holds fields in its body only. *)
Definition only_body (body : gmap string string) : Locations :=
  {| req_body := body; req_cookies := ∅; req_headers := ∅; req_params := ∅;
     req_query := ∅ |}.

(** The instances of a field, one for each location, in the order body,
    cookies, headers, params, query; the instance of a location that lacks
    the field has no value. *)
Definition instances (req : Locations) (field : string)
    : list (option string) :=
  [req_body req !! field; req_cookies req !! field; req_headers req !! field;
   req_params req !! field; req_query req !! field].

(** The values of the field in the locations that hold it. *)
Definition values (req : Locations) (field : string) : list string :=
  omap id (instances req field).

(** The instances that the chain validates: those with a value, and the
    instance of the body when none has a value. *)
Definition selected (req : Locations) (field : string) : list (option string) :=
  match values req field with
  | [] => [None]
  | values => Some <$> values
  end.

(** A chain with one validator: one error for every validated instance whose
    value, read as a string, fails the validator; no value reads as the
    empty string. *)
Definition check (valid : string → bool) (req : Locations)
    (field message : string) : list FieldError :=
  flat_map
    (λ value, if valid (default "" value) then []
              else [{| param := Some field; msg := message |}])
    (selected req field).

(** [notEmpty()] and [isLength({ min })], which counts characters *)
Definition notEmpty (value : string) : bool := negb (String.eqb value "").
Definition isLength (min : nat) (value : string) : bool :=
  bool_decide (min ≤ Js.code_points value)%nat.

End Validator.

(** ** The posts router *)

Module Posts.
Section routes.

(** The cast of a request parameter to an object identifier, rendered as
    the identifier's string; [None] when the cast fails. *)
Variable ObjectId_cast : string → option string.

(** [Post.findById(id)]: the document, with its identifier, or [null].  The
    query is cast before it is sent, so an identifier that does not cast is
    rejected whatever the state of the store. *)
Definition Post_findById (id : string) : JsM (option (string * Post)) :=
  match ObjectId_cast id with
  | None => throw (CastError "_id")
  | Some oid =>
      connected;;
      read_store (λ s, pair oid <$> posts s !! oid)
  end.

(** [post.save()] and [post.remove()] *)
Definition Post_save (oid : string) (post : Post) : JsM unit :=
  connected;; write_store (λ s, set_posts (<[oid := post]> (posts s)) s).
Definition Post_remove (oid : string) : JsM unit :=
  connected;; write_store (λ s, set_posts (delete oid (posts s)) s).

(** [likes.filter((like) => like.user.toString() === req.user.id)] *)
Definition likes_of (uid : string) (l : list Like) : list Like :=
  filter (λ like, like_user like = uid) l.

(** PUT api/posts/like/:id *)
Definition like (id uid : string) : JsM unit :=
  try_catch
    (found ← Post_findById id;
     '(oid, post) ← property_of "likes" found;
     if bool_decide (0 < length (likes_of uid (likes post)))%nat then
       res_status_json 400 (Json_msg "Post already liked")
     else
       let post := set_likes ({| like_user := uid |} :: likes post) post in
       Post_save oid post;;
       res_json (Json_likes (likes post)))
    server_error.

(** PUT api/posts/unlike/:id *)
Definition unlike (id uid : string) : JsM unit :=
  try_catch
    (found ← Post_findById id;
     '(oid, post) ← property_of "likes" found;
     if bool_decide (length (likes_of uid (likes post)) = 0%nat) then
       res_status_json 400 (Json_msg "Post has not yet been liked")
     else
       let removeIndex :=
         map (λ like, Js.String_indexOf (like_user like) uid) (likes post) in
       let start := Js.ToIntegerOrInfinity (Js.ToNumber_array removeIndex) in
       let post := set_likes (Js.splice (likes post) start 1) post in
       Post_save oid post;;
       res_json (Json_likes (likes post)))
    server_error.

(** [/^[0-9a-fA-F]{24}$/] *)
Definition is_hex_digit (ch : Ascii.ascii) : bool :=
  let n := Ascii.N_of_ascii ch in
  ((48 <=? n) && (n <=? 57) || (97 <=? n) && (n <=? 102)
   || (65 <=? n) && (n <=? 70))%N.
Definition matches_hex24 (s : string) : bool :=
  bool_decide (String.length s = 24%nat)
  && forallb is_hex_digit (String.list_ascii_of_string s).

Definition post_not_found : JsM unit :=
  res_status_json 404 (Json_msg "Post not found").

(** DELETE api/posts/:id *)
Definition delete_post (id uid : string) : JsM unit :=
  try_catch
    (if negb (matches_hex24 id) then post_not_found
     else
       found ← Post_findById id;
       match found with
       | None => post_not_found
       | Some (oid, post) =>
           if bool_decide (post_user post ≠ uid) then
             res_status_json 401 (Json_msg "user not authorized")
           else
             Post_remove oid;;
             res_json (Json_msg "Post Removed")
       end)
    (λ err,
       console_log (Log_string (message err));;
       if bool_decide (kind err = Some "ObjectId") then post_not_found
       else res_status_send 500 "Server Error").

(** [comments.find((comment) => comment.id.toString() === comment_id')] *)
Definition find_comment (comment_id' : string) (l : list Comment)
    : option Comment :=
  List.find (λ comment, bool_decide (comment_id comment = comment_id')) l.

(** DELETE api/posts/comment/:id/:comment_id *)
Definition delete_comment (id comment_id' uid : string) : JsM unit :=
  try_catch
    (found ← Post_findById id;
     '(oid, post) ← property_of "comments" found;
     let comment := find_comment comment_id' (comments post) in
     console_log (Log_comment comment);;
     match comment with
     | None => res_status_json 404 (Json_msg "Comment doesn't exists")
     | Some comment =>
         if bool_decide (comment_user comment ≠ uid) then
           res_status_json 401 (Json_msg "User not authorized")
         else
           let removeIndex :=
             Js.Array_indexOf (map comment_user (comments post)) uid in
           let post :=
             set_comments (Js.splice (comments post) removeIndex 1) post in
           Post_save oid post;;
           res_json (Json_comments (comments post))
     end)
    server_error.

End routes.
End Posts.

(** ** The profile router *)

Module Profile.

(** [s.split(",")] *)
Fixpoint split_comma (s : string) : list string :=
  match s with
  | EmptyString => [EmptyString]
  | String ch rest =>
      if Ascii.eqb ch ","%char then EmptyString :: split_comma rest
      else
        match split_comma rest with
        | piece :: pieces => String ch piece :: pieces
        | [] => [String ch EmptyString]
        end
  end.

(** [skill.trim()] *)
Definition trim (s : string) : string := Js.String_trim s.

(** [if (v) o[key] = v;] *)
Definition assign_if_truthy {V} (wrap : string → V) (key : string)
    (v : option string) (o : gmap string V) : gmap string V :=
  match v with
  | Some s => if Js.truthy v then <[key := wrap s]> o else o
  | None => o
  end.

(** The object [profileFields] that POST api/profile builds from the body. *)
Definition socialFields (body : gmap string string) : gmap string string :=
  let social := ∅ in
  let social := assign_if_truthy id "youtube" (body !! "youtube") social in
  let social := assign_if_truthy id "twitter" (body !! "twitter") social in
  let social := assign_if_truthy id "facebook" (body !! "facebook") social in
  let social := assign_if_truthy id "linkedin" (body !! "linkedin") social in
  let social := assign_if_truthy id "instagram" (body !! "instagram") social in
  social.

Definition profileFields (uid : string) (body : gmap string string) : Doc :=
  let fields : Doc := ∅ in
  let fields := <["user" := VStr uid]> fields in
  let fields := assign_if_truthy VStr "company" (body !! "company") fields in
  let fields := assign_if_truthy VStr "website" (body !! "website") fields in
  let fields := assign_if_truthy VStr "location" (body !! "location") fields in
  let fields := assign_if_truthy VStr "bio" (body !! "bio") fields in
  let fields := assign_if_truthy VStr "status" (body !! "status") fields in
  let fields :=
    assign_if_truthy VStr "githubusername" (body !! "githubusername") fields in
  let fields :=
    assign_if_truthy (λ skills, VStrs (map trim (split_comma skills)))
      "skills" (body !! "skills") fields in
  <["social" := VObj (socialFields body)]> fields.

(** [check(field, message).notEmpty()], and the chain on a request that holds
    fields in its body only *)
Definition check_notEmpty_req (req : Validator.Locations)
    (field message : string) : list FieldError :=
  Validator.check Validator.notEmpty req field message.
Definition check_notEmpty (body : gmap string string) (field message : string)
    : list FieldError :=
  check_notEmpty_req (Validator.only_body body) field message.

(** [{ $set: fields }]: every field of the update replaces the field of
    that name in the document; the other fields stay. *)
Definition update_set (fields doc : Doc) : Doc := fields ∪ doc.

(** Modelled from the spec: [new Profile(fields)] of the absent
    [modals/Profile]; the document gets its identifier and empty
    experience and education lists. *)
Definition new_Profile (oid : string) (fields : Doc) : Doc :=
  <["_id" := VStr oid]>
    (fields ∪ {[ "experience" := VSubdocs []; "education" := VSubdocs [] ]}).

Definition owned_by (uid : string) (d : Doc) : Prop :=
  d !! "user" = Some (VStr uid).
Global Instance owned_by_dec uid d : Decision (owned_by uid d).
Proof. unfold owned_by. apply _. Defined.

(** [Profile.findOne({ user: uid })]: the first such document, with its
    place in the collection. *)
Definition Profile_findOne (uid : string) : JsM (option (nat * Doc)) :=
  connected;;
  read_store (λ s, list_find (owned_by uid) (profiles s)).

(** [Profile.findOneAndUpdate({ user: uid }, { $set: fields }, { new: true })] *)
Definition Profile_findOneAndUpdate (uid : string) (fields : Doc)
    : JsM (option Doc) :=
  connected;;
  found ← read_store (λ s, list_find (owned_by uid) (profiles s));
  match found with
  | None => mret None
  | Some (i, doc) =>
      let doc := update_set fields doc in
      write_store (λ s, set_profiles (<[i := doc]> (profiles s)) s);;
      mret (Some doc)
  end.

(** [profile.save()] of a document found at place [i], and of a new one. *)
Definition Profile_save (i : nat) (doc : Doc) : JsM unit :=
  connected;;
  write_store (λ s, set_profiles (<[i := doc]> (profiles s)) s).
Definition Profile_save_new (doc : Doc) : JsM unit :=
  connected;;
  write_store (λ s, set_profiles (profiles s ++ [doc]) s).

(** [.populate("user", ["name", "avatar"])] *)
Definition populate_user (us : list User) (doc : Doc) : Doc :=
  match doc !! "user" with
  | Some (VStr uid) =>
      match List.find (λ u, bool_decide (user_id u = uid)) us with
      | Some u =>
          <["user" := VObj {[ "_id" := user_id u; "name" := user_name u;
                              "avatar" := user_avatar u ]}]> doc
      | None => <["user" := VNull]> doc
      end
  | _ => doc
  end.

Definition json_of_profile (profile : option Doc) : Body :=
  match profile with
  | Some doc => Json_profile doc
  | None => Json_null
  end.

(** Reading an identifier that is not bound. *)
Definition unbound {A} (ident : string) : JsM A :=
  throw (ReferenceError (ident +:+ " is not defined")).

(** GET api/profile/me *)
Definition get_me (uid : string) : JsM unit :=
  try_catch
    (found ← Profile_findOne uid;
     us ← read_store users;
     let profile := populate_user us ∘ snd <$> found in
     match profile with
     | None =>
         res_status_json 400 (Json_msg "There is no profile for this user")
     | Some profile => res_json (Json_profile profile)
     end)
    (λ error,
       err ← unbound "err";
       console_log (Log_string (message err));;
       res_status_send 500 "Server Error").

(** POST api/profile, past the validation: the fields are collected and the
    profile is updated or created; [oid] is the identifier a new document
    would get. *)
Definition upsert_profile (uid : string) (body : gmap string string)
    (oid : string) : JsM unit :=
  let fields := profileFields uid body in
  try_catch
    (profile ← Profile_findOne uid;
     match profile with
     | Some _ =>
         profile ← Profile_findOneAndUpdate uid fields;
         res_json (json_of_profile profile)
     | None =>
         let profile := new_Profile oid fields in
         Profile_save_new profile;;
         res_json (Json_profile profile)
     end)
    server_error.

(** POST api/profile; the handler reads the fields of the body *)
Definition upsert_req (uid : string) (req : Validator.Locations) (oid : string)
    : JsM unit :=
  let errors :=
    check_notEmpty_req req "status" "Status is required"
    ++ check_notEmpty_req req "skills" "skills is required" in
  if negb (bool_decide (errors = [])) then
    res_status_json 400 (Json_errors errors)
  else upsert_profile uid (Validator.req_body req) oid.

(** POST api/profile with the fields in the body only *)
Definition upsert (uid : string) (body : gmap string string) (oid : string)
    : JsM unit :=
  upsert_req uid (Validator.only_body body) oid.

(** [profile.experience], [profile.education] *)
Definition subdocs (field : string) (doc : Doc) : list SubDoc :=
  match doc !! field with
  | Some (VSubdocs l) => l
  | _ => []
  end.

(** DELETE api/profile/experience/:exp_id and
    DELETE api/profile/education/:edu_id, which differ in the field only. *)
Definition delete_subdoc (field : string) (uid sub_id : string) : JsM unit :=
  try_catch
    (found ← Profile_findOne uid;
     '(i, profile) ← property_of field found;
     let removeIndex :=
       Js.Array_indexOf (map subdoc_id (subdocs field profile)) sub_id in
     let profile :=
       <[field := VSubdocs (Js.splice (subdocs field profile) removeIndex 1)]>
         profile in
     Profile_save i profile;;
     res_json (Json_profile profile))
    server_error.

Definition delete_experience (uid exp_id : string) : JsM unit :=
  delete_subdoc "experience" uid exp_id.
Definition delete_education (uid edu_id : string) : JsM unit :=
  delete_subdoc "education" uid edu_id.

(** *** The GitHub lookup *)

Record Options := {
  uri : string;
  method : string;
  headers : list (string * string);
}.

(** What the upstream call hands to its callback: an error and no response,
    or a response with its status code and body. *)
Inductive Upstream :=
| Net_error (error : JsError)
| Net_response (statusCode : Z) (body : string).

Section github.

Variable config_get : string → option string.
(** Whether [JSON.parse] accepts a text. *)
Variable JSON_valid : string → bool.

Definition github_options (username : string) : JsM Options :=
  clientId ← config config_get "githubClientId";
  secret ← config config_get "githubSecret";
  mret {| uri := "https://api.github.com/users/" +:+ username
                   +:+ "/repos?per_page=5&sort=created:asc&client_id="
                   +:+ clientId +:+ "&client_secret=" +:+ secret;
          method := "GET";
          headers := [("user-agent", "node.js")] |}.

(** The callback [(error, response, body) => ...] *)
Definition github_callback (error : option JsError)
    (response : option Z) (body : string) : JsM unit :=
  match error with
  | Some e => console_log (Log_error e)
  | None => mret ()
  end;;
  statusCode ← property_of "statusCode" response;
  if bool_decide (statusCode ≠ 200) then
    res_status_json 400 (Json_msg "No Github profile found")
  else if JSON_valid body then res_json (Json_parsed body)
  else throw {| name := "SyntaxError";
                message := "Unexpected token in JSON";
                kind := None |}.

Definition call_back (r : Upstream) : JsM unit :=
  match r with
  | Net_error e => github_callback (Some e) None ""
  | Net_response statusCode body =>
      github_callback None (Some statusCode) body
  end.

(** GET api/profile/github/:username; [upstream] answers the request the
    handler issues.  The handler is no [async] function: what its [catch]
    block throws goes to the router.  The callback runs after the handler
    has returned. *)
Definition github (username : string) (upstream : Options → Upstream)
    : JsM unit :=
  issued ← try_catch
    (try_catch
       (options ← github_options username;
        mret (Some options))
       (λ err, throw (TypeError "console.err is not a function")))
    (λ err, express_error err;; mret None);
  match issued with
  | Some options => call_back (upstream options)
  | None => mret ()
  end.

End github.

End Profile.

(** ** The registration router *)

Module Users.
Section routes.

Variable config_get : string → option string.
(** The validator's test of an e-mail address. *)
Variable isEmail : string → bool.
(** [gravatar.url(email, { s: "200", r: "pg", d: "mm" })] *)
Variable gravatar_url : string → string.
(** [bcrypt.hash(password, salt)] *)
Variable bcrypt_hash : string → string → string.
(** [jwt.sign({ user: { id } }, secret, { expiresIn })]: the error or the
    token its callback receives. *)
Variable jwt_sign : string → string → Z → JsError + string.

(** What a registration draws from outside: the identifier and the
    creation date of the new document, and the salt. *)
Record Fresh := {
  new_id : string;
  new_salt : string;
  now : Z;
  }.

(** The three chains of the route, and the chains on a request that holds
    fields in its body only *)
Definition validate_req (req : Validator.Locations) : list FieldError :=
  Validator.check Validator.notEmpty req "name" "Name is required"
  ++ Validator.check isEmail req "email" "Please include a valid email"
  ++ Validator.check (Validator.isLength 6) req "password"
       "Please enter a password with 6 or more chars".
Definition validate (body : gmap string string) : list FieldError :=
  validate_req (Validator.only_body body).

(** [User.findOne({ email })] and [user.save()] of a new user *)
Definition User_findOne (email : string) : JsM (option User) :=
  connected;;
  read_store (λ s, List.find (λ u, bool_decide (user_email u = email)) (users s)).
Definition User_save_new (user : User) : JsM unit :=
  connected;;
  write_store (λ s, set_users (users s ++ [user]) s).

Definition set_password (password : string) (u : User) : User :=
  {| user_id := user_id u; user_name := user_name u;
     user_email := user_email u; user_avatar := user_avatar u;
     user_password := password; user_date := user_date u |}.

(** The callback [(err, token) => { if (err) throw err; res.json({ token }) }] *)
Definition signed (outcome : JsError + string) : JsM unit :=
  match outcome with
  | inl err => throw err
  | inr token => res_json (Json_token token)
  end.

(** [jwt.sign(payload, secret, { expiresIn }, callback)] checks its arguments
    before it signs and hands a failed check to the callback at once, while
    the caller is still running; with this payload and these options the
    check that can fail is the one of the secret, which must not be empty.
    Otherwise it signs, and the callback gets the outcome after the caller
    has returned.  Of [jwt_sign], the outcome that the library reports, the
    result is the callback call that is still to come, if any. *)
Definition jwt_sign_callback (payload secret : string) (expiresIn : Z)
    : JsM (option (JsError + string)) :=
  match jwt_sign payload secret expiresIn with
  | inl err =>
      if Js.truthy (Some secret) then mret (Some (inl err))
      else signed (inl err);; mret None
  | inr token => mret (Some (inr token))
  end.

(** POST api/users, past the validation.  The [try] block ends with the call
    of [jwt.sign]; a callback that is still to come runs after it. *)
Definition register_user (name email password : string) (fresh : Fresh)
    : JsM unit :=
  signing ← try_catch
    (user ← User_findOne email;
     match user with
     | Some _ =>
         res_status_json 400
           (Json_errors [{| param := None; msg := "User already exists" |}]);;
         mret None
     | None =>
         let avatar := gravatar_url email in
         let user :=
           {| user_id := new_id fresh; user_name := name;
              user_email := email; user_avatar := avatar;
              user_password := password; user_date := now fresh |} in
         let salt := new_salt fresh in
         let user := set_password (bcrypt_hash password salt) user in
         console_log (Log_string (user_password user));;
         User_save_new user;;
         let payload := user_id user in
         secret ← config config_get "jwtSecret";
         jwt_sign_callback payload secret 360000
     end)
    (λ error,
       console_log (Log_string (message error));;
       res_status_send 500 "Server Error";;
       mret None);
  match signing with
  | Some outcome => signed outcome
  | None => mret ()
  end.

(** POST api/users; the handler reads the fields of the body *)
Definition register_req (req : Validator.Locations) (fresh : Fresh)
    : JsM unit :=
  let errors := validate_req req in
  if negb (bool_decide (errors = [])) then
    res_status_json 400 (Json_errors errors)
  else
    let body := Validator.req_body req in
    let name := default "" (body !! "name") in
    let email := default "" (body !! "email") in
    let password := default "" (body !! "password") in
    register_user name email password fresh.

(** POST api/users with the fields in the body only *)
Definition register (body : gmap string string) (fresh : Fresh) : JsM unit :=
  register_req (Validator.only_body body) fresh.

End routes.
End Users.

(** A concrete cast for the examples: 24 hexadecimal digits pass unchanged. *)
Definition hex24_cast (s : string) : option string :=
  if Posts.matches_hex24 s then Some s else None.

Module Examples.
Definition alice := "aaaaaaaaaaaaaaaaaaaaaaaa".
Definition bob := "bbbbbbbbbbbbbbbbbbbbbbbb".
Definition p1 := "111111111111111111111111".
Definition post1 (l : list Like) (cs : list Comment) : Post :=
  {| post_user := alice; post_text := "hello"; post_name := "Alice";
     post_avatar := "a.png"; likes := l; comments := cs; post_date := 0 |}.
Definition store1 (l : list Like) (cs : list Comment) : Store :=
  {| users := []; profiles := []; posts := {[ p1 := post1 l cs ]};
     unreachable := None |}.
(** Two comments of Alice, the later one first in the list. *)
Definition comment1 : Comment :=
  {| comment_id := "c1c1c1c1c1c1c1c1c1c1c1c1"; comment_user := alice;
     comment_text := "first"; comment_name := "Alice";
     comment_avatar := "a.png" |}.
Definition comment2 : Comment :=
  {| comment_id := "c2c2c2c2c2c2c2c2c2c2c2c2"; comment_user := alice;
     comment_text := "second"; comment_name := "Alice";
     comment_avatar := "a.png" |}.
(** Alice's profile, with two experience entries and one education entry,
    and a store that holds it. *)
Definition exp1 : SubDoc :=
  {| subdoc_id := "e1e1e1e1e1e1e1e1e1e1e1e1";
     subdoc_attrs := {[ "title" := "Engineer"; "company" := "Acme" ]} |}.
Definition exp2 : SubDoc :=
  {| subdoc_id := "e2e2e2e2e2e2e2e2e2e2e2e2";
     subdoc_attrs := {[ "title" := "Intern"; "company" := "Acme" ]} |}.
Definition edu1 : SubDoc :=
  {| subdoc_id := "d1d1d1d1d1d1d1d1d1d1d1d1";
     subdoc_attrs := {[ "school" := "MIT"; "degree" := "BSc" ]} |}.
Definition profile1 : Doc :=
  {[ "user" := VStr alice; "status" := VStr "Developer";
     "skills" := VStrs ["js"]; "bio" := VStr "Hello, I am Alice";
     "social" := VObj {[ "youtube" := "https://youtube.com/alice" ]};
     "experience" := VSubdocs [exp1; exp2];
     "education" := VSubdocs [edu1] ]}.
Definition store2 : Store :=
  {| users := []; profiles := [profile1]; posts := ∅; unreachable := None |}.
(** A store that cannot be reached. *)
Definition store_down : Store :=
  {| users := []; profiles := [profile1]; posts := ∅;
     unreachable := Some {| name := "MongoNetworkError";
                            message := "connection lost"; kind := None |} |}.
End Examples.
Import Examples.


(** ** Vocabulary of the properties *)

(** The number of like entries a user holds on a post. *)
Definition like_count (uid : string) (post : Post) : nat :=
  length (Posts.likes_of uid (likes post)).

(** No post of the store holds more than one like entry of the user. *)
Definition at_most_one_like (uid : string) (s : Store) : Prop :=
  map_Forall (λ _ post, (like_count uid post ≤ 1)%nat) (posts s).

Global Instance at_most_one_like_dec uid s : Decision (at_most_one_like uid s).
Proof. unfold at_most_one_like. apply _. Defined.

(** ** The rest of the posts router *)

Module Comments.
Section routes.

Variable ObjectId_cast : string → option string.

(** [User.findById(req.user.id).select("-password")]; the projection drops
    the password, which no handler reads. *)
Definition User_findById (uid : string) : JsM (option User) :=
  connected;;
  read_store (λ s, List.find (λ u, bool_decide (user_id u = uid)) (users s)).

(** POST api/posts/comment/:id; [fresh_id] is the identifier the new
    sub-document gets.  The handler reads the text of the body. *)
Definition add_comment_req (id uid : string) (req : Validator.Locations)
    (fresh_id : string) : JsM unit :=
  let errors := Profile.check_notEmpty_req req "text" "Text is required" in
  if negb (bool_decide (errors = [])) then
    res_status_json 400 (Json_errors errors)
  else
    let body := Validator.req_body req in
    try_catch
      (user ← User_findById uid;
       found ← Posts.Post_findById ObjectId_cast id;
       user ← property_of "name" user;
       let newComment :=
         {| comment_id := fresh_id; comment_user := uid;
            comment_text := default "" (body !! "text");
            comment_name := user_name user;
            comment_avatar := user_avatar user |} in
       '(oid, post) ← property_of "comments" found;
       let post := set_comments (newComment :: comments post) post in
       Posts.Post_save oid post;;
       res_json (Json_comments (comments post)))
      server_error.

(** POST api/posts/comment/:id with the text in the body only *)
Definition add_comment (id uid : string) (body : gmap string string)
    (fresh_id : string) : JsM unit :=
  add_comment_req id uid (Validator.only_body body) fresh_id.

(** The requests of the posts router that change a post. *)
Inductive Request :=
| Like (id uid : string)
| Unlike (id uid : string)
| AddComment (id uid : string) (body : gmap string string) (fresh_id : string)
| DeleteComment (id comment_id uid : string)
| DeletePost (id uid : string).

Definition handle (r : Request) : JsM unit :=
  match r with
  | Like id uid => Posts.like ObjectId_cast id uid
  | Unlike id uid => Posts.unlike ObjectId_cast id uid
  | AddComment id uid body fresh_id => add_comment id uid body fresh_id
  | DeleteComment id cid uid => Posts.delete_comment ObjectId_cast id cid uid
  | DeletePost id uid => Posts.delete_post ObjectId_cast id uid
  end.

End routes.
End Comments.

(** ** The rest of the profile router *)

Module Profiles.

(** The fields of the body that a new sub-document takes over; a field the
    body lacks is not set. *)
Definition pick (keys : list string) (body : gmap string string)
    : gmap string string :=
  filter (λ kv, kv.1 ∈ keys) body.

(** PUT api/profile/experience and PUT api/profile/education, which differ
    in the validated fields, the fields taken over and the list.  The
    handler reads the fields of the body. *)
Definition add_subdoc_req (field : string) (checks : list (string * string))
    (keys : list string) (uid : string) (req : Validator.Locations)
    (fresh_id : string) : JsM unit :=
  let errors :=
    flat_map (λ check, Profile.check_notEmpty_req req check.1 check.2) checks in
  if negb (bool_decide (errors = [])) then
    res_status_json 400 (Json_errors errors)
  else
    let body := Validator.req_body req in
    let newEntry :=
      {| subdoc_id := fresh_id; subdoc_attrs := pick keys body |} in
    try_catch
      (found ← Profile.Profile_findOne uid;
       '(i, profile) ← property_of field found;
       let profile :=
         <[field := VSubdocs (newEntry :: Profile.subdocs field profile)]>
           profile in
       Profile.Profile_save i profile;;
       res_json (Json_profile profile))
      server_error.

(** The same with the fields in the body only *)
Definition add_subdoc (field : string) (checks : list (string * string))
    (keys : list string) (uid : string) (body : gmap string string)
    (fresh_id : string) : JsM unit :=
  add_subdoc_req field checks keys uid (Validator.only_body body) fresh_id.

Definition add_experience_req
    : string → Validator.Locations → string → JsM unit :=
  add_subdoc_req "experience"
    [("title", "title is required"); ("company", "company is required");
     ("from", "from date is required")]
    ["title"; "company"; "location"; "from"; "to"; "current"; "description"].
Definition add_education_req
    : string → Validator.Locations → string → JsM unit :=
  add_subdoc_req "education"
    [("school", "school is required"); ("degree", "degree is required");
     ("fieldofstudy", "field of study is required");
     ("from", "from date is required")]
    ["school"; "degree"; "fieldofstudy"; "from"; "to"; "current";
     "description"].
Definition add_experience : string → gmap string string → string → JsM unit :=
  add_subdoc "experience"
    [("title", "title is required"); ("company", "company is required");
     ("from", "from date is required")]
    ["title"; "company"; "location"; "from"; "to"; "current"; "description"].
Definition add_education : string → gmap string string → string → JsM unit :=
  add_subdoc "education"
    [("school", "school is required"); ("degree", "degree is required");
     ("fieldofstudy", "field of study is required");
     ("from", "from date is required")]
    ["school"; "degree"; "fieldofstudy"; "from"; "to"; "current";
     "description"].

(** [Profile.findOneAndRemove({ user: uid })] and
    [User.findOneAndRemove({ _id: uid })]: the first match goes, if any. *)
Definition remove_first {A} (P : A → Prop) `{∀ x, Decision (P x)}
    (l : list A) : list A :=
  match list_find P l with
  | Some (i, _) => delete i l
  | None => l
  end.
Definition Profile_findOneAndRemove (uid : string) : JsM unit :=
  connected;;
  write_store
    (λ s, set_profiles (remove_first (Profile.owned_by uid) (profiles s)) s).
Definition User_findOneAndRemove (uid : string) : JsM unit :=
  connected;;
  write_store
    (λ s, set_users (remove_first (λ u, user_id u = uid) (users s)) s).

(** DELETE api/profile *)
Definition delete_account (uid : string) : JsM unit :=
  try_catch
    (Profile_findOneAndRemove uid;;
     User_findOneAndRemove uid;;
     res_json (Json_msg "User Deleted"))
    server_error.

Section by_user.
Variable ObjectId_cast : string → option string.

(** [Profile.findOne({ user: req.params.user_id })]: the parameter comes
    from the URL and is cast. *)
Definition Profile_findOne_param (user_id : string)
    : JsM (option (nat * Doc)) :=
  match ObjectId_cast user_id with
  | None => throw (CastError "user")
  | Some uid => Profile.Profile_findOne uid
  end.

(** GET api/profile/user/:user_id *)
Definition get_by_user (user_id : string) : JsM unit :=
  try_catch
    (found ← Profile_findOne_param user_id;
     us ← read_store users;
     let profile := Profile.populate_user us ∘ snd <$> found in
     match profile with
     | None => res_status_json 400 (Json_msg "Profile Not Found")
     | Some profile => res_json (Json_profile profile)
     end)
    (λ err,
       if bool_decide (kind err = Some "ObjectId") then
         res_status_json 400 (Json_msg "Profile Not Found")
       else
         console_log (Log_string (message err));;
         res_status_send 500 "Server Error").

End by_user.

(** The requests of the profile router that change the store. *)
Inductive Request :=
| Upsert (uid : string) (body : gmap string string) (oid : string)
| AddExperience (uid : string) (body : gmap string string) (fresh_id : string)
| AddEducation (uid : string) (body : gmap string string) (fresh_id : string)
| DeleteExperience (uid exp_id : string)
| DeleteEducation (uid edu_id : string)
| DeleteAccount (uid : string).

Definition handle (r : Request) : JsM unit :=
  match r with
  | Upsert uid body oid => Profile.upsert uid body oid
  | AddExperience uid body fresh_id => add_experience uid body fresh_id
  | AddEducation uid body fresh_id => add_education uid body fresh_id
  | DeleteExperience uid exp_id => Profile.delete_experience uid exp_id
  | DeleteEducation uid edu_id => Profile.delete_education uid edu_id
  | DeleteAccount uid => delete_account uid
  end.

End Profiles.

(** ** More vocabulary *)

(** The user a profile document belongs to. *)
Definition owner (d : Doc) : option string :=
  match d !! "user" with
  | Some (VStr uid) => Some uid
  | _ => None
  end.

(** No two profiles of the store belong to one user; no two users of the
    store have one e-mail address. *)
Definition one_profile_per_user (s : Store) : Prop :=
  NoDup (omap owner (profiles s)).
Definition one_user_per_email (s : Store) : Prop :=
  NoDup (user_email <$> users s).

(** The ways a request changes the profiles of the store: not at all, a
    document replaced by one of the same owner, a document appended for a
    user who has none, or documents removed. *)
Definition profiles_change (l l' : list Doc) : Prop :=
  l' = l
  ∨ (∃ i d d', l !! i = Some d ∧ owner d' = owner d ∧ l' = <[i := d']> l)
  ∨ (∃ d uid, owner d = Some uid
              ∧ Forall (λ d0, ¬ Profile.owned_by uid d0) l ∧ l' = l ++ [d])
  ∨ sublist l' l.

(** [a.join(",")] on strings *)
Fixpoint join_comma (a : list string) : string :=
  match a with
  | [] => ""
  | [s] => s
  | s :: rest => s +:+ "," +:+ join_comma rest
  end.

(** The number of commas of a string. *)
Fixpoint commas (s : string) : nat :=
  match s with
  | EmptyString => 0
  | String ch rest => (if Ascii.eqb ch ","%char then 1 else 0) + commas rest
  end.

(** The string neither starts nor ends with white space. *)
Definition trimmed (s : string) : Prop :=
  ∀ c, head (Js.chars s) = Some c ∨ last (Js.chars s) = Some c →
       Js.is_white_space c = false.

(** A string of continuation bytes; a character, which is a byte with the
    continuation bytes that follow it; and a list of characters, of which
    only the first may start with a continuation byte. *)
Fixpoint continuation_bytes (s : string) : Prop :=
  match s with
  | EmptyString => True
  | String b rest => Js.is_continuation b = true ∧ continuation_bytes rest
  end.
Definition group (c : string) : Prop :=
  ∃ b conts, c = String b conts ∧ continuation_bytes conts.
Definition characters (l : list string) : Prop :=
  Forall group l ∧ Forall (λ c, Js.continues c = false) (tail l).

(** Two versions of a post with the same author, text and date. *)
Definition same_heading (post post' : Post) : Prop :=
  post_user post' = post_user post ∧ post_text post' = post_text post
  ∧ post_name post' = post_name post ∧ post_avatar post' = post_avatar post
  ∧ post_date post' = post_date post.

(** An example user for Alice, the author of [post1]. *)
Definition user_alice : User :=
  {| user_id := alice; user_name := "Alice"; user_email := "alice@x.com";
     user_avatar := "a.png"; user_password := "hash"; user_date := 0 |}.
Definition store3 (l : list Like) (cs : list Comment) : Store :=
  {| users := [user_alice]; profiles := [profile1];
     posts := {[ p1 := post1 l cs ]}; unreachable := None |}.

(** * Properties *)

(** ** Stepping through a handler *)

(** Open the monad's operations up to the lookups of the store. *)
Ltac js_unfold :=
  repeat progress
    unfold try_catch, mbind, mret, Js_bind, Js_ret, throw, property_of,
           server_error, console_log, res_json, res_status_send,
           res_status_json;
  cbv beta iota.

(** Replace a lookup by the answer that the hypothesis [H] gives it. *)
Ltac js_rewrite H := rewrite H; cbv beta iota.

(** ** Validation of a request with the fields in its body *)

Lemma check_only_body valid body field message :
  Validator.check valid (Validator.only_body body) field message
  = if valid (default "" (body !! field)) then []
    else [{| param := Some field; msg := message |}].
Proof.
  unfold Validator.check, Validator.selected, Validator.values,
    Validator.instances, Validator.only_body.
  cbn [Validator.req_body Validator.req_cookies Validator.req_headers
       Validator.req_params Validator.req_query].
  rewrite !lookup_empty. destruct (body !! field) as [v|]; simpl;
    by rewrite app_nil_r.
Qed.

Lemma check_notEmpty_body body field message :
  Profile.check_notEmpty body field message
  = if Js.truthy (body !! field) then []
    else [{| param := Some field; msg := message |}].
Proof.
  unfold Profile.check_notEmpty, Profile.check_notEmpty_req.
  rewrite check_only_body. by destruct (body !! field).
Qed.

Lemma check_notEmpty_nil body f m :
  Profile.check_notEmpty body f m = [] ↔ Js.truthy (body !! f) = true.
Proof.
  rewrite check_notEmpty_body. by destruct (Js.truthy (body !! f)).
Qed.

Lemma check_nil valid req field message :
  Validator.check valid req field message = []
  ↔ Forall (λ value, valid (default "" value) = true)
      (Validator.selected req field).
Proof.
  unfold Validator.check.
  induction (Validator.selected req field) as [|value l IH]; simpl.
  - split; [by constructor|done].
  - rewrite Forall_cons, <- IH.
    destruct (valid (default "" value)); simpl.
    + split; [by intros ->|by intros [_ ->]].
    + split; [done|by intros [? _]].
Qed.

Lemma check_length valid req field message :
  (length (Validator.check valid req field message)
   ≤ length (Validator.selected req field))%nat.
Proof.
  unfold Validator.check.
  induction (Validator.selected req field) as [|value l IH]; simpl; [done|].
  destruct (valid (default "" value)); simpl; lia.
Qed.

Lemma selected_values valid req field :
  valid "" = false →
  Forall (λ value, valid (default "" value) = true)
    (Validator.selected req field)
  ↔ Validator.values req field ≠ []
    ∧ Forall (λ v, valid v = true) (Validator.values req field).
Proof.
  intros Hempty. unfold Validator.selected.
  destruct (Validator.values req field) as [|v vs].
  - rewrite Forall_singleton. simpl. rewrite Hempty.
    split; [done|by intros [? _]].
  - rewrite Forall_fmap.
    split; [intros H; split; [done|exact H]|intros [_ H]; exact H].
Qed.

Lemma selected_length req field :
  (1 ≤ length (Validator.selected req field) ≤ 5)%nat.
Proof.
  unfold Validator.selected.
  assert (length (Validator.values req field) ≤ 5)%nat as Hlen.
  { unfold Validator.values, Validator.instances.
    destruct (Validator.req_body req !! field),
      (Validator.req_cookies req !! field),
      (Validator.req_headers req !! field),
      (Validator.req_params req !! field),
      (Validator.req_query req !! field); simpl; lia. }
  destruct (Validator.values req field) as [|v vs]; [simpl; lia|].
  rewrite length_fmap. simpl in *. lia.
Qed.

Lemma check_notEmpty_req_nil req field message :
  Profile.check_notEmpty_req req field message = []
  ↔ Validator.values req field ≠ []
    ∧ Forall (λ v, v ≠ "") (Validator.values req field).
Proof.
  unfold Profile.check_notEmpty_req.
  rewrite check_nil, selected_values by done.
  split; intros [Hone Hall]; (split; [done|]);
    eapply Forall_impl; [exact Hall| |exact Hall|]; intros v;
    unfold Validator.notEmpty; by destruct (String.eqb_spec v "").
Qed.

Lemma upsert_body uid body oid :
  Profile.upsert uid body oid
  = let errors :=
      Profile.check_notEmpty body "status" "Status is required"
      ++ Profile.check_notEmpty body "skills" "skills is required" in
    if negb (bool_decide (errors = [])) then
      res_status_json 400 (Json_errors errors)
    else Profile.upsert_profile uid body oid.
Proof. done. Qed.

(** ** Arrays *)

Section arrays.
Context {A : Type}.
Implicit Types a : list A.

Lemma splice_one_at a (i : nat) :
  (i < length a)%nat → Js.splice a (Z.of_nat i) 1 = delete i a.
Proof.
  intros Hi. unfold Js.splice.
  destruct (Z.ltb_spec (Z.of_nat i) 0) as [?|_]; [lia|].
  rewrite Z.min_l by lia.
  replace (Z.min (Z.max 1 0) (Z.of_nat (length a) - Z.of_nat i)) with 1 by lia.
  rewrite Nat2Z.id. replace (Z.to_nat (Z.of_nat i + 1)) with (S i) by lia.
  by rewrite delete_take_drop.
Qed.

Lemma splice_head x a : Js.splice (x :: a) 0 1 = a.
Proof. apply (splice_one_at (x :: a) 0). simpl. lia. Qed.

(** Start -1 is the last element. *)
Lemma splice_minus_one a :
  Js.splice a (-1) 1 = take (length a - 1) a.
Proof.
  unfold Js.splice. change (-1 <? 0) with true. cbv iota.
  destruct a as [|x a]; [done|].
  assert (length (x :: a) = S (length a)) as -> by done.
  rewrite Z.max_l by lia.
  replace (Z.min (Z.max 1 0) _) with 1 by lia.
  replace (Z.to_nat (Z.of_nat (S (length a)) + -1 + 1))
    with (length (x :: a)) by (simpl; lia).
  rewrite drop_all, app_nil_r. f_equal. lia.
Qed.
End arrays.

Lemma Array_indexOf_absent a x : x ∉ a → Js.Array_indexOf a x = -1.
Proof.
  intros Hx. unfold Js.Array_indexOf.
  destruct (list_find _ a) as [[i y]|] eqn:E; [|done].
  apply list_find_Some in E as (Hy & -> & _).
  exfalso. apply Hx. by eapply list_elem_of_lookup_2.
Qed.

(** ** Posts: lookup *)

Section post_lookup.
Variable cast : string → option string.

(** A lookup never changes the context, whatever it answers. *)
Lemma Post_findById_context id c r :
  Posts.Post_findById cast id c = r → final r = c.
Proof.
  unfold Posts.Post_findById. intros <-.
  destruct (cast id); [|done].
  unfold mbind, Js_bind, connected.
  by destruct (unreachable (db c)).
Qed.

Lemma Post_findById_found id c oid post c' :
  Posts.Post_findById cast id c = Normal (Some (oid, post)) c' →
  c' = c ∧ unreachable (db c) = None ∧ cast id = Some oid
  ∧ posts (db c) !! oid = Some post.
Proof.
  intros H. pose proof (Post_findById_context _ _ _ H) as Hc. simpl in Hc.
  revert H. unfold Posts.Post_findById.
  destruct (cast id) as [oid'|]; [|done].
  unfold mbind, Js_bind, connected, read_store.
  destruct (unreachable (db c)); [done|].
  destruct (posts (db c) !! oid') eqn:E; simpl; [|done].
  intros [= -> -> _]. done.
Qed.

Lemma Post_findById_intro id c oid post :
  unreachable (db c) = None → cast id = Some oid →
  posts (db c) !! oid = Some post →
  Posts.Post_findById cast id c = Normal (Some (oid, post)) c.
Proof.
  intros Hup Hcast Hpost. unfold Posts.Post_findById. rewrite Hcast.
  unfold mbind, Js_bind, connected, read_store. by rewrite Hup, Hpost.
Qed.

Lemma Post_save_connected oid post c :
  unreachable (db c) = None →
  Posts.Post_save oid post c
  = Normal () (set_db (λ s, set_posts (<[oid := post]> (posts s)) s) c).
Proof.
  intros Hup. unfold Posts.Post_save, mbind, Js_bind, connected.
  by rewrite Hup.
Qed.

Lemma Post_remove_connected oid c :
  unreachable (db c) = None →
  Posts.Post_remove oid c
  = Normal () (set_db (λ s, set_posts (delete oid (posts s)) s) c).
Proof.
  intros Hup. unfold Posts.Post_remove, mbind, Js_bind, connected.
  by rewrite Hup.
Qed.
End post_lookup.

(** ** Posts: likes *)

Section likes.
Variable cast : string → option string.

Lemma like_already_liked id uid c oid post :
  Posts.Post_findById cast id c = Normal (Some (oid, post)) c →
  uid ∈ like_user <$> likes post →
  Posts.like cast id uid c
  = Normal () (reply 400 (Json_msg "Post already liked") c).
Proof.
  intros Hfound Hin. unfold Posts.like. js_unfold. js_rewrite Hfound.
  rewrite bool_decide_true; [done|].
  apply list_elem_of_fmap in Hin as (l & -> & Hl).
  assert (l ∈ Posts.likes_of (like_user l) (likes post)) as Hl'
    by (by apply list_elem_of_filter).
  destruct (Posts.likes_of (like_user l) (likes post));
    [by apply elem_of_nil in Hl'|simpl; lia].
Qed.

Lemma likes_of_nil uid l :
  uid ∉ like_user <$> l → Posts.likes_of uid l = [].
Proof.
  intros Hnot. unfold Posts.likes_of.
  destruct (filter _ l) as [|x f] eqn:E; [done|].
  assert (x ∈ filter (λ like, like_user like = uid) l) as Hx
    by (rewrite E; left).
  apply list_elem_of_filter in Hx as [<- Hx].
  exfalso. apply Hnot. apply list_elem_of_fmap. eauto.
Qed.

Lemma like_not_yet_liked id uid c oid post :
  Posts.Post_findById cast id c = Normal (Some (oid, post)) c →
  uid ∉ like_user <$> likes post →
  Posts.like cast id uid c
  = Normal () (reply 200 (Json_likes ({| like_user := uid |} :: likes post))
      (set_db (λ s, set_posts (<[oid := set_likes ({| like_user := uid |} :: likes post) post]>
                              (posts s)) s) c)).
Proof.
  intros Hfound Hnot. unfold Posts.like. js_unfold. js_rewrite Hfound.
  rewrite (likes_of_nil _ _ Hnot). simpl.
  apply Post_findById_found in Hfound as (_ & Hup & _ & _).
  by rewrite (Post_save_connected _ _ _ Hup).
Qed.
End likes.

Section like_invariant.
Variable cast : string → option string.

(** What a lookup can answer. *)
Lemma Post_findById_cases id c :
  (∃ e, Posts.Post_findById cast id c = Throw e c)
  ∨ Posts.Post_findById cast id c = Normal None c
  ∨ ∃ oid post, Posts.Post_findById cast id c = Normal (Some (oid, post)) c.
Proof.
  pose proof (Post_findById_context cast id c _ eq_refl) as Hc.
  destruct (Posts.Post_findById cast id c) as [[[oid post]|] c'|e c'];
    simpl in Hc; subst c'; eauto.
Qed.

(** A like request leaves the store as it was or adds the like of a user
    who had none on the post. *)
Lemma like_store id uid c :
  store_of (Posts.like cast id uid c) = db c
  ∨ ∃ oid post,
      posts (db c) !! oid = Some post ∧ like_count uid post = 0%nat
      ∧ store_of (Posts.like cast id uid c)
        = set_posts (<[oid := set_likes ({| like_user := uid |} :: likes post)
                                post]> (posts (db c))) (db c).
Proof.
  destruct (Post_findById_cases id c) as [[e H]|[H|(oid & post & H)]].
  - left. unfold Posts.like. js_unfold. by js_rewrite H.
  - left. unfold Posts.like. js_unfold. by js_rewrite H.
  - destruct (decide (uid ∈ like_user <$> likes post)) as [Hin|Hnot].
    + left. by rewrite (like_already_liked _ _ _ _ _ _ H Hin).
    + right. exists oid, post.
      rewrite (like_not_yet_liked _ _ _ _ _ _ H Hnot).
      apply Post_findById_found in H as (_ & _ & _ & Hpost).
      unfold like_count. by rewrite (likes_of_nil _ _ Hnot).
Qed.

Lemma like_count_cons uid' uid post :
  like_count uid' (set_likes ({| like_user := uid |} :: likes post) post)
  = ((if decide (uid = uid') then 1 else 0) + like_count uid' post)%nat.
Proof.
  unfold like_count, Posts.likes_of. simpl. rewrite filter_cons. simpl.
  destruct (decide (uid = uid')); done.
Qed.

(** One like request, by whichever user on whichever post, preserves the
    invariant of every user. *)
Lemma like_preserves id uid uid' s :
  at_most_one_like uid' s →
  at_most_one_like uid' (serve (Posts.like cast id uid) s).
Proof.
  intros Hinv. unfold serve.
  destruct (like_store id uid (request s)) as [->|(oid & post & Hp & H0 & ->)];
    [done|].
  simpl in *. unfold at_most_one_like in *. simpl.
  apply map_Forall_insert_2; [|done].
  rewrite like_count_cons. destruct (decide (uid = uid')) as [->|].
  - rewrite H0. lia.
  - specialize (Hinv _ _ Hp). simpl in Hinv. lia.
Qed.

Lemma likes_preserve (requests : list (string * string)) uid' s :
  at_most_one_like uid' s →
  at_most_one_like uid'
    (serve_all (map (λ '(id, uid), Posts.like cast id uid) requests) s).
Proof.
  revert s. induction requests as [|[id uid] requests IH]; intros s Hinv;
    [done|].
  simpl. apply IH. by apply like_preserves.
Qed.
End like_invariant.

(** C3.  A like request on an existing post: when the requesting user's id is
    already among the post's likes the handler answers 400 "Post already
    liked" and leaves the store as it is; otherwise it prepends one like
    entry of that user, saves the post and answers with the new likes.
    Consequently no sequence of like requests makes a post hold more than one
    like entry of a user: a store in which no post does stays such a store,
    whoever sends the requests and on whichever posts. *)
Theorem like_at_most_once (cast : string → option string) :
  (∀ id uid c oid post,
     Posts.Post_findById cast id c = Normal (Some (oid, post)) c →
     (uid ∈ like_user <$> likes post →
        Posts.like cast id uid c
        = Normal () (reply 400 (Json_msg "Post already liked") c))
     ∧ (uid ∉ like_user <$> likes post →
        Posts.like cast id uid c
        = Normal ()
            (reply 200 (Json_likes ({| like_user := uid |} :: likes post))
               (set_db
                  (λ s, set_posts
                          (<[oid := set_likes
                                      ({| like_user := uid |} :: likes post)
                                      post]> (posts s)) s) c))))
  ∧ (∀ (requests : list (string * string)) uid s,
       at_most_one_like uid s →
       at_most_one_like uid
         (serve_all (map (λ '(id, uid'), Posts.like cast id uid') requests) s)).
Proof.
  split.
  - intros id uid c oid post Hfound. split; intros H.
    + by apply like_already_liked with oid post.
    + by apply like_not_yet_liked.
  - intros requests uid s. apply likes_preserve.
Qed.

Lemma like_at_most_once_witness :
  Posts.like hex24_cast p1 alice (request (store1 [ {| like_user := alice |} ] []))
  = Normal () (reply 400 (Json_msg "Post already liked")
                 (request (store1 [ {| like_user := alice |} ] [])))
  ∧ response_of (Posts.like hex24_cast p1 alice
                   (request (store1 [ {| like_user := bob |} ] [])))
    = Some {| status := 200;
              body := Json_likes [ {| like_user := alice |};
                                   {| like_user := bob |} ] |}
  ∧ at_most_one_like alice
      (serve_all (map (λ '(id, uid'), Posts.like hex24_cast id uid')
                    [(p1, alice); (p1, bob); (p1, alice)])
         (store1 [] [])).
Proof.
  split; [|split].
  - apply (proj1 (proj1 (like_at_most_once hex24_cast) p1 alice
                    (request (store1 [ {| like_user := alice |} ] [])) p1
                    (post1 [ {| like_user := alice |} ] []) eq_refl)).
    apply (bool_decide_unpack _). vm_compute. exact I.
  - rewrite (proj2 (proj1 (like_at_most_once hex24_cast) p1 alice
                      (request (store1 [ {| like_user := bob |} ] [])) p1
                      (post1 [ {| like_user := bob |} ] []) eq_refl)).
    + reflexivity.
    + apply (bool_decide_unpack _). vm_compute. exact I.
  - apply (proj2 (like_at_most_once hex24_cast)).
    apply (bool_decide_unpack _). vm_compute. exact I.
Defined.

(** ** Posts: unlike *)

Lemma prefix_refl s : String.prefix s s = true.
Proof.
  induction s as [|ch s IH]; [done|].
  simpl. destruct (ascii_dec ch ch); [done|congruence].
Qed.

Lemma String_indexOf_self s : Js.String_indexOf s s = 0.
Proof.
  unfold Js.String_indexOf. destruct s as [|ch s]; [done|].
  cbn [String.index]. by rewrite prefix_refl.
Qed.

Section unlike.
Variable cast : string → option string.

Lemma unlike_never_liked id uid c oid post :
  Posts.Post_findById cast id c = Normal (Some (oid, post)) c →
  uid ∉ like_user <$> likes post →
  Posts.unlike cast id uid c
  = Normal () (reply 400 (Json_msg "Post has not yet been liked") c).
Proof.
  intros Hfound Hnot. unfold Posts.unlike. js_unfold. js_rewrite Hfound.
  by rewrite (likes_of_nil _ _ Hnot).
Qed.

Lemma likes_of_cons uid l :
  uid ∈ like_user <$> l →
  bool_decide (length (Posts.likes_of uid l) = 0%nat) = false.
Proof.
  intros Hin. apply bool_decide_eq_false. intros Hlen.
  apply list_elem_of_fmap in Hin as (x & -> & Hx).
  assert (x ∈ Posts.likes_of (like_user x) l) as Hx'
    by (by apply list_elem_of_filter).
  apply length_zero_iff_nil in Hlen. rewrite Hlen in Hx'.
  by apply elem_of_nil in Hx'.
Qed.

(** The user's like is the only one: it goes. *)
Lemma unlike_only_like id uid c oid post :
  Posts.Post_findById cast id c = Normal (Some (oid, post)) c →
  likes post = [ {| like_user := uid |} ] →
  Posts.unlike cast id uid c
  = Normal () (reply 200 (Json_likes [])
      (set_db (λ s, set_posts (<[oid := set_likes [] post]> (posts s)) s) c)).
Proof.
  intros Hfound Hlikes. unfold Posts.unlike. js_unfold. js_rewrite Hfound.
  rewrite Hlikes. simpl.
  rewrite bool_decide_false
    by (unfold Posts.likes_of; rewrite filter_cons; simpl;
        destruct (decide (uid = uid)); [done|congruence]).
  rewrite String_indexOf_self. simpl.
  apply Post_findById_found in Hfound as (_ & Hup & _ & _).
  by rewrite (Post_save_connected _ _ _ Hup).
Qed.

(** The post has several likes: the first of them goes, whoever gave it. *)
Lemma unlike_several_likes id uid c oid post l1 l2 rest :
  Posts.Post_findById cast id c = Normal (Some (oid, post)) c →
  likes post = l1 :: l2 :: rest →
  uid ∈ like_user <$> likes post →
  Posts.unlike cast id uid c
  = Normal () (reply 200 (Json_likes (l2 :: rest))
      (set_db (λ s, set_posts (<[oid := set_likes (l2 :: rest) post]>
                                 (posts s)) s) c)).
Proof.
  intros Hfound Hlikes Hin. unfold Posts.unlike. js_unfold.
  js_rewrite Hfound. rewrite (likes_of_cons _ _ Hin).
  rewrite Hlikes. cbn [map Js.ToNumber_array Js.ToIntegerOrInfinity].
  rewrite splice_head.
  apply Post_findById_found in Hfound as (_ & Hup & _ & _).
  by rewrite (Post_save_connected _ _ _ Hup).
Qed.
End unlike.

(** C1.  An unlike request is to remove the requester's like and no other.
    Bob liked the post after Alice did, so his like comes first; Alice
    unlikes.  The handler answers 200, but the entry it removed is Bob's:
    Alice's like is still on the post. *)
Theorem unlike_removes_first_like :
  let r := Posts.unlike hex24_cast p1 alice
             (request (store1 [ {| like_user := bob |};
                                {| like_user := alice |} ] [])) in
  response_of r
  = Some {| status := 200; body := Json_likes [ {| like_user := alice |} ] |}
  ∧ likes <$> posts (store_of r) !! p1 = Some [ {| like_user := alice |} ].
Proof. vm_compute. done. Qed.

(** C10.  A like or unlike request whose post lookup answers [null]: reading
    [post.likes] throws, the [catch] block logs the message and the handler
    answers 500 "Server Error", not 404, with the store as it was.  The
    answer is 500 as well whenever the lookup finds no post for another
    reason (the identifier does not cast, the store is unreachable). *)
Theorem like_unlike_missing_post (cast : string → option string) id uid c :
  (Posts.Post_findById cast id c = Normal None c →
     let c' :=
       reply 500 (Text "Server Error")
         (logged (Log_string
                    "Cannot read property 'likes' of null or undefined") c) in
     Posts.like cast id uid c = Normal () c'
     ∧ Posts.unlike cast id uid c = Normal () c')
  ∧ ((∀ oid post,
        Posts.Post_findById cast id c ≠ Normal (Some (oid, post)) c) →
     let answer := Some {| status := 500; body := Text "Server Error" |} in
     response_of (Posts.like cast id uid c) = answer
     ∧ response_of (Posts.unlike cast id uid c) = answer
     ∧ store_of (Posts.like cast id uid c) = db c
     ∧ store_of (Posts.unlike cast id uid c) = db c).
Proof.
  split.
  - intros Hnull. unfold Posts.like, Posts.unlike. js_unfold.
    by js_rewrite Hnull.
  - intros Hnone. unfold Posts.like, Posts.unlike. js_unfold.
    destruct (Post_findById_cases cast id c) as [[e H]|[H|(oid & post & H)]];
      [| |by destruct (Hnone oid post)]; by js_rewrite H.
Qed.

Lemma like_unlike_missing_post_witness :
  let s := store1 [] [] in
  let absent := "222222222222222222222222" in
  Posts.like hex24_cast absent alice (request s)
  = Normal ()
      (reply 500 (Text "Server Error")
         (logged (Log_string
                    "Cannot read property 'likes' of null or undefined")
            (request s)))
  ∧ response_of (Posts.unlike hex24_cast "no-object-id" alice (request s))
    = Some {| status := 500; body := Text "Server Error" |}.
Proof.
  split.
  - apply (proj1 (like_unlike_missing_post hex24_cast
                    "222222222222222222222222" alice
                    (request (store1 [] [])))).
    reflexivity.
  - apply (proj2 (like_unlike_missing_post hex24_cast "no-object-id" alice
                    (request (store1 [] [])))).
    intros oid post H. vm_compute in H. discriminate H.
Defined.

(** ** Posts: deleting a post *)

Section delete_post.
Variable cast : string → option string.

Lemma delete_post_malformed id uid c :
  Posts.matches_hex24 id = false →
  Posts.delete_post cast id uid c
  = Normal () (reply 404 (Json_msg "Post not found") c).
Proof. intros H. unfold Posts.delete_post. js_unfold. by rewrite H. Qed.

Lemma delete_post_missing id uid c :
  Posts.Post_findById cast id c = Normal None c →
  Posts.delete_post cast id uid c
  = Normal () (reply 404 (Json_msg "Post not found") c).
Proof.
  intros H. unfold Posts.delete_post. js_unfold.
  destruct (Posts.matches_hex24 id); [|done]. cbn [negb]. by js_rewrite H.
Qed.

Lemma delete_post_no_cast id uid c :
  cast id = None →
  response_of (Posts.delete_post cast id uid c)
  = Some {| status := 404; body := Json_msg "Post not found" |}
  ∧ store_of (Posts.delete_post cast id uid c) = db c.
Proof.
  intros H. unfold Posts.delete_post, Posts.Post_findById. js_unfold.
  rewrite H. by destruct (Posts.matches_hex24 id).
Qed.

Lemma delete_post_not_author id uid c oid post :
  Posts.matches_hex24 id = true →
  Posts.Post_findById cast id c = Normal (Some (oid, post)) c →
  post_user post ≠ uid →
  Posts.delete_post cast id uid c
  = Normal () (reply 401 (Json_msg "user not authorized") c).
Proof.
  intros Hhex H Hne. unfold Posts.delete_post. js_unfold.
  rewrite Hhex. cbn [negb]. js_rewrite H. by rewrite bool_decide_true.
Qed.

Lemma delete_post_author id uid c oid post :
  Posts.matches_hex24 id = true →
  Posts.Post_findById cast id c = Normal (Some (oid, post)) c →
  post_user post = uid →
  Posts.delete_post cast id uid c
  = Normal () (reply 200 (Json_msg "Post Removed")
      (set_db (λ s, set_posts (delete oid (posts s)) s) c)).
Proof.
  intros Hhex H Heq. unfold Posts.delete_post. js_unfold.
  rewrite Hhex. cbn [negb]. js_rewrite H.
  rewrite bool_decide_false by (by intros ?).
  apply Post_findById_found in H as (_ & Hup & _ & _).
  by rewrite (Post_remove_connected _ _ Hup).
Qed.

(** The store changes under the hand of the author only. *)
Lemma delete_post_only_author id uid c :
  store_of (Posts.delete_post cast id uid c) ≠ db c →
  ∃ oid post,
    Posts.Post_findById cast id c = Normal (Some (oid, post)) c
    ∧ post_user post = uid.
Proof.
  intros Hchanged.
  destruct (Posts.matches_hex24 id) eqn:Hhex;
    [|by rewrite delete_post_malformed in Hchanged].
  destruct (Post_findById_cases cast id c) as [[e H]|[H|(oid & post & H)]].
  - exfalso. apply Hchanged. unfold Posts.delete_post. js_unfold.
    rewrite Hhex. cbn [negb]. js_rewrite H.
    by destruct (bool_decide (kind e = Some "ObjectId")).
  - by rewrite (delete_post_missing _ _ _ H) in Hchanged.
  - destruct (decide (post_user post = uid)) as [Heq|Hne]; [eauto|].
    by rewrite (delete_post_not_author _ _ _ _ _ Hhex H Hne) in Hchanged.
Qed.
End delete_post.

(** C7.  Deleting a post: a malformed identifier (one that is not 24
    hexadecimal digits, or that does not cast) and an identifier no post has
    are answered 404; a requester who is not the post's author is answered
    401 and the store stays as it is; the author's request removes the post.
    The store changes in no other case. *)
Theorem delete_post_spec (cast : string → option string) id uid c :
  (Posts.matches_hex24 id = false →
     Posts.delete_post cast id uid c
     = Normal () (reply 404 (Json_msg "Post not found") c))
  ∧ (cast id = None →
     response_of (Posts.delete_post cast id uid c)
     = Some {| status := 404; body := Json_msg "Post not found" |}
     ∧ store_of (Posts.delete_post cast id uid c) = db c)
  ∧ (Posts.Post_findById cast id c = Normal None c →
     Posts.delete_post cast id uid c
     = Normal () (reply 404 (Json_msg "Post not found") c))
  ∧ (∀ oid post,
       Posts.matches_hex24 id = true →
       Posts.Post_findById cast id c = Normal (Some (oid, post)) c →
       (post_user post ≠ uid →
          Posts.delete_post cast id uid c
          = Normal () (reply 401 (Json_msg "user not authorized") c))
       ∧ (post_user post = uid →
          Posts.delete_post cast id uid c
          = Normal () (reply 200 (Json_msg "Post Removed")
              (set_db (λ s, set_posts (delete oid (posts s)) s) c))))
  ∧ (store_of (Posts.delete_post cast id uid c) ≠ db c →
     ∃ oid post,
       Posts.Post_findById cast id c = Normal (Some (oid, post)) c
       ∧ post_user post = uid).
Proof.
  split; [apply delete_post_malformed|].
  split; [apply delete_post_no_cast|].
  split; [apply delete_post_missing|].
  split; [|apply delete_post_only_author].
  intros oid post Hhex H. split; intros Hu.
  - by apply delete_post_not_author with oid post.
  - by apply delete_post_author with post.
Qed.

Lemma delete_post_spec_witness :
  let c := request (store1 [] []) in
  Posts.delete_post hex24_cast "12345" alice c
  = Normal () (reply 404 (Json_msg "Post not found") c)
  ∧ Posts.delete_post hex24_cast "222222222222222222222222" alice c
    = Normal () (reply 404 (Json_msg "Post not found") c)
  ∧ Posts.delete_post hex24_cast p1 bob c
    = Normal () (reply 401 (Json_msg "user not authorized") c)
  ∧ Posts.delete_post hex24_cast p1 alice c
    = Normal () (reply 200 (Json_msg "Post Removed")
        (set_db (λ s, set_posts (delete p1 (posts s)) s) c)).
Proof.
  cbv zeta. split; [|split; [|split]].
  - apply (proj1 (delete_post_spec hex24_cast "12345" alice
                    (request (store1 [] [])))).
    reflexivity.
  - apply (proj1 (proj2 (proj2 (delete_post_spec hex24_cast
                    "222222222222222222222222" alice
                    (request (store1 [] [])))))).
    reflexivity.
  - apply (proj1 (proj1 (proj2 (proj2 (proj2 (delete_post_spec hex24_cast
                    p1 bob (request (store1 [] []))))))
                   p1 (post1 [] []) eq_refl eq_refl)).
    intros H. vm_compute in H. discriminate H.
  - apply (proj2 (proj1 (proj2 (proj2 (proj2 (delete_post_spec hex24_cast
                    p1 alice (request (store1 [] []))))))
                   p1 (post1 [] []) eq_refl eq_refl)).
    reflexivity.
Defined.


(** ** Posts: deleting a comment *)

Lemma find_comment_None cid l :
  Posts.find_comment cid l = None ↔ cid ∉ comment_id <$> l.
Proof.
  unfold Posts.find_comment. split.
  - intros Hnone Hin. apply list_elem_of_fmap in Hin as (cm & -> & Hcm).
    apply list_elem_of_In in Hcm.
    pose proof (find_none _ _ Hnone _ Hcm) as H. simpl in H.
    by rewrite bool_decide_true in H.
  - intros Hnot. destruct (List.find _ l) as [cm|] eqn:E; [|done].
    apply find_some in E as [Hin Hid]. apply bool_decide_eq_true in Hid.
    exfalso. apply Hnot. apply list_elem_of_fmap. exists cm.
    split; [done|]. by apply list_elem_of_In.
Qed.

Lemma find_comment_Some cid l cm :
  Posts.find_comment cid l = Some cm → cm ∈ l ∧ comment_id cm = cid.
Proof.
  unfold Posts.find_comment. intros E. apply find_some in E as [Hin Hid].
  apply bool_decide_eq_true in Hid. split; [|done]. by apply list_elem_of_In.
Qed.

(** The index the handler computes is the place of the requester's first
    comment. *)
Lemma comment_removeIndex uid l cm :
  cm ∈ l → comment_user cm = uid →
  ∃ (i : nat) first,
    list_find (λ x, comment_user x = uid) l = Some (i, first)
    ∧ Js.Array_indexOf (map comment_user l) uid = Z.of_nat i.
Proof.
  intros Hin Hu.
  destruct (list_find_elem_of (λ x, comment_user x = uid) l cm Hin Hu)
    as [[i first] E].
  exists i, first. split; [done|].
  unfold Js.Array_indexOf.
  change (map comment_user l) with (comment_user <$> l).
  rewrite list_find_fmap.
  change ((λ y, y = uid) ∘ comment_user) with (λ x, comment_user x = uid).
  by rewrite E.
Qed.

Section delete_comment.
Variable cast : string → option string.

Lemma delete_comment_unknown id cid uid c oid post :
  Posts.Post_findById cast id c = Normal (Some (oid, post)) c →
  cid ∉ comment_id <$> comments post →
  Posts.delete_comment cast id cid uid c
  = Normal () (reply 404 (Json_msg "Comment doesn't exists")
                 (logged (Log_comment None) c)).
Proof.
  intros H Hnot. apply find_comment_None in Hnot.
  unfold Posts.delete_comment. js_unfold. js_rewrite H. by rewrite Hnot.
Qed.

Lemma delete_comment_not_author id cid uid c oid post cm :
  Posts.Post_findById cast id c = Normal (Some (oid, post)) c →
  Posts.find_comment cid (comments post) = Some cm →
  comment_user cm ≠ uid →
  Posts.delete_comment cast id cid uid c
  = Normal () (reply 401 (Json_msg "User not authorized")
                 (logged (Log_comment (Some cm)) c)).
Proof.
  intros H Hcm Hne. unfold Posts.delete_comment. js_unfold. js_rewrite H.
  rewrite Hcm. cbv beta iota. by rewrite bool_decide_true.
Qed.

Lemma delete_comment_author id cid uid c oid post cm :
  Posts.Post_findById cast id c = Normal (Some (oid, post)) c →
  Posts.find_comment cid (comments post) = Some cm →
  comment_user cm = uid →
  ∃ (i : nat) first,
    list_find (λ x, comment_user x = uid) (comments post) = Some (i, first)
    ∧ Posts.delete_comment cast id cid uid c
      = Normal ()
          (reply 200 (Json_comments (delete i (comments post)))
             (set_db
                (λ s, set_posts
                        (<[oid := set_comments (delete i (comments post)) post]>
                           (posts s)) s)
                (logged (Log_comment (Some cm)) c))).
Proof.
  intros H Hcm Hu.
  destruct (find_comment_Some _ _ _ Hcm) as [Hin _].
  destruct (comment_removeIndex uid _ cm Hin Hu) as (i & first & Hfind & Hidx).
  exists i, first. split; [done|].
  unfold Posts.delete_comment. js_unfold. js_rewrite H.
  rewrite Hcm. cbv beta iota. rewrite bool_decide_false by (by intros ?).
  rewrite Hidx.
  apply list_find_Some in Hfind as (Hi & _ & _).
  rewrite splice_one_at by (by eapply lookup_lt_Some).
  apply Post_findById_found in H as (_ & Hup & _ & _).
  rewrite Post_save_connected by done. done.
Qed.
End delete_comment.

(** C5.  Deleting a comment of an existing post: when no comment has the
    identifier the handler answers 404; when the comment found belongs to
    another user it answers 401 and the post stays as it is; otherwise it
    removes the comment at the place of the requester's first comment, which
    need not be the comment that was asked for: Alice, who wrote two
    comments, asks for the older one to go and loses the newer one. *)
Theorem delete_comment_spec (cast : string → option string) :
  (∀ id cid uid c oid post,
     Posts.Post_findById cast id c = Normal (Some (oid, post)) c →
     (cid ∉ comment_id <$> comments post →
        Posts.delete_comment cast id cid uid c
        = Normal () (reply 404 (Json_msg "Comment doesn't exists")
                       (logged (Log_comment None) c)))
     ∧ (∀ cm,
          Posts.find_comment cid (comments post) = Some cm →
          (comment_user cm ≠ uid →
             Posts.delete_comment cast id cid uid c
             = Normal () (reply 401 (Json_msg "User not authorized")
                            (logged (Log_comment (Some cm)) c)))
          ∧ (comment_user cm = uid →
             ∃ (i : nat) first,
               list_find (λ x, comment_user x = uid) (comments post)
               = Some (i, first)
               ∧ Posts.delete_comment cast id cid uid c
                 = Normal ()
                     (reply 200 (Json_comments (delete i (comments post)))
                        (set_db
                           (λ s, set_posts
                                   (<[oid := set_comments
                                               (delete i (comments post)) post]>
                                      (posts s)) s)
                           (logged (Log_comment (Some cm)) c))))))
  ∧ (let r := Posts.delete_comment hex24_cast p1 (comment_id comment1) alice
                (request (store1 [] [comment2; comment1])) in
     response_of r
     = Some {| status := 200; body := Json_comments [comment1] |}
     ∧ comments <$> posts (store_of r) !! p1 = Some [comment1]).
Proof.
  split.
  - intros id cid uid c oid post H. split.
    + by apply delete_comment_unknown with oid.
    + intros cm Hcm. split; intros Hu.
      * by apply delete_comment_not_author with oid post.
      * exact (delete_comment_author cast _ _ _ _ _ _ _ H Hcm Hu).
  - vm_compute. done.
Qed.

Lemma delete_comment_spec_witness :
  let c := request (store1 [] [comment2; comment1]) in
  Posts.delete_comment hex24_cast p1 "c3c3c3c3c3c3c3c3c3c3c3c3" alice c
  = Normal () (reply 404 (Json_msg "Comment doesn't exists")
                 (logged (Log_comment None) c))
  ∧ Posts.delete_comment hex24_cast p1 (comment_id comment1) bob c
    = Normal () (reply 401 (Json_msg "User not authorized")
                   (logged (Log_comment (Some comment1)) c))
  ∧ ∃ (i : nat) first,
      list_find (λ x, comment_user x = alice) [comment2; comment1]
      = Some (i, first)
      ∧ Posts.delete_comment hex24_cast p1 (comment_id comment1) alice c
        = Normal ()
            (reply 200 (Json_comments (delete i [comment2; comment1]))
               (set_db
                  (λ s, set_posts
                          (<[p1 := set_comments (delete i [comment2; comment1])
                                     (post1 [] [comment2; comment1])]>
                             (posts s)) s)
                  (logged (Log_comment (Some comment1)) c))).
Proof.
  cbv zeta. split; [|split].
  - apply (proj1 (proj1 (delete_comment_spec hex24_cast) p1
                    "c3c3c3c3c3c3c3c3c3c3c3c3" alice
                    (request (store1 [] [comment2; comment1])) p1
                    (post1 [] [comment2; comment1]) eq_refl)).
    apply (bool_decide_unpack _). vm_compute. exact I.
  - apply (proj1 (proj2 (proj1 (delete_comment_spec hex24_cast) p1
                    (comment_id comment1) bob
                    (request (store1 [] [comment2; comment1])) p1
                    (post1 [] [comment2; comment1]) eq_refl)
                   comment1 eq_refl)).
    intros H. vm_compute in H. discriminate H.
  - apply (proj2 (proj2 (proj1 (delete_comment_spec hex24_cast) p1
                    (comment_id comment1) alice
                    (request (store1 [] [comment2; comment1])) p1
                    (post1 [] [comment2; comment1]) eq_refl)
                   comment1 eq_refl)).
    reflexivity.
Defined.


(** ** Profiles: lookup *)

Lemma Profile_findOne_context uid c r :
  Profile.Profile_findOne uid c = r → final r = c.
Proof.
  unfold Profile.Profile_findOne. intros <-.
  unfold mbind, Js_bind, connected. by destruct (unreachable (db c)).
Qed.

Lemma Profile_findOne_found uid c i doc c' :
  Profile.Profile_findOne uid c = Normal (Some (i, doc)) c' →
  c' = c ∧ unreachable (db c) = None
  ∧ list_find (Profile.owned_by uid) (profiles (db c)) = Some (i, doc).
Proof.
  intros H. pose proof (Profile_findOne_context _ _ _ H) as Hc. simpl in Hc.
  revert H. unfold Profile.Profile_findOne, mbind, Js_bind, connected, read_store.
  destruct (unreachable (db c)); [done|]. by intros [= -> _].
Qed.

Lemma Profile_findOne_cases uid c :
  (∃ e, Profile.Profile_findOne uid c = Throw e c)
  ∨ Profile.Profile_findOne uid c = Normal None c
  ∨ ∃ i doc, Profile.Profile_findOne uid c = Normal (Some (i, doc)) c.
Proof.
  pose proof (Profile_findOne_context uid c _ eq_refl) as Hc.
  destruct (Profile.Profile_findOne uid c) as [[[i doc]|] c'|e c'];
    simpl in Hc; subst c'; eauto.
Qed.

Lemma Profile_save_connected i doc c :
  unreachable (db c) = None →
  Profile.Profile_save i doc c
  = Normal () (set_db (λ s, set_profiles (<[i := doc]> (profiles s)) s) c).
Proof.
  intros Hup. unfold Profile.Profile_save, mbind, Js_bind, connected.
  by rewrite Hup.
Qed.

(** ** Profiles: the own profile *)

(** C9.  GET api/profile/me when the profile lookup throws: the [catch] block
    binds the caught value to [error] and reads [err], which is not defined,
    so the block itself throws a ReferenceError before it logs or answers;
    the handler sends nothing.  And whatever the lookup does, the handler
    never answers 500. *)
Theorem get_me_never_answers_500 uid c :
  (∀ e c', Profile.Profile_findOne uid c = Throw e c' →
     Profile.get_me uid c = Throw (ReferenceError "err is not defined") c)
  ∧ (∀ answer, response_of (Profile.get_me uid c) = Some answer →
       sent c = None → status answer ≠ 500).
Proof.
  split.
  - intros e c' H.
    pose proof (Profile_findOne_context _ _ _ H) as Hc. simpl in Hc. subst c'.
    unfold Profile.get_me, Profile.unbound. js_unfold. by js_rewrite H.
  - intros answer. unfold Profile.get_me, Profile.unbound. js_unfold.
    destruct (Profile_findOne_cases uid c) as [[e H]|[H|(i & doc & H)]];
      js_rewrite H; unfold response_of; simpl.
    + congruence.
    + by intros [= <-].
    + by intros [= <-].
Qed.

Lemma get_me_never_answers_500_witness :
  Profile.get_me alice (request store_down)
  = Throw (ReferenceError "err is not defined") (request store_down)
  ∧ response_of (Profile.get_me alice (request store_down)) = None.
Proof.
  assert (Profile.get_me alice (request store_down)
          = Throw (ReferenceError "err is not defined") (request store_down))
    as H.
  { apply (proj1 (get_me_never_answers_500 alice (request store_down))
             {| name := "MongoNetworkError"; message := "connection lost";
                kind := None |} (request store_down)).
    reflexivity. }
  split; [exact H|]. rewrite H. reflexivity.
Defined.

(** ** Profiles: removing an experience or education entry *)

Section delete_subdoc.
Variables (field uid sub_id : string) (c : Ctx) (i : nat) (profile : Doc).
Hypothesis found :
  Profile.Profile_findOne uid c = Normal (Some (i, profile)) c.

Let entries := Profile.subdocs field profile.

(** What the handler does once the index is known. *)
Lemma delete_subdoc_run :
  let removeIndex := Js.Array_indexOf (map subdoc_id entries) sub_id in
  let profile' :=
    <[field := VSubdocs (Js.splice entries removeIndex 1)]> profile in
  Profile.delete_subdoc field uid sub_id c
  = Normal () (reply 200 (Json_profile profile')
      (set_db (λ s, set_profiles (<[i := profile']> (profiles s)) s) c)).
Proof.
  unfold Profile.delete_subdoc. js_unfold. js_rewrite found.
  apply Profile_findOne_found in found as (_ & Hup & _).
  by rewrite (Profile_save_connected _ _ _ Hup).
Qed.

(** The identifier is there: the entry at its first place goes. *)
Lemma delete_subdoc_present :
  sub_id ∈ subdoc_id <$> entries →
  ∃ (j : nat) entry,
    list_find (λ e, subdoc_id e = sub_id) entries = Some (j, entry)
    ∧ Js.Array_indexOf (map subdoc_id entries) sub_id = Z.of_nat j
    ∧ Js.splice entries (Z.of_nat j) 1 = delete j entries.
Proof.
  intros Hin. apply list_elem_of_fmap in Hin as (e & He & Hin).
  destruct (list_find_elem_of (λ e, subdoc_id e = sub_id) entries e Hin
              (eq_sym He)) as [[j entry] E].
  exists j, entry. split; [done|]. split.
  - unfold Js.Array_indexOf.
    change (map subdoc_id entries) with (subdoc_id <$> entries).
    rewrite list_find_fmap.
    change ((λ y, y = sub_id) ∘ subdoc_id) with (λ e, subdoc_id e = sub_id).
    by rewrite E.
  - apply list_find_Some in E as (Hj & _ & _).
    apply splice_one_at. by eapply lookup_lt_Some.
Qed.

(** The identifier is not there: the index is -1 and the last entry goes. *)
Lemma delete_subdoc_absent :
  sub_id ∉ subdoc_id <$> entries →
  Js.Array_indexOf (map subdoc_id entries) sub_id = -1
  ∧ Js.splice entries (-1) 1 = take (length entries - 1) entries.
Proof.
  intros Hnot. split; [by apply Array_indexOf_absent|].
  apply splice_minus_one.
Qed.
End delete_subdoc.

(** C2.  A removal request with an identifier that no entry has is to leave
    the list as it is.  Alice's profile lists two experience entries and one
    education entry; for an identifier that none of them has the handler
    computes the index -1, and [splice(-1, 1)] removes the last entry of the
    list: the second experience entry, the only education entry. *)
Theorem delete_unknown_entry_removes_last :
  let unknown := "ffffffffffffffffffffffff" in
  let r := Profile.delete_experience alice unknown (request store2) in
  let r' := Profile.delete_education alice unknown (request store2) in
  Js.Array_indexOf (map subdoc_id [exp1; exp2]) unknown = -1
  ∧ Profile.subdocs "experience" <$> profiles store2 = [[exp1; exp2]]
  ∧ Profile.subdocs "education" <$> profiles store2 = [[edu1]]
  ∧ Profile.subdocs "experience" <$> profiles (store_of r) = [[exp1]]
  ∧ Profile.subdocs "education" <$> profiles (store_of r') = [[]]
  ∧ status <$> response_of r = Some 200.
Proof. vm_compute. done. Qed.

(** ** Profiles: create or update *)

Lemma lookup_assign_if_truthy {V} (wrap : string → V) key v
    (o : gmap string V) k :
  Profile.assign_if_truthy wrap key v o !! k
  = if decide (key = k ∧ Js.truthy v = true) then wrap <$> v else o !! k.
Proof.
  unfold Profile.assign_if_truthy.
  destruct v as [s|]; [|by rewrite decide_False by (by intros [_ ?])].
  destruct (Js.truthy (Some s));
    [|by rewrite decide_False by (by intros [_ ?])].
  destruct (decide (key = k)) as [->|Hne].
  - by rewrite lookup_insert_eq, decide_True.
  - rewrite lookup_insert_ne by done.
    by rewrite decide_False by (by intros [? _]).
Qed.

Lemma lookup_assign_other {V} (wrap : string → V) key
    (body : gmap string string) (o : gmap string V) k :
  Js.truthy (body !! k) = false →
  Profile.assign_if_truthy wrap key (body !! key) o !! k = o !! k.
Proof.
  intros Hk. rewrite lookup_assign_if_truthy.
  apply decide_False. intros [-> Ht]. congruence.
Qed.

(** Two string literals differ. *)
Ltac literals_differ :=
  solve [ apply (bool_decide_unpack _); vm_compute; exact I ].

(** Look a literal key up in [profileFields] or [socialFields], with the
    truthiness of the body's field among the hypotheses. *)
Ltac lookup_fields :=
  unfold Profile.profileFields, Profile.socialFields; cbv zeta;
  repeat first
    [ rewrite lookup_insert_ne by literals_differ
    | rewrite lookup_insert_eq
    | rewrite lookup_assign_if_truthy;
      first [ rewrite decide_False
                by (intros [Hkey _]; revert Hkey; literals_differ)
            | rewrite decide_True by (split; [reflexivity|assumption]) ] ].

(** A field that the body does not hold (or holds empty) is not part of the
    update, the user and the social object apart; nor does the handler copy
    any field but the seven it names. *)
Lemma profileFields_absent uid body k :
  k ≠ "user" → k ≠ "social" → Js.truthy (body !! k) = false →
  Profile.profileFields uid body !! k = None.
Proof.
  intros Hu Hs Hk. unfold Profile.profileFields. cbv zeta.
  rewrite lookup_insert_ne by done.
  rewrite !lookup_assign_other by done.
  rewrite lookup_insert_ne by done. apply lookup_empty.
Qed.

Lemma profileFields_unnamed uid body k :
  k ≠ "user" → k ≠ "social" →
  k ∉ ["company"; "website"; "location"; "bio"; "status"; "githubusername";
       "skills"] →
  Profile.profileFields uid body !! k = None.
Proof.
  intros Hu Hs Hk. unfold Profile.profileFields. cbv zeta.
  rewrite lookup_insert_ne by done.
  repeat (rewrite lookup_assign_if_truthy;
          rewrite decide_False by (intros [<- _]; apply Hk; set_solver)).
  rewrite lookup_insert_ne by done. apply lookup_empty.
Qed.

Lemma profileFields_user uid body :
  Profile.profileFields uid body !! "user" = Some (VStr uid).
Proof. by lookup_fields. Qed.

Lemma profileFields_social uid body :
  Profile.profileFields uid body !! "social"
  = Some (VObj (Profile.socialFields body)).
Proof. by lookup_fields. Qed.

Lemma truthy_Some v : v ≠ "" → Js.truthy (Some v) = true.
Proof. intros Hne. simpl. by destruct (String.eqb_spec v ""). Qed.

Lemma profileFields_string uid body k v :
  k ∈ ["company"; "website"; "location"; "bio"; "status"; "githubusername"] →
  body !! k = Some v → v ≠ "" →
  Profile.profileFields uid body !! k = Some (VStr v).
Proof.
  intros Hk Hv Hne.
  assert (Js.truthy (body !! k) = true) as Ht
    by (rewrite Hv; by apply truthy_Some).
  repeat (apply elem_of_cons in Hk as [->|Hk]);
    [..|by apply elem_of_nil in Hk];
    lookup_fields; by rewrite Hv.
Qed.

Lemma profileFields_skills uid body v :
  body !! "skills" = Some v → v ≠ "" →
  Profile.profileFields uid body !! "skills"
  = Some (VStrs (map Profile.trim (Profile.split_comma v))).
Proof.
  intros Hv Hne.
  assert (Js.truthy (body !! "skills") = true) as Ht
    by (rewrite Hv; by apply truthy_Some).
  lookup_fields. by rewrite Hv.
Qed.

Lemma socialFields_absent body k :
  Js.truthy (body !! k) = false → Profile.socialFields body !! k = None.
Proof.
  intros Hk. unfold Profile.socialFields. cbv zeta.
  rewrite !lookup_assign_other by done.
  apply lookup_empty.
Qed.

Lemma socialFields_present body k v :
  k ∈ ["youtube"; "twitter"; "facebook"; "linkedin"; "instagram"] →
  body !! k = Some v → v ≠ "" →
  Profile.socialFields body !! k = Some v.
Proof.
  intros Hk Hv Hne.
  assert (Js.truthy (body !! k) = true) as Ht
    by (rewrite Hv; by apply truthy_Some).
  repeat (apply elem_of_cons in Hk as [->|Hk]);
    [..|by apply elem_of_nil in Hk];
    lookup_fields; by rewrite Hv.
Qed.

(** [$set] twice with the same fields is [$set] once. *)
Lemma socialFields_unnamed body k :
  k ∉ ["youtube"; "twitter"; "facebook"; "linkedin"; "instagram"] →
  Profile.socialFields body !! k = None.
Proof.
  intros Hk. unfold Profile.socialFields. cbv zeta.
  repeat (rewrite lookup_assign_if_truthy;
          rewrite decide_False by (intros [<- _]; apply Hk; set_solver)).
  apply lookup_empty.
Qed.

(** The social object holds the links of the body that are not empty, and
    nothing else. *)
Lemma socialFields_exact body k v :
  Profile.socialFields body !! k = Some v
  ↔ k ∈ ["youtube"; "twitter"; "facebook"; "linkedin"; "instagram"]
    ∧ body !! k = Some v ∧ v ≠ "".
Proof.
  split.
  - intros Hsocial.
    destruct (decide (k ∈ ["youtube"; "twitter"; "facebook"; "linkedin";
                           "instagram"])) as [Hk|Hk];
      [|by rewrite socialFields_unnamed in Hsocial].
    destruct (body !! k) as [v'|] eqn:Hbody;
      [|by rewrite socialFields_absent in Hsocial by (by rewrite Hbody)].
    destruct (String.eqb_spec v' "") as [->|Hne].
    + by rewrite socialFields_absent in Hsocial by (by rewrite Hbody).
    + rewrite (socialFields_present body k v' Hk Hbody Hne) in Hsocial.
      by injection Hsocial as ->.
  - intros (Hk & Hbody & Hne). by apply socialFields_present.
Qed.

Lemma upsert_req_valid uid req oid :
  Profile.check_notEmpty_req req "status" "Status is required" = [] →
  Profile.check_notEmpty_req req "skills" "skills is required" = [] →
  Profile.upsert_req uid req oid
  = Profile.upsert_profile uid (Validator.req_body req) oid.
Proof.
  intros Hstatus Hskills. unfold Profile.upsert_req.
  rewrite Hstatus, Hskills. cbn [app]. by rewrite bool_decide_true.
Qed.

Lemma upsert_req_invalid uid req oid c :
  let errors :=
    Profile.check_notEmpty_req req "status" "Status is required"
    ++ Profile.check_notEmpty_req req "skills" "skills is required" in
  errors ≠ [] →
  Profile.upsert_req uid req oid c
  = Normal () (reply 400 (Json_errors errors) c).
Proof.
  intros errors Hne. unfold Profile.upsert_req. fold errors.
  by rewrite bool_decide_false.
Qed.

Lemma update_set_idemp fields doc :
  Profile.update_set fields (Profile.update_set fields doc)
  = Profile.update_set fields doc.
Proof.
  unfold Profile.update_set.
  by rewrite (assoc (∪) fields fields doc), (idemp (∪) fields).
Qed.

Lemma update_set_owned uid body doc :
  Profile.owned_by uid (Profile.update_set (Profile.profileFields uid body) doc).
Proof.
  unfold Profile.owned_by, Profile.update_set.
  apply lookup_union_Some_l, profileFields_user.
Qed.

Lemma Profile_findOne_intro uid c i doc :
  unreachable (db c) = None →
  list_find (Profile.owned_by uid) (profiles (db c)) = Some (i, doc) →
  Profile.Profile_findOne uid c = Normal (Some (i, doc)) c.
Proof.
  intros Hup Hfind.
  unfold Profile.Profile_findOne, mbind, Js_bind, connected, read_store.
  by rewrite Hup, Hfind.
Qed.

Lemma Profile_findOneAndUpdate_found uid fields c i doc :
  Profile.Profile_findOne uid c = Normal (Some (i, doc)) c →
  Profile.Profile_findOneAndUpdate uid fields c
  = Normal (Some (Profile.update_set fields doc))
      (set_db (λ s, set_profiles
                      (<[i := Profile.update_set fields doc]> (profiles s)) s)
         c).
Proof.
  intros H. apply Profile_findOne_found in H as (_ & Hup & Hfind).
  unfold Profile.Profile_findOneAndUpdate, mbind, Js_bind, connected,
    read_store.
  by rewrite Hup, Hfind.
Qed.

Lemma upsert_profile_existing uid body oid c i doc :
  Profile.Profile_findOne uid c = Normal (Some (i, doc)) c →
  Profile.upsert_profile uid body oid c
  = Normal ()
      (reply 200
         (Json_profile (Profile.update_set (Profile.profileFields uid body) doc))
         (set_db
            (λ s, set_profiles
                    (<[i := Profile.update_set (Profile.profileFields uid body)
                              doc]> (profiles s)) s) c)).
Proof.
  intros H. unfold Profile.upsert_profile. js_unfold. js_rewrite H.
  by rewrite (Profile_findOneAndUpdate_found _ _ _ _ _ H).
Qed.

(** A body with status and skills passes the validation. *)
Lemma upsert_valid uid body oid :
  Js.truthy (body !! "status") = true →
  Js.truthy (body !! "skills") = true →
  Profile.upsert uid body oid = Profile.upsert_profile uid body oid.
Proof.
  intros Hstatus Hskills. rewrite upsert_body, !check_notEmpty_body.
  rewrite Hstatus, Hskills. cbn [app]. by rewrite bool_decide_true.
Qed.

(** After the update the profile is found where it was. *)
Lemma list_find_updated uid body (l : list Doc) i doc :
  list_find (Profile.owned_by uid) l = Some (i, doc) →
  list_find (Profile.owned_by uid)
    (<[i := Profile.update_set (Profile.profileFields uid body) doc]> l)
  = Some (i, Profile.update_set (Profile.profileFields uid body) doc).
Proof.
  intros Hfind. apply list_find_Some in Hfind as (Hi & _ & Hmin).
  apply list_find_insert_Some. right. left.
  split; [done|]. split; [done|].
  split; [by eapply lookup_lt_Some|].
  split; [apply update_set_owned|]. exact Hmin.
Qed.

Lemma upsert_profile_twice uid body oid oid' s i doc :
  Profile.Profile_findOne uid (request s) = Normal (Some (i, doc)) (request s) →
  profiles (serve_all [Profile.upsert_profile uid body oid;
                       Profile.upsert_profile uid body oid'] s)
  = <[i := Profile.update_set (Profile.profileFields uid body) doc]>
      (profiles s).
Proof.
  intros H. simpl. unfold serve at 2.
  rewrite (upsert_profile_existing _ _ _ _ _ _ H).
  apply Profile_findOne_found in H as (_ & Hup & Hfind). simpl in Hup, Hfind.
  unfold store_of. simpl. unfold serve.
  erewrite upsert_profile_existing; [|apply Profile_findOne_intro; [done|]].
  - simpl. by rewrite update_set_idemp, list_insert_insert_eq.
  - simpl. by apply list_find_updated.
Qed.

(** C4, amended.  An update of an existing profile writes the fields that
    the body holds and keeps every other field of the stored document, with
    one exception: the [social] object is part of every update and is
    replaced as a whole by the social links of the body, so that it holds
    exactly the links (youtube, twitter, facebook, linkedin, instagram)
    that the body holds with a value that is not empty.  Submitting the
    same body twice stores what submitting it once stores, so a body with
    status and skills only, which is what the validation asks for, leaves
    the bio untouched however often it is sent.  The route runs this update
    once the validation has passed, which looks for status and skills in
    every location of the request, and answers 400 otherwise. *)
Theorem upsert_keeps_absent_fields uid body oid oid' s i doc :
  Profile.Profile_findOne uid (request s) = Normal (Some (i, doc)) (request s) →
  let doc' := Profile.update_set (Profile.profileFields uid body) doc in
  Profile.upsert_profile uid body oid (request s)
  = Normal ()
      (reply 200 (Json_profile doc')
         (set_db (λ s, set_profiles (<[i := doc']> (profiles s)) s)
            (request s)))
  ∧ (Js.truthy (body !! "status") = true →
     Js.truthy (body !! "skills") = true →
     Profile.upsert uid body oid = Profile.upsert_profile uid body oid)
  ∧ (∀ k v,
       k ∈ ["company"; "website"; "location"; "bio"; "status";
            "githubusername"] →
       body !! k = Some v → v ≠ "" → doc' !! k = Some (VStr v))
  ∧ (∀ v, body !! "skills" = Some v → v ≠ "" →
       doc' !! "skills"
       = Some (VStrs (map Profile.trim (Profile.split_comma v))))
  ∧ (∀ k, k ≠ "social" →
       Js.truthy (body !! k) = false
       ∨ k ∉ ["company"; "website"; "location"; "bio"; "status";
              "githubusername"; "skills"] →
       doc' !! k = doc !! k)
  ∧ doc' !! "social" = Some (VObj (Profile.socialFields body))
  ∧ (∀ k, Js.truthy (body !! k) = false →
       Profile.socialFields body !! k = None)
  ∧ profiles (serve_all [Profile.upsert_profile uid body oid;
                         Profile.upsert_profile uid body oid'] s)
    = <[i := doc']> (profiles s)
  ∧ (∀ k v,
       Profile.socialFields body !! k = Some v
       ↔ k ∈ ["youtube"; "twitter"; "facebook"; "linkedin"; "instagram"]
         ∧ body !! k = Some v ∧ v ≠ "")
  ∧ (∀ req,
       let errors :=
         Profile.check_notEmpty_req req "status" "Status is required"
         ++ Profile.check_notEmpty_req req "skills" "skills is required" in
       (errors = [] →
        Profile.upsert_req uid req oid
        = Profile.upsert_profile uid (Validator.req_body req) oid)
       ∧ (errors ≠ [] →
          ∀ c, Profile.upsert_req uid req oid c
               = Normal () (reply 400 (Json_errors errors) c))
       ∧ (errors = []
          ↔ (Validator.values req "status" ≠ []
             ∧ Forall (λ v, v ≠ "") (Validator.values req "status"))
            ∧ Validator.values req "skills" ≠ []
              ∧ Forall (λ v, v ≠ "") (Validator.values req "skills")))
  ∧ Profile.upsert uid body oid
    = Profile.upsert_req uid (Validator.only_body body) oid.
Proof.
  intros H doc'. subst doc'.
  split; [by apply upsert_profile_existing|].
  split; [apply upsert_valid|].
  split.
  { intros k v Hk Hv Hne. apply lookup_union_Some_l.
    by apply profileFields_string. }
  split.
  { intros v Hv Hne. apply lookup_union_Some_l.
    by apply profileFields_skills. }
  split.
  { intros k Hk Ht. unfold Profile.update_set.
    destruct (decide (k = "user")) as [->|Hu].
    - apply Profile_findOne_found in H as (_ & _ & Hfind).
      apply list_find_Some in Hfind as (_ & Howned & _).
      rewrite Howned. apply lookup_union_Some_l, profileFields_user.
    - apply lookup_union_r. destruct Ht as [Ht|Ht].
      + by apply profileFields_absent.
      + by apply profileFields_unnamed. }
  split; [apply lookup_union_Some_l, profileFields_social|].
  split; [apply socialFields_absent|].
  split; [by apply upsert_profile_twice|].
  split; [apply socialFields_exact|]. split; [|done].
  intros req errors. split; [|split].
  - intros [Hstatus Hskills]%app_eq_nil. by apply upsert_req_valid.
  - intros Hne c. by apply upsert_req_invalid.
  - subst errors. by rewrite app_nil, !check_notEmpty_req_nil.
Qed.

Lemma upsert_keeps_absent_fields_witness :
  let body : gmap string string :=
    {[ "status" := "Senior"; "skills" := "js, coq" ]} in
  let doc' := Profile.update_set (Profile.profileFields alice body) profile1 in
  doc' !! "bio" = Some (VStr "Hello, I am Alice")
  ∧ doc' !! "status" = Some (VStr "Senior")
  ∧ doc' !! "skills" = Some (VStrs ["js"; "coq"])
  ∧ doc' !! "experience" = Some (VSubdocs [exp1; exp2])
  ∧ profiles (serve_all [Profile.upsert alice body "f1f1f1f1f1f1f1f1f1f1f1f1";
                         Profile.upsert alice body "f2f2f2f2f2f2f2f2f2f2f2f2"]
                store2)
    = [doc'].
Proof.
  cbv zeta.
  assert (Profile.Profile_findOne alice (request store2)
          = Normal (Some (0%nat, profile1)) (request store2)) as Hfound
    by (vm_compute; reflexivity).
  destruct (upsert_keeps_absent_fields alice
              {[ "status" := "Senior"; "skills" := "js, coq" ]}
              "f1f1f1f1f1f1f1f1f1f1f1f1" "f2f2f2f2f2f2f2f2f2f2f2f2"
              store2 0%nat profile1 Hfound)
    as (_ & Hvalid & Hstr & Hskills & Hkeep & _ & _ & Htwice & _).
  split; [|split; [|split; [|split]]].
  - rewrite (Hkeep "bio"); [|literals_differ|left]; vm_compute; reflexivity.
  - apply (Hstr "status" "Senior"); [| |literals_differ].
    + apply (bool_decide_unpack _). vm_compute. exact I.
    + vm_compute. reflexivity.
  - apply (Hskills "js, coq"); [|literals_differ]. vm_compute. reflexivity.
  - rewrite (Hkeep "experience"); [|literals_differ|left]; vm_compute;
      reflexivity.
  - rewrite (upsert_valid alice _ "f1f1f1f1f1f1f1f1f1f1f1f1"),
      (upsert_valid alice _ "f2f2f2f2f2f2f2f2f2f2f2f2");
      [exact Htwice|vm_compute; reflexivity..].
Defined.

(** C4 as stated fails on the social links: Alice's profile holds a YouTube
    link and a bio; she submits status and skills only, twice.  The bio is
    kept, the YouTube link is gone. *)
Lemma upsert_drops_social_links :
  let body : gmap string string :=
    {[ "status" := "Senior"; "skills" := "js, coq" ]} in
  let s' := serve_all [Profile.upsert alice body "f1f1f1f1f1f1f1f1f1f1f1f1";
                       Profile.upsert alice body "f2f2f2f2f2f2f2f2f2f2f2f2"]
              store2 in
  (profiles store2 !! 0%nat ≫= lookup "social")
  = Some (VObj {[ "youtube" := "https://youtube.com/alice" ]})
  ∧ body !! "youtube" = None
  ∧ (profiles s' !! 0%nat ≫= lookup "social") = Some (VObj ∅)
  ∧ (profiles s' !! 0%nat ≫= lookup "bio") = Some (VStr "Hello, I am Alice").
Proof. vm_compute. done. Qed.

(** ** Profiles: the GitHub lookup *)



(** ** Registration *)

Section register.
Variable config_get : string → option string.
Variable isEmail : string → bool.
Variable gravatar_url : string → string.
Variable bcrypt_hash : string → string → string.
Variable jwt_sign : string → string → Z → JsError + string.

Abbreviation register_user :=
  (Users.register_user config_get gravatar_url bcrypt_hash jwt_sign).
Abbreviation register :=
  (Users.register config_get isEmail gravatar_url bcrypt_hash jwt_sign).

Lemma User_findOne_context email c r :
  Users.User_findOne email c = r → final r = c.
Proof.
  unfold Users.User_findOne. intros <-.
  unfold mbind, Js_bind, connected. by destruct (unreachable (db c)).
Qed.

Lemma User_findOne_connected email c r :
  Users.User_findOne email c = Normal r c →
  unreachable (db c) = None
  ∧ r = List.find (λ u, bool_decide (user_email u = email)) (users (db c)).
Proof.
  unfold Users.User_findOne, mbind, Js_bind, connected, read_store.
  destruct (unreachable (db c)); [done|]. by intros [= <-].
Qed.

Lemma register_rejected body fresh c :
  Users.validate isEmail body ≠ [] →
  register body fresh c
  = Normal () (reply 400 (Json_errors (Users.validate isEmail body)) c).
Proof.
  intros Hne. unfold Users.register, Users.register_req. cbv zeta.
  fold (Users.validate isEmail body).
  by rewrite bool_decide_false by done.
Qed.

Lemma register_valid body fresh :
  Users.validate isEmail body = [] →
  register body fresh
  = register_user (default "" (body !! "name")) (default "" (body !! "email"))
      (default "" (body !! "password")) fresh.
Proof.
  intros Hvalid. unfold Users.register, Users.register_req. cbv zeta.
  fold (Users.validate isEmail body). rewrite Hvalid.
  by rewrite bool_decide_true.
Qed.

Lemma register_user_existing name email password fresh c registered :
  Users.User_findOne email c = Normal (Some registered) c →
  register_user name email password fresh c
  = Normal ()
      (reply 400
         (Json_errors [{| param := None; msg := "User already exists" |}]) c).
Proof.
  intros Hfound. unfold Users.register_user. js_unfold.
  by js_rewrite Hfound.
Qed.

(** The run of the handler for an e-mail address that is not registered. *)
Lemma register_user_run name email password fresh c :
  Users.User_findOne email c = Normal None c →
  let user :=
    {| user_id := Users.new_id fresh; user_name := name;
       user_email := email; user_avatar := gravatar_url email;
       user_password := bcrypt_hash password (Users.new_salt fresh);
       user_date := Users.now fresh |} in
  let c' :=
    set_db (λ s, set_users (users s ++ [user]) s)
      (logged (Log_string (user_password user)) c) in
  let failed message :=
    Normal () (reply 500 (Text "Server Error") (logged (Log_string message) c')) in
  register_user name email password fresh c
  = match config_get "jwtSecret" with
    | None => failed "Configuration property jwtSecret is not defined"
    | Some secret =>
        match jwt_sign (Users.new_id fresh) secret 360000 with
        | inl err =>
            if Js.truthy (Some secret) then Throw err c'
            else failed (message err)
        | inr token => Normal () (reply 200 (Json_token token) c')
        end
    end.
Proof.
  intros Hnone user c' failed. subst failed c' user.
  unfold Users.register_user. js_unfold. js_rewrite Hnone.
  apply User_findOne_connected in Hnone as [Hup _].
  unfold Users.User_save_new, connected, config, Users.jwt_sign_callback,
    Users.signed, write_store.
  js_unfold. simpl. rewrite Hup. simpl.
  destruct (config_get "jwtSecret") as [secret|]; simpl; [|done].
  destruct (jwt_sign (Users.new_id fresh) secret 360000) as [err|token];
    [|done].
  by destruct (negb (String.eqb secret "")).
Qed.

(** The new user is stored whether or not a token can be signed for it. *)
Lemma register_user_stored name email password fresh c :
  Users.User_findOne email c = Normal None c →
  users (store_of (register_user name email password fresh c))
  = users (db c)
    ++ [{| user_id := Users.new_id fresh; user_name := name;
           user_email := email; user_avatar := gravatar_url email;
           user_password := bcrypt_hash password (Users.new_salt fresh);
           user_date := Users.now fresh |}].
Proof.
  intros Hnone. rewrite (register_user_run _ _ _ _ _ Hnone).
  destruct (config_get "jwtSecret") as [secret|]; [|done].
  destruct (jwt_sign (Users.new_id fresh) secret 360000); [|done].
  by destruct (Js.truthy (Some secret)).
Qed.

Lemma register_user_new name email password fresh c secret token :
  Users.User_findOne email c = Normal None c →
  config_get "jwtSecret" = Some secret →
  jwt_sign (Users.new_id fresh) secret 360000 = inr token →
  register_user name email password fresh c
  = Normal ()
      (reply 200 (Json_token token)
         (set_db
            (λ s, set_users
                    (users s
                     ++ [{| user_id := Users.new_id fresh; user_name := name;
                            user_email := email;
                            user_avatar := gravatar_url email;
                            user_password :=
                              bcrypt_hash password (Users.new_salt fresh);
                            user_date := Users.now fresh |}]) s)
            (logged (Log_string (bcrypt_hash password (Users.new_salt fresh)))
               c))).
Proof.
  intros Hnone Hsecret Htoken. rewrite (register_user_run _ _ _ _ _ Hnone).
  by rewrite Hsecret, Htoken.
Qed.

(** A registration with a registered e-mail address leaves the store alone,
    valid or not. *)
Lemma register_existing_store body fresh c registered :
  Users.User_findOne (default "" (body !! "email")) c
  = Normal (Some registered) c →
  store_of (register body fresh c) = db c.
Proof.
  intros Hfound.
  destruct (decide (Users.validate isEmail body = [])) as [Hvalid|Hne].
  - rewrite (register_valid _ _ Hvalid).
    by rewrite (register_user_existing _ _ _ _ _ _ Hfound).
  - by rewrite (register_rejected _ _ _ Hne).
Qed.

Lemma find_app_new email (us : list User) u :
  List.find (λ u, bool_decide (user_email u = email)) us = None →
  user_email u = email →
  List.find (λ u, bool_decide (user_email u = email)) (us ++ [u]) = Some u.
Proof.
  intros Hnone Hu. induction us as [|x us IH]; simpl in *.
  - by rewrite bool_decide_true.
  - destruct (bool_decide (user_email x = email)); [done|]. by apply IH.
Qed.

(** C6.  The registration handler, which runs once the input has passed the
    validators: when the e-mail address is registered already it answers 400
    "User already exists" and leaves store and console as they are, so that
    no user is built, hashed or stored.  When the address is new it stores
    the user with the hashed password and, the secret being configured and
    the signing succeeding, answers with the signed token; a second
    registration with that address, whatever its name and password, is then
    answered 400 and the store keeps the one user.  And no request with a
    registered address, valid or not, changes the store. *)
Theorem register_once name email password fresh c :
  let user :=
    {| user_id := Users.new_id fresh; user_name := name;
       user_email := email; user_avatar := gravatar_url email;
       user_password := bcrypt_hash password (Users.new_salt fresh);
       user_date := Users.now fresh |} in
  let exists_already :=
    Json_errors [{| param := None; msg := "User already exists" |}] in
  (∀ registered,
     Users.User_findOne email c = Normal (Some registered) c →
     register_user name email password fresh c
     = Normal () (reply 400 exists_already c))
  ∧ (Users.User_findOne email c = Normal None c →
     users (store_of (register_user name email password fresh c))
     = users (db c) ++ [user]
     ∧ ∀ secret token,
         config_get "jwtSecret" = Some secret →
         jwt_sign (Users.new_id fresh) secret 360000 = inr token →
         register_user name email password fresh c
         = Normal ()
             (reply 200 (Json_token token)
                (set_db (λ s, set_users (users s ++ [user]) s)
                   (logged (Log_string (user_password user)) c)))
         ∧ ∀ name' password' fresh',
             let s := store_of (register_user name email password fresh c) in
             register_user name' email password' fresh' (request s)
             = Normal () (reply 400 exists_already (request s))
             ∧ users (serve (register_user name' email password' fresh') s)
               = users (db c) ++ [user])
  ∧ (∀ body registered,
       Users.User_findOne (default "" (body !! "email")) c
       = Normal (Some registered) c →
       store_of (register body fresh c) = db c)
  ∧ (∀ body,
       Users.validate isEmail body = [] →
       register body fresh
       = register_user (default "" (body !! "name"))
           (default "" (body !! "email")) (default "" (body !! "password"))
           fresh).
Proof.
  intros user exists_already.
  split; [intros registered; apply register_user_existing|].
  split; [|split; [intros body registered; apply register_existing_store
                  |intros body; apply register_valid]].
  intros Hnone. split; [by apply register_user_stored|].
  intros secret token Hsecret Htoken.
  pose proof (register_user_new name _ password fresh _ _ _
                Hnone Hsecret Htoken) as Hrun.
  split; [exact Hrun|]. intros name' password' fresh' s.
  apply User_findOne_connected in Hnone as [Hup Hfind].
  assert (Users.User_findOne email (request s) = Normal (Some user) (request s))
    as Hfound.
  { unfold Users.User_findOne, mbind, Js_bind, connected, read_store.
    subst s. rewrite Hrun. unfold store_of, request. simpl. rewrite Hup.
    cbn [users db set_users].
    by rewrite (find_app_new email _ user). }
  assert (register_user name' email password' fresh' (request s)
          = Normal () (reply 400 exists_already (request s))) as Hsecond
    by (by apply register_user_existing with user).
  split; [exact Hsecond|].
  unfold serve. rewrite Hsecond. subst s. by rewrite Hrun.
Qed.
End register.

Lemma register_once_witness :
  let body : gmap string string :=
    {[ "name" := "A"; "email" := "a@x.com"; "password" := "secret1" ]} in
  let fresh :=
    {| Users.new_id := "a1a1a1a1a1a1a1a1a1a1a1a1"; Users.new_salt := "salt";
       Users.now := 1 |} in
  let register :=
    Users.register (λ _, Some "secret") (λ e, bool_decide (e = "a@x.com"))
      (λ e, "//www.gravatar.com/avatar/" +:+ e)
      (λ password salt, "hash:" +:+ salt +:+ ":" +:+ password)
      (λ id secret expiresIn, inr ("token:" +:+ id)) in
  response_of (register body fresh (request store2))
  = Some {| status := 200;
            body := Json_token "token:a1a1a1a1a1a1a1a1a1a1a1a1" |}
  ∧ response_of
      (register body fresh
         (request (store_of (register body fresh (request store2)))))
    = Some {| status := 400;
              body := Json_errors [{| param := None;
                                      msg := "User already exists" |}] |}
  ∧ length (users (serve (register body fresh)
                     (store_of (register body fresh (request store2)))))
    = 1%nat.
Proof.
  cbv zeta.
  destruct (register_once (λ _, Some "secret")
              (λ e, bool_decide (e = "a@x.com"))
              (λ e, "//www.gravatar.com/avatar/" +:+ e)
              (λ password salt, "hash:" +:+ salt +:+ ":" +:+ password)
              (λ id secret expiresIn, inr ("token:" +:+ id))
              "A" "a@x.com" "secret1"
              {| Users.new_id := "a1a1a1a1a1a1a1a1a1a1a1a1";
                 Users.new_salt := "salt"; Users.now := 1 |}
              (request store2))
    as (_ & Hnew & _ & Hvalid).
  destruct Hnew as [_ Hsigned]; [vm_compute; reflexivity|].
  destruct (Hsigned "secret" "token:a1a1a1a1a1a1a1a1a1a1a1a1")
    as [Hfirst Hsecond]; [vm_compute; reflexivity..|].
  destruct (Hsecond "A" "secret1"
              {| Users.new_id := "a1a1a1a1a1a1a1a1a1a1a1a1";
                 Users.new_salt := "salt"; Users.now := 1 |})
    as [H400 Husers].
  rewrite (Hvalid {[ "name" := "A"; "email" := "a@x.com";
                     "password" := "secret1" ]})
    by (vm_compute; reflexivity).
  replace (default "" (({[ "name" := "A"; "email" := "a@x.com";
                           "password" := "secret1" ]} : gmap string string)
                         !! "name")) with "A" by (vm_compute; reflexivity).
  replace (default "" (({[ "name" := "A"; "email" := "a@x.com";
                           "password" := "secret1" ]} : gmap string string)
                         !! "email")) with "a@x.com"
    by (vm_compute; reflexivity).
  replace (default "" (({[ "name" := "A"; "email" := "a@x.com";
                           "password" := "secret1" ]} : gmap string string)
                         !! "password")) with "secret1"
    by (vm_compute; reflexivity).
  split; [by rewrite Hfirst|].
  split; [by rewrite H400|]. by rewrite Husers.
Defined.

(** * Further properties *)

(** ** Posts: what an unlike removes *)

Section unlike_head.
Variable cast : string → option string.

Lemma unlike_liked id uid c oid post :
  Posts.Post_findById cast id c = Normal (Some (oid, post)) c →
  uid ∈ like_user <$> likes post →
  Posts.unlike cast id uid c
  = Normal ()
      (reply 200 (Json_likes (tail (likes post)))
         (set_db (λ s, set_posts (<[oid := set_likes (tail (likes post)) post]>
                                    (posts s)) s) c)).
Proof.
  intros Hfound Hin.
  destruct (likes post) as [|l1 [|l2 rest]] eqn:Hlikes.
  - by apply elem_of_nil in Hin.
  - apply list_elem_of_fmap in Hin as (l & -> & Hl).
    apply list_elem_of_singleton in Hl as ->. destruct l1 as [u].
    by apply unlike_only_like.
  - rewrite <- Hlikes in Hin. by eapply unlike_several_likes.
Qed.

Lemma set_likes_id post : set_likes (likes post) post = post.
Proof. by destruct post. Qed.

Lemma set_comments_id post : set_comments (comments post) post = post.
Proof. by destruct post. Qed.

Lemma set_posts_id s : set_posts (posts s) s = s.
Proof. by destruct s. Qed.

Lemma like_unlike_restores id uid s oid post :
  Posts.Post_findById cast id (request s) = Normal (Some (oid, post)) (request s) →
  uid ∉ like_user <$> likes post →
  serve_all [Posts.like cast id uid; Posts.unlike cast id uid] s = s.
Proof.
  intros Hfound Hnot. simpl. unfold serve at 2.
  rewrite (like_not_yet_liked _ _ _ _ _ _ Hfound Hnot).
  apply Post_findById_found in Hfound as (_ & Hup & Hcast & Hpost).
  simpl in Hup, Hpost. unfold store_of, serve. simpl.
  set (post' := set_likes ({| like_user := uid |} :: likes post) post).
  set (s' := set_posts (<[oid := post']> (posts s)) s).
  assert (Posts.Post_findById cast id (request s')
          = Normal (Some (oid, post')) (request s')) as Hfound'.
  { apply Post_findById_intro; [done..|]. simpl. apply lookup_insert_eq. }
  rewrite (unlike_liked _ _ _ _ _ Hfound') by (simpl; left).
  unfold store_of, s'. simpl. rewrite insert_insert_eq.
  change (set_likes (likes post) post') with (set_likes (likes post) post).
  rewrite set_likes_id, insert_id by done.
  transitivity (set_posts (posts s) s); [reflexivity|apply set_posts_id].
Qed.
End unlike_head.

(** X1.  Whenever the requester has a like on the post, an unlike request
    removes the first entry of the likes list, the most recent like, whoever
    gave it, saves the post and answers with the remaining likes. *)
Theorem unlike_removes_head (cast : string → option string) id uid c oid post :
  Posts.Post_findById cast id c = Normal (Some (oid, post)) c →
  uid ∈ like_user <$> likes post →
  Posts.unlike cast id uid c
  = Normal ()
      (reply 200 (Json_likes (tail (likes post)))
         (set_db (λ s, set_posts (<[oid := set_likes (tail (likes post)) post]>
                                    (posts s)) s) c)).
Proof. apply unlike_liked. Qed.

Lemma unlike_removes_head_witness :
  let c := request (store1 [ {| like_user := bob |}; {| like_user := alice |};
                             {| like_user := "cccccccccccccccccccccccc" |} ] [])
  in
  response_of (Posts.unlike hex24_cast p1 alice c)
  = Some {| status := 200;
            body := Json_likes [ {| like_user := alice |};
                                 {| like_user := "cccccccccccccccccccccccc" |} ] |}.
Proof.
  cbv zeta.
  rewrite (unlike_removes_head hex24_cast p1 alice
             (request (store1 [ {| like_user := bob |}; {| like_user := alice |};
                                {| like_user := "cccccccccccccccccccccccc" |} ]
                         []))
             p1
             (post1 [ {| like_user := bob |}; {| like_user := alice |};
                      {| like_user := "cccccccccccccccccccccccc" |} ] [])
             eq_refl).
  - reflexivity.
  - apply (bool_decide_unpack _). vm_compute. exact I.
Defined.

(** X2.  A like followed at once by an unlike of the same user leaves the
    store exactly as it was: the like just given is the first of the list,
    which is the one the unlike removes. *)
Theorem like_then_unlike_restores (cast : string → option string) id uid s
    oid post :
  Posts.Post_findById cast id (request s) = Normal (Some (oid, post)) (request s) →
  uid ∉ like_user <$> likes post →
  serve_all [Posts.like cast id uid; Posts.unlike cast id uid] s = s.
Proof. apply like_unlike_restores. Qed.

Lemma like_then_unlike_restores_witness :
  serve_all [Posts.like hex24_cast p1 alice; Posts.unlike hex24_cast p1 alice]
    (store1 [ {| like_user := bob |} ] [])
  = store1 [ {| like_user := bob |} ] [].
Proof.
  apply (like_then_unlike_restores hex24_cast p1 alice
           (store1 [ {| like_user := bob |} ] []) p1
           (post1 [ {| like_user := bob |} ] []) eq_refl).
  apply (bool_decide_unpack _). vm_compute. exact I.
Defined.

(** ** Posts: adding a comment *)

Section add_comment.
Variable cast : string → option string.

Lemma User_findById_context uid c r :
  Comments.User_findById uid c = r → final r = c.
Proof.
  unfold Comments.User_findById. intros <-.
  unfold mbind, Js_bind, connected. by destruct (unreachable (db c)).
Qed.

Lemma User_findById_cases uid c :
  (∃ e, Comments.User_findById uid c = Throw e c)
  ∨ ∃ user, Comments.User_findById uid c = Normal user c.
Proof.
  pose proof (User_findById_context uid c _ eq_refl) as Hc.
  destruct (Comments.User_findById uid c) as [user c'|e c'];
    simpl in Hc; subst c'; eauto.
Qed.

Lemma add_comment_req_invalid id uid req fresh_id c :
  let errors := Profile.check_notEmpty_req req "text" "Text is required" in
  errors ≠ [] →
  Comments.add_comment_req cast id uid req fresh_id c
  = Normal () (reply 400 (Json_errors errors) c).
Proof.
  intros errors Hne. unfold Comments.add_comment_req. fold errors.
  by rewrite bool_decide_false.
Qed.

Lemma add_comment_req_valid id uid req fresh_id c :
  Profile.check_notEmpty_req req "text" "Text is required" = [] →
  Comments.add_comment_req cast id uid req fresh_id c
  = try_catch
      (user ← Comments.User_findById uid;
       found ← Posts.Post_findById cast id;
       user ← property_of "name" user;
       let newComment :=
         {| comment_id := fresh_id; comment_user := uid;
            comment_text := default "" (Validator.req_body req !! "text");
            comment_name := user_name user;
            comment_avatar := user_avatar user |} in
       '(oid, post) ← property_of "comments" found;
       let post := set_comments (newComment :: comments post) post in
       Posts.Post_save oid post;;
       res_json (Json_comments (comments post)))
      server_error c.
Proof.
  intros Hvalid. unfold Comments.add_comment_req.
  rewrite Hvalid. by rewrite bool_decide_true.
Qed.

Lemma add_comment_req_run id uid req fresh_id c user oid post :
  Profile.check_notEmpty_req req "text" "Text is required" = [] →
  Comments.User_findById uid c = Normal (Some user) c →
  Posts.Post_findById cast id c = Normal (Some (oid, post)) c →
  let newComment :=
    {| comment_id := fresh_id; comment_user := uid;
       comment_text := default "" (Validator.req_body req !! "text");
       comment_name := user_name user; comment_avatar := user_avatar user |} in
  Comments.add_comment_req cast id uid req fresh_id c
  = Normal ()
      (reply 200 (Json_comments (newComment :: comments post))
         (set_db
            (λ s, set_posts
                    (<[oid := set_comments (newComment :: comments post) post]>
                       (posts s)) s) c)).
Proof.
  intros Hvalid Huser Hpost newComment.
  rewrite (add_comment_req_valid _ _ _ _ _ Hvalid). js_unfold.
  js_rewrite Huser. js_rewrite Hpost.
  apply Post_findById_found in Hpost as (_ & Hup & _ & _).
  by rewrite (Post_save_connected _ _ _ Hup).
Qed.

(** Without the user or without the post the request ends in the [catch]
    block. *)
Lemma add_comment_req_missing id uid req fresh_id c :
  Profile.check_notEmpty_req req "text" "Text is required" = [] →
  Comments.User_findById uid c = Normal None c
  ∨ Posts.Post_findById cast id c = Normal None c →
  response_of (Comments.add_comment_req cast id uid req fresh_id c)
  = Some {| status := 500; body := Text "Server Error" |}
  ∧ store_of (Comments.add_comment_req cast id uid req fresh_id c) = db c.
Proof.
  intros Hvalid Hmissing.
  rewrite (add_comment_req_valid _ _ _ _ _ Hvalid). js_unfold.
  destruct (User_findById_cases uid c) as [[e Hu]|[user Hu]];
    js_rewrite Hu; [done|].
  destruct (Post_findById_cases cast id c) as [[e H]|[H|(oid & post & H)]];
    js_rewrite H; [done| |].
  - by destruct user.
  - destruct Hmissing as [Hm|Hm]; [|congruence].
    rewrite Hm in Hu. by injection Hu as <-.
Qed.

Lemma add_comment_errors body :
  Profile.check_notEmpty_req (Validator.only_body body) "text"
    "Text is required"
  = if Js.truthy (body !! "text") then []
    else [{| param := Some "text"; msg := "Text is required" |}].
Proof. apply check_notEmpty_body. Qed.

Lemma add_comment_invalid id uid body fresh_id c :
  Js.truthy (body !! "text") = false →
  Comments.add_comment cast id uid body fresh_id c
  = Normal ()
      (reply 400
         (Json_errors [{| param := Some "text"; msg := "Text is required" |}])
         c).
Proof.
  intros Htext. unfold Comments.add_comment.
  rewrite add_comment_req_invalid; by rewrite add_comment_errors, Htext.
Qed.

Lemma add_comment_valid id uid body fresh_id c :
  Js.truthy (body !! "text") = true →
  Comments.add_comment cast id uid body fresh_id c
  = try_catch
      (user ← Comments.User_findById uid;
       found ← Posts.Post_findById cast id;
       user ← property_of "name" user;
       let newComment :=
         {| comment_id := fresh_id; comment_user := uid;
            comment_text := default "" (body !! "text");
            comment_name := user_name user;
            comment_avatar := user_avatar user |} in
       '(oid, post) ← property_of "comments" found;
       let post := set_comments (newComment :: comments post) post in
       Posts.Post_save oid post;;
       res_json (Json_comments (comments post)))
      server_error c.
Proof.
  intros Htext. unfold Comments.add_comment.
  rewrite add_comment_req_valid; [done|].
  by rewrite add_comment_errors, Htext.
Qed.

Lemma add_comment_run id uid body fresh_id c user oid post :
  Js.truthy (body !! "text") = true →
  Comments.User_findById uid c = Normal (Some user) c →
  Posts.Post_findById cast id c = Normal (Some (oid, post)) c →
  let newComment :=
    {| comment_id := fresh_id; comment_user := uid;
       comment_text := default "" (body !! "text");
       comment_name := user_name user; comment_avatar := user_avatar user |} in
  Comments.add_comment cast id uid body fresh_id c
  = Normal ()
      (reply 200 (Json_comments (newComment :: comments post))
         (set_db
            (λ s, set_posts
                    (<[oid := set_comments (newComment :: comments post) post]>
                       (posts s)) s) c)).
Proof.
  intros Htext Huser Hpost newComment. unfold Comments.add_comment.
  rewrite (add_comment_req_run _ _ _ _ _ user oid post); [done| |done..].
  by rewrite add_comment_errors, Htext.
Qed.

Lemma add_comment_missing id uid body fresh_id c :
  Js.truthy (body !! "text") = true →
  Comments.User_findById uid c = Normal None c
  ∨ Posts.Post_findById cast id c = Normal None c →
  response_of (Comments.add_comment cast id uid body fresh_id c)
  = Some {| status := 500; body := Text "Server Error" |}
  ∧ store_of (Comments.add_comment cast id uid body fresh_id c) = db c.
Proof.
  intros Htext Hmissing. unfold Comments.add_comment.
  apply add_comment_req_missing; [|done].
  by rewrite add_comment_errors, Htext.
Qed.

Lemma comment_round_trip id uid body fresh_id s user oid post :
  Js.truthy (body !! "text") = true →
  Comments.User_findById uid (request s) = Normal (Some user) (request s) →
  Posts.Post_findById cast id (request s) = Normal (Some (oid, post)) (request s) →
  serve_all [Comments.add_comment cast id uid body fresh_id;
             Posts.delete_comment cast id fresh_id uid] s
  = s.
Proof.
  intros Htext Huser Hfound. simpl. unfold serve at 2.
  rewrite (add_comment_run _ _ _ _ _ _ _ _ Htext Huser Hfound).
  apply Post_findById_found in Hfound as (_ & Hup & Hcast & Hpost).
  simpl in Hup, Hpost. unfold store_of, serve. simpl.
  set (new := {| comment_id := fresh_id; comment_user := uid;
                 comment_text := default "" (body !! "text");
                 comment_name := user_name user;
                 comment_avatar := user_avatar user |}).
  set (post' := set_comments (new :: comments post) post).
  set (s' := set_posts (<[oid := post']> (posts s)) s).
  assert (Posts.Post_findById cast id (request s')
          = Normal (Some (oid, post')) (request s')) as Hfound'.
  { apply Post_findById_intro; [done..|]. simpl. apply lookup_insert_eq. }
  assert (Posts.find_comment fresh_id (comments post') = Some new) as Hnew.
  { unfold Posts.find_comment. simpl. by rewrite bool_decide_true. }
  destruct (delete_comment_author cast id fresh_id uid (request s') oid post'
              new Hfound' Hnew eq_refl) as (i & first & Hfind & ->).
  assert (i = 0%nat) as ->.
  { simpl in Hfind. rewrite decide_True in Hfind by done. by injection Hfind. }
  unfold store_of, s'. simpl. rewrite insert_insert_eq.
  change (set_comments (comments post) post')
    with (set_comments (comments post) post).
  rewrite set_comments_id, insert_id by done.
  transitivity (set_posts (posts s) s); [reflexivity|apply set_posts_id].
Qed.
End add_comment.

(** X3.  A comment request.  The text is looked for in the body, the
    cookies, the headers, the route parameters and the query of the
    request: the request is valid when the text is somewhere and is empty
    nowhere, and is answered 400 with the errors otherwise.  A valid request
    with the text in its body prepends, while the requesting user and the
    post exist, a comment that carries the requester's identifier, that
    text and the name and avatar the user has at that moment, saves the post
    and answers with the comments.  A valid request whose user or post does
    not exist is answered 500.  Only the first of these changes the
    store. *)
Theorem add_comment_spec (cast : string → option string) id uid req fresh_id
    c :
  let errors := Profile.check_notEmpty_req req "text" "Text is required" in
  let add := Comments.add_comment_req cast id uid req fresh_id in
  (errors ≠ [] → add c = Normal () (reply 400 (Json_errors errors) c))
  ∧ (errors = [] →
     (∀ user oid post text,
        Comments.User_findById uid c = Normal (Some user) c →
        Posts.Post_findById cast id c = Normal (Some (oid, post)) c →
        Validator.req_body req !! "text" = Some text →
        let newComment :=
          {| comment_id := fresh_id; comment_user := uid;
             comment_text := text;
             comment_name := user_name user;
             comment_avatar := user_avatar user |} in
        add c
        = Normal ()
            (reply 200 (Json_comments (newComment :: comments post))
               (set_db
                  (λ s, set_posts
                          (<[oid := set_comments (newComment :: comments post)
                                      post]> (posts s)) s) c)))
     ∧ (Comments.User_findById uid c = Normal None c
        ∨ Posts.Post_findById cast id c = Normal None c →
        response_of (add c)
        = Some {| status := 500; body := Text "Server Error" |}
        ∧ store_of (add c) = db c))
  ∧ (errors = []
     ↔ Validator.values req "text" ≠ []
       ∧ Forall (λ v, v ≠ "") (Validator.values req "text"))
  ∧ (length errors ≤ 5)%nat
  ∧ (∀ f,
       Validator.values req f
       = omap (λ value, value) [Validator.req_body req !! f; Validator.req_cookies req !! f;
                  Validator.req_headers req !! f;
                  Validator.req_params req !! f;
                  Validator.req_query req !! f])
  ∧ (∀ body : gmap string string,
       (Profile.check_notEmpty body "text" "Text is required" = []
        ↔ Js.truthy (body !! "text") = true)
       ∧ Comments.add_comment cast id uid body fresh_id
         = Comments.add_comment_req cast id uid (Validator.only_body body)
             fresh_id).
Proof.
  intros errors add. subst add.
  split; [apply add_comment_req_invalid|]. split.
  { intros Hvalid. split.
    - intros user oid post text Hu Hp Htext.
      rewrite (add_comment_req_run cast _ _ _ _ _ user oid post Hvalid Hu Hp).
      by rewrite Htext.
    - by apply add_comment_req_missing. }
  split; [apply check_notEmpty_req_nil|]. split.
  { subst errors. unfold Profile.check_notEmpty_req.
    pose proof (check_length Validator.notEmpty req "text" "Text is required").
    pose proof (selected_length req "text"). lia. }
  split; [done|]. intros body. split; [apply check_notEmpty_nil|done].
Qed.

Lemma add_comment_spec_witness :
  let c := request (store3 [] [comment1]) in
  let req body query :=
    {| Validator.req_body := body; Validator.req_cookies := ∅;
       Validator.req_headers := ∅; Validator.req_params := ∅;
       Validator.req_query := query |} in
  response_of (Comments.add_comment_req hex24_cast p1 alice
                 (req {[ "text" := "hi" ]} ∅) "c9c9c9c9c9c9c9c9c9c9c9c9" c)
  = Some {| status := 200;
            body := Json_comments
                      [ {| comment_id := "c9c9c9c9c9c9c9c9c9c9c9c9";
                           comment_user := alice; comment_text := "hi";
                           comment_name := "Alice";
                           comment_avatar := "a.png" |};
                        comment1 ] |}
  ∧ response_of (Comments.add_comment_req hex24_cast p1 bob
                   (req {[ "text" := "hi" ]} ∅) "c9c9c9c9c9c9c9c9c9c9c9c9" c)
    = Some {| status := 500; body := Text "Server Error" |}
  ∧ status <$> response_of (Comments.add_comment_req hex24_cast p1 alice
                              (req ∅ ∅) "c9c9c9c9c9c9c9c9c9c9c9c9" c)
    = Some 400
  ∧ status <$> response_of (Comments.add_comment_req hex24_cast p1 alice
                              (req {[ "text" := "hi" ]} {[ "text" := "" ]})
                              "c9c9c9c9c9c9c9c9c9c9c9c9" c)
    = Some 400.
Proof.
  intros c req.
  assert (Profile.check_notEmpty_req (req {[ "text" := "hi" ]} ∅) "text"
            "Text is required" = []) as Hvalid by (vm_compute; reflexivity).
  assert (Profile.check_notEmpty_req (req ∅ ∅) "text" "Text is required" ≠ [])
    as Hnone by (vm_compute; discriminate).
  assert (Profile.check_notEmpty_req
            (req {[ "text" := "hi" ]} {[ "text" := "" ]}) "text"
            "Text is required" ≠ []) as Hquery by (vm_compute; discriminate).
  assert (Comments.User_findById alice c = Normal (Some user_alice) c) as Hu
    by (vm_compute; reflexivity).
  assert (Posts.Post_findById hex24_cast p1 c
          = Normal (Some (p1, post1 [] [comment1])) c) as Hp
    by (vm_compute; reflexivity).
  assert (Comments.User_findById bob c = Normal None c) as Hbob
    by (vm_compute; reflexivity).
  split; [|split; [|split]].
  - rewrite (proj1 (proj1 (proj2 (add_comment_spec hex24_cast p1 alice
                                    (req {[ "text" := "hi" ]} ∅)
                                    "c9c9c9c9c9c9c9c9c9c9c9c9" c)) Hvalid)
               user_alice p1 (post1 [] [comment1]) "hi" Hu Hp
               ltac:(vm_compute; reflexivity)).
    reflexivity.
  - apply (proj2 (proj1 (proj2 (add_comment_spec hex24_cast p1 bob
                                  (req {[ "text" := "hi" ]} ∅)
                                  "c9c9c9c9c9c9c9c9c9c9c9c9" c)) Hvalid)).
    by left.
  - by rewrite (proj1 (add_comment_spec hex24_cast p1 alice (req ∅ ∅)
                         "c9c9c9c9c9c9c9c9c9c9c9c9" c) Hnone).
  - by rewrite (proj1 (add_comment_spec hex24_cast p1 alice
                         (req {[ "text" := "hi" ]} {[ "text" := "" ]})
                         "c9c9c9c9c9c9c9c9c9c9c9c9" c) Hquery).
Defined.

(** X4.  Deleting the comment one has just added restores the store: the
    new comment is the first of the list, so it is both the comment found by
    its identifier and the first comment of the requester. *)
Theorem add_then_delete_comment (cast : string → option string) id uid body
    fresh_id s user oid post :
  Js.truthy (body !! "text") = true →
  Comments.User_findById uid (request s) = Normal (Some user) (request s) →
  Posts.Post_findById cast id (request s) = Normal (Some (oid, post)) (request s) →
  serve_all [Comments.add_comment cast id uid body fresh_id;
             Posts.delete_comment cast id fresh_id uid] s
  = s.
Proof. apply comment_round_trip. Qed.

Lemma add_then_delete_comment_witness :
  serve_all [Comments.add_comment hex24_cast p1 alice {[ "text" := "hi" ]}
               "c9c9c9c9c9c9c9c9c9c9c9c9";
             Posts.delete_comment hex24_cast p1 "c9c9c9c9c9c9c9c9c9c9c9c9" alice]
    (store3 [] [comment2; comment1])
  = store3 [] [comment2; comment1].
Proof.
  apply (add_then_delete_comment hex24_cast p1 alice {[ "text" := "hi" ]}
           "c9c9c9c9c9c9c9c9c9c9c9c9" (store3 [] [comment2; comment1])
           user_alice p1 (post1 [] [comment2; comment1]));
    vm_compute; reflexivity.
Defined.

(** ** Posts: what the router keeps *)

Section posts_invariant.
Variable cast : string → option string.

Lemma like_count_tail uid post :
  (like_count uid (set_likes (tail (likes post)) post)
   ≤ like_count uid post)%nat.
Proof.
  unfold like_count, Posts.likes_of. simpl.
  destruct (likes post) as [|l rest]; [done|]. simpl.
  rewrite filter_cons. destruct (decide (like_user l = uid)); simpl; lia.
Qed.

Lemma same_heading_likes l post : same_heading post (set_likes l post).
Proof. by repeat split. Qed.

Lemma same_heading_comments l post : same_heading post (set_comments l post).
Proof. by repeat split. Qed.

(** One request: the store stays, or one post goes, or one post is replaced
    by a version with the same heading and, for every user, no more like
    entries than before or than one. *)
Lemma posts_step r c :
  store_of (Comments.handle cast r c) = db c
  ∨ (∃ oid post,
       posts (db c) !! oid = Some post
       ∧ store_of (Comments.handle cast r c)
         = set_posts (delete oid (posts (db c))) (db c))
  ∨ (∃ oid post post',
       posts (db c) !! oid = Some post
       ∧ store_of (Comments.handle cast r c)
         = set_posts (<[oid := post']> (posts (db c))) (db c)
       ∧ same_heading post post'
       ∧ ∀ uid, (like_count uid post'
                 ≤ Nat.max 1 (like_count uid post))%nat).
Proof.
  destruct r as [id uid|id uid|id uid body fresh_id|id cid uid|id uid]; simpl.
  - destruct (like_store cast id uid c) as [->|(oid & post & Hp & H0 & ->)];
      [by left|].
    right. right. eexists oid, post, _. split; [done|]. split; [done|].
    split; [apply same_heading_likes|]. intros uid'.
    rewrite like_count_cons. destruct (decide (uid = uid')) as [<-|]; lia.
  - destruct (Post_findById_cases cast id c) as [[e H]|[H|(oid & post & H)]].
    + left. unfold Posts.unlike. js_unfold. by js_rewrite H.
    + left. unfold Posts.unlike. js_unfold. by js_rewrite H.
    + destruct (decide (uid ∈ like_user <$> likes post)) as [Hin|Hnot].
      * right. right. eexists oid, post, _.
        rewrite (unlike_liked _ _ _ _ _ _ H Hin).
        apply Post_findById_found in H as (_ & _ & _ & Hpost).
        split; [done|]. split; [done|].
        split; [apply same_heading_likes|]. intros uid'.
        pose proof (like_count_tail uid' post). lia.
      * left. by rewrite (unlike_never_liked _ _ _ _ _ _ H Hnot).
  - destruct (Js.truthy (body !! "text")) eqn:Htext;
      [|left; by rewrite add_comment_invalid].
    rewrite (add_comment_valid _ _ _ _ _ _ Htext). js_unfold.
    destruct (User_findById_cases uid c) as [[e Hu]|[user Hu]];
      js_rewrite Hu; [by left|].
    destruct (Post_findById_cases cast id c) as [[e H]|[H|(oid & post & H)]];
      js_rewrite H; [by left|left; by destruct user|].
    destruct user as [user|]; [|by left]. cbv beta iota.
    apply Post_findById_found in H as (_ & Hup & _ & Hpost).
    rewrite (Post_save_connected _ _ _ Hup).
    right. right. eexists oid, post, _. split; [done|]. split; [done|].
    split; [apply same_heading_comments|]. intros uid'.
    unfold like_count. simpl. lia.
  - destruct (Post_findById_cases cast id c) as [[e H]|[H|(oid & post & H)]].
    + left. unfold Posts.delete_comment. js_unfold. by js_rewrite H.
    + left. unfold Posts.delete_comment. js_unfold. by js_rewrite H.
    + destruct (Posts.find_comment cid (comments post)) as [cm|] eqn:Hcm.
      * destruct (decide (comment_user cm = uid)) as [Hu|Hu].
        -- destruct (delete_comment_author cast _ _ _ _ _ _ _ H Hcm Hu)
             as (i & first & _ & ->).
           apply Post_findById_found in H as (_ & _ & _ & Hpost).
           right. right. eexists oid, post, _. split; [done|].
           split; [done|]. split; [apply same_heading_comments|].
           intros uid'. unfold like_count. simpl. lia.
        -- left. by rewrite (delete_comment_not_author _ _ _ _ _ _ _ _ H Hcm Hu).
      * left. apply find_comment_None in Hcm.
        by rewrite (delete_comment_unknown _ _ _ _ _ _ _ H Hcm).
  - destruct (Posts.matches_hex24 id) eqn:Hhex;
      [|left; by rewrite delete_post_malformed].
    destruct (Post_findById_cases cast id c) as [[e H]|[H|(oid & post & H)]].
    + left. unfold Posts.delete_post. js_unfold.
      rewrite Hhex. cbn [negb]. js_rewrite H.
      by destruct (bool_decide (kind e = Some "ObjectId")).
    + left. by rewrite (delete_post_missing _ _ _ _ H).
    + destruct (decide (post_user post = uid)) as [Hu|Hu].
      * right. left. exists oid, post.
        rewrite (delete_post_author _ _ _ _ _ _ Hhex H Hu).
        by apply Post_findById_found in H as (_ & _ & _ & Hpost).
      * left. by rewrite (delete_post_not_author _ _ _ _ _ _ Hhex H Hu).
Qed.

Lemma posts_step_invariant r uid s :
  at_most_one_like uid s →
  at_most_one_like uid (serve (Comments.handle cast r) s).
Proof.
  intros Hinv. unfold serve.
  destruct (posts_step r (request s))
    as [->|[(oid & post & Hp & ->)|(oid & post & post' & Hp & -> & _ & Hc)]];
    [done| |]; unfold at_most_one_like in *; simpl in *.
  - by apply map_Forall_delete.
  - apply map_Forall_insert_2; [|done].
    specialize (Hinv _ _ Hp). simpl in Hinv. specialize (Hc uid). lia.
Qed.

Lemma posts_step_frame r s :
  let s' := serve (Comments.handle cast r) s in
  users s' = users s ∧ profiles s' = profiles s
  ∧ unreachable s' = unreachable s
  ∧ ∀ oid post', posts s' !! oid = Some post' →
      ∃ post, posts s !! oid = Some post ∧ same_heading post post'.
Proof.
  intros s'. subst s'. unfold serve.
  destruct (posts_step r (request s))
    as [->|[(oid & post & Hp & ->)|(oid & post & post' & Hp & -> & Hh & _)]];
    simpl in *.
  - repeat split; try done. intros oid post' H. exists post'.
    split; [done|]. by repeat split.
  - repeat split; try done. intros oid' post' H.
    apply lookup_delete_Some in H as [_ H]. exists post'.
    split; [done|]. by repeat split.
  - repeat split; try done. intros oid' post'' H.
    apply lookup_insert_Some in H as [[<- <-]|[_ H]]; [by exists post|].
    exists post''. split; [done|]. by repeat split.
Qed.
End posts_invariant.

Lemma same_heading_trans p1' p2' p3' :
  same_heading p1' p2' → same_heading p2' p3' → same_heading p1' p3'.
Proof.
  intros (?&?&?&?&?) (?&?&?&?&?). repeat split; congruence.
Qed.

(** X5.  No sequence of requests to the posts router (like, unlike, add or
    delete a comment, delete a post) makes a post hold more than one like
    entry of a user: a store in which no post does stays such a store. *)
Theorem posts_router_keeps_one_like (cast : string → option string)
    (requests : list Comments.Request) uid s :
  at_most_one_like uid s →
  at_most_one_like uid (serve_all (map (Comments.handle cast) requests) s).
Proof.
  revert s. induction requests as [|r requests IH]; intros s Hinv; [done|].
  simpl. apply IH. by apply posts_step_invariant.
Qed.

Lemma posts_router_keeps_one_like_witness :
  at_most_one_like alice
    (serve_all
       (map (Comments.handle hex24_cast)
          [Comments.Like p1 alice; Comments.Like p1 bob;
           Comments.Unlike p1 alice; Comments.Like p1 alice;
           Comments.AddComment p1 alice {[ "text" := "hi" ]}
             "c9c9c9c9c9c9c9c9c9c9c9c9";
           Comments.Like p1 alice])
       (store3 [] [])).
Proof.
  apply (posts_router_keeps_one_like hex24_cast).
  apply (bool_decide_unpack _). vm_compute. exact I.
Defined.

(** X6.  The requests of the posts router that change a post never touch
    the users or the profiles, never add a post, and never change the
    author, the text, the name and avatar snapshot or the date of a post:
    whatever the sequence of requests, every post of the store afterwards
    was there before with the same heading. *)
Theorem posts_router_frame (cast : string → option string)
    (requests : list Comments.Request) s :
  let s' := serve_all (map (Comments.handle cast) requests) s in
  users s' = users s ∧ profiles s' = profiles s
  ∧ ∀ oid post', posts s' !! oid = Some post' →
      ∃ post, posts s !! oid = Some post ∧ same_heading post post'.
Proof.
  revert s. induction requests as [|r requests IH]; intros s; simpl.
  - repeat split; try done. intros oid post' H. exists post'.
    split; [done|]. by repeat split.
  - destruct (posts_step_frame cast r s) as (Hu & Hp & _ & Hposts).
    destruct (IH (serve (Comments.handle cast r) s)) as (Hu' & Hp' & Hposts').
    split; [congruence|]. split; [congruence|].
    intros oid post'' H.
    destruct (Hposts' _ _ H) as (post' & H' & Hh').
    destruct (Hposts _ _ H') as (post & H0 & Hh).
    exists post. split; [done|]. by eapply same_heading_trans.
Qed.

(** ** Posts: after the deletion *)

Section after_delete.
Variable cast : string → option string.

Lemma null_post_answers id uid c :
  Posts.Post_findById cast id c = Normal None c →
  let answer := Some {| status := 500; body := Text "Server Error" |} in
  response_of (Posts.like cast id uid c) = answer
  ∧ response_of (Posts.unlike cast id uid c) = answer
  ∧ (∀ cid, response_of (Posts.delete_comment cast id cid uid c) = answer)
  ∧ ∀ body fresh_id,
      Js.truthy (body !! "text") = true →
      response_of (Comments.add_comment cast id uid body fresh_id c) = answer.
Proof.
  intros Hnull answer. repeat split.
  - unfold Posts.like. js_unfold. by js_rewrite Hnull.
  - unfold Posts.unlike. js_unfold. by js_rewrite Hnull.
  - intros cid. unfold Posts.delete_comment. js_unfold. by js_rewrite Hnull.
  - intros body fresh_id Htext.
    rewrite (add_comment_valid _ _ _ _ _ _ Htext). js_unfold.
    destruct (User_findById_cases uid c) as [[e Hu]|[user Hu]];
      js_rewrite Hu; [done|].
    js_rewrite Hnull. by destruct user.
Qed.

Lemma deleted_post_is_gone id uid s oid post :
  Posts.matches_hex24 id = true →
  Posts.Post_findById cast id (request s) = Normal (Some (oid, post)) (request s) →
  post_user post = uid →
  let s' := serve (Posts.delete_post cast id uid) s in
  posts s' = delete oid (posts s)
  ∧ Posts.Post_findById cast id (request s') = Normal None (request s').
Proof.
  intros Hhex H Hu s'. subst s'. unfold serve.
  rewrite (delete_post_author _ _ _ _ _ _ Hhex H Hu).
  apply Post_findById_found in H as (_ & Hup & Hcast & Hpost).
  simpl in Hup, Hpost. split; [done|].
  unfold Posts.Post_findById. rewrite Hcast.
  unfold mbind, Js_bind, connected, read_store, store_of. simpl.
  rewrite Hup. simpl. by rewrite lookup_delete_eq.
Qed.
End after_delete.

(** X7.  Once its author has deleted a post the identifier leads nowhere: a
    second delete request is answered 404 and changes nothing, while like,
    unlike and comment requests for that identifier are answered 500. *)
Theorem delete_post_is_final (cast : string → option string) id uid s oid
    post :
  Posts.matches_hex24 id = true →
  Posts.Post_findById cast id (request s) = Normal (Some (oid, post)) (request s) →
  post_user post = uid →
  let s' := serve (Posts.delete_post cast id uid) s in
  let server_error := Some {| status := 500; body := Text "Server Error" |} in
  posts s' !! oid = None
  ∧ (∀ uid', Posts.delete_post cast id uid' (request s')
             = Normal () (reply 404 (Json_msg "Post not found") (request s')))
  ∧ (∀ uid', response_of (Posts.like cast id uid' (request s')) = server_error
             ∧ response_of (Posts.unlike cast id uid' (request s'))
               = server_error
             ∧ ∀ cid, response_of (Posts.delete_comment cast id cid uid'
                                     (request s')) = server_error).
Proof.
  intros Hhex H Hu s' server_error.
  destruct (deleted_post_is_gone cast _ _ _ _ _ Hhex H Hu) as [Hposts Hnull].
  fold s' in Hposts, Hnull. split; [|split].
  - rewrite Hposts. apply lookup_delete_eq.
  - intros uid'. by apply delete_post_missing.
  - intros uid'.
    destruct (null_post_answers cast id uid' _ Hnull) as (Hl & Hun & Hd & _).
    done.
Qed.

Lemma delete_post_is_final_witness :
  let s' := serve (Posts.delete_post hex24_cast p1 alice) (store3 [] []) in
  posts s' !! p1 = None
  ∧ Posts.delete_post hex24_cast p1 alice (request s')
    = Normal () (reply 404 (Json_msg "Post not found") (request s'))
  ∧ response_of (Posts.like hex24_cast p1 bob (request s'))
    = Some {| status := 500; body := Text "Server Error" |}.
Proof.
  cbv zeta.
  destruct (delete_post_is_final hex24_cast p1 alice (store3 [] []) p1
              (post1 [] []) eq_refl eq_refl eq_refl) as (Hgone & H404 & H500).
  split; [exact Hgone|]. split; [apply H404|]. apply (H500 bob).
Defined.

(** ** Profiles: experience and education entries *)

Lemma list_find_replaced {A} (P : A → Prop) `{∀ x, Decision (P x)}
    (l : list A) i d d' :
  list_find P l = Some (i, d) → P d' →
  list_find P (<[i := d']> l) = Some (i, d').
Proof.
  intros Hfind Hd'. apply list_find_Some in Hfind as (Hi & _ & Hmin).
  apply list_find_insert_Some. right. left.
  split; [done|]. split; [done|].
  split; [by eapply lookup_lt_Some|]. split; [done|]. exact Hmin.
Qed.

Lemma owned_by_insert uid field v (d : Doc) :
  field ≠ "user" → Profile.owned_by uid d →
  Profile.owned_by uid (<[field := v]> d).
Proof.
  intros Hne Hd. unfold Profile.owned_by. by rewrite lookup_insert_ne.
Qed.

Lemma set_profiles_id s : set_profiles (profiles s) s = s.
Proof. by destruct s. Qed.

Lemma subdocs_insert field l (d : Doc) :
  Profile.subdocs field (<[field := VSubdocs l]> d) = l.
Proof. unfold Profile.subdocs. by rewrite lookup_insert_eq. Qed.

Lemma removal_run field uid sub_id c i profile :
  Profile.Profile_findOne uid c = Normal (Some (i, profile)) c →
  let entries := Profile.subdocs field profile in
  let entries' :=
    match list_find (λ e, subdoc_id e = sub_id) entries with
    | Some (j, _) => delete j entries
    | None => take (length entries - 1) entries
    end in
  let profile' := <[field := VSubdocs entries']> profile in
  Profile.delete_subdoc field uid sub_id c
  = Normal ()
      (reply 200 (Json_profile profile')
         (set_db (λ s, set_profiles (<[i := profile']> (profiles s)) s) c))
  ∧ length entries' = (length entries - 1)%nat.
Proof.
  intros Hfound entries entries' profile'.
  rewrite (delete_subdoc_run field uid sub_id c i profile Hfound). cbv zeta.
  subst profile' entries' entries.
  destruct (list_find _ (Profile.subdocs field profile))
    as [[j entry]|] eqn:E.
  - assert (sub_id ∈ subdoc_id <$> Profile.subdocs field profile) as Hin.
    { apply list_find_Some in E as (Hj & <- & _).
      apply list_elem_of_fmap. exists entry.
      split; [done|]. by eapply list_elem_of_lookup_2. }
    destruct (delete_subdoc_present field sub_id profile Hin)
      as (j' & entry' & E' & -> & ->).
    rewrite E in E'. injection E' as <- <-.
    split; [done|]. apply list_find_Some in E as (Hj & _ & _).
    by rewrite length_delete by eauto.
  - assert (sub_id ∉ subdoc_id <$> Profile.subdocs field profile) as Hnot.
    { intros Hin. apply list_elem_of_fmap in Hin as (e & He & Hin).
      apply list_find_None in E. rewrite Forall_forall in E.
      by apply (E e Hin). }
    destruct (delete_subdoc_absent field sub_id profile Hnot) as [-> ->].
    split; [done|]. rewrite length_take. lia.
Qed.

(** X8.  A removal request for an experience or education entry always
    shortens the list by one entry, unless the list is empty: it removes
    the first entry with the identifier when there is one and the last
    entry of the list otherwise; it saves the profile with every other field
    as it was and answers 200 with it. *)
Theorem removal_drops_one_entry field uid sub_id c i profile :
  Profile.Profile_findOne uid c = Normal (Some (i, profile)) c →
  let entries := Profile.subdocs field profile in
  let entries' :=
    match list_find (λ e, subdoc_id e = sub_id) entries with
    | Some (j, _) => delete j entries
    | None => take (length entries - 1) entries
    end in
  let profile' := <[field := VSubdocs entries']> profile in
  Profile.delete_subdoc field uid sub_id c
  = Normal ()
      (reply 200 (Json_profile profile')
         (set_db (λ s, set_profiles (<[i := profile']> (profiles s)) s) c))
  ∧ length entries' = (length entries - 1)%nat
  ∧ ∀ k, k ≠ field → profile' !! k = profile !! k.
Proof.
  intros Hfound entries entries' profile'.
  destruct (removal_run field uid sub_id c i profile Hfound) as [Hrun Hlen].
  split; [exact Hrun|]. split; [exact Hlen|].
  intros k Hk. subst profile'. by rewrite lookup_insert_ne.
Qed.

Lemma removal_drops_one_entry_witness :
  Profile.subdocs "experience"
    <$> profiles (store_of (Profile.delete_experience alice (subdoc_id exp1)
                              (request store2)))
  = [[exp2]]
  ∧ Profile.subdocs "education"
      <$> profiles (store_of (Profile.delete_education alice "unknown"
                                (request store2)))
    = [[]].
Proof.
  assert (Profile.Profile_findOne alice (request store2)
          = Normal (Some (0%nat, profile1)) (request store2)) as Hfound
    by (vm_compute; reflexivity).
  split.
  - unfold Profile.delete_experience.
    rewrite (proj1 (removal_drops_one_entry "experience" alice (subdoc_id exp1)
                      (request store2) 0%nat profile1 Hfound)).
    vm_compute. reflexivity.
  - unfold Profile.delete_education.
    rewrite (proj1 (removal_drops_one_entry "education" alice "unknown"
                      (request store2) 0%nat profile1 Hfound)).
    vm_compute. reflexivity.
Defined.

Section add_subdoc.
Variables (field : string) (checks : list (string * string))
  (keys : list string).

Lemma add_subdoc_req_invalid uid req fresh_id c :
  let errors :=
    flat_map (λ check, Profile.check_notEmpty_req req check.1 check.2) checks in
  errors ≠ [] →
  Profiles.add_subdoc_req field checks keys uid req fresh_id c
  = Normal () (reply 400 (Json_errors errors) c).
Proof.
  intros errors Hne. unfold Profiles.add_subdoc_req. fold errors.
  by rewrite bool_decide_false.
Qed.

Lemma add_subdoc_req_run uid req fresh_id c i profile :
  flat_map (λ check, Profile.check_notEmpty_req req check.1 check.2) checks
  = [] →
  Profile.Profile_findOne uid c = Normal (Some (i, profile)) c →
  let newEntry :=
    {| subdoc_id := fresh_id;
       subdoc_attrs := Profiles.pick keys (Validator.req_body req) |} in
  let profile' :=
    <[field := VSubdocs (newEntry :: Profile.subdocs field profile)]> profile in
  Profiles.add_subdoc_req field checks keys uid req fresh_id c
  = Normal ()
      (reply 200 (Json_profile profile')
         (set_db (λ s, set_profiles (<[i := profile']> (profiles s)) s) c)).
Proof.
  intros Hvalid Hfound newEntry profile'. unfold Profiles.add_subdoc_req.
  rewrite Hvalid, bool_decide_true by done. cbn [negb]. js_unfold.
  js_rewrite Hfound.
  apply Profile_findOne_found in Hfound as (_ & Hup & _).
  by rewrite (Profile_save_connected _ _ _ Hup).
Qed.

Lemma add_subdoc_req_no_profile uid req fresh_id c :
  flat_map (λ check, Profile.check_notEmpty_req req check.1 check.2) checks
  = [] →
  Profile.Profile_findOne uid c = Normal None c →
  response_of (Profiles.add_subdoc_req field checks keys uid req fresh_id c)
  = Some {| status := 500; body := Text "Server Error" |}
  ∧ store_of (Profiles.add_subdoc_req field checks keys uid req fresh_id c)
    = db c.
Proof.
  intros Hvalid Hnone. unfold Profiles.add_subdoc_req.
  rewrite Hvalid, bool_decide_true by done. cbn [negb]. js_unfold.
  by js_rewrite Hnone.
Qed.

Lemma add_subdoc_req_down uid req fresh_id c e :
  flat_map (λ check, Profile.check_notEmpty_req req check.1 check.2) checks
  = [] →
  Profile.Profile_findOne uid c = Throw e c →
  Profiles.add_subdoc_req field checks keys uid req fresh_id c
  = Normal ()
      (reply 500 (Text "Server Error") (logged (Log_string (message e)) c)).
Proof.
  intros Hvalid Hdown. unfold Profiles.add_subdoc_req.
  rewrite Hvalid, bool_decide_true by done. cbn [negb]. js_unfold.
  by js_rewrite Hdown.
Qed.

Lemma add_subdoc_invalid uid body fresh_id c :
  let errors :=
    flat_map (λ check, Profile.check_notEmpty body check.1 check.2) checks in
  errors ≠ [] →
  Profiles.add_subdoc field checks keys uid body fresh_id c
  = Normal () (reply 400 (Json_errors errors) c).
Proof. exact (add_subdoc_req_invalid uid (Validator.only_body body) fresh_id c). Qed.

Lemma add_subdoc_run uid body fresh_id c i profile :
  flat_map (λ check, Profile.check_notEmpty body check.1 check.2) checks = [] →
  Profile.Profile_findOne uid c = Normal (Some (i, profile)) c →
  let newEntry :=
    {| subdoc_id := fresh_id; subdoc_attrs := Profiles.pick keys body |} in
  let profile' :=
    <[field := VSubdocs (newEntry :: Profile.subdocs field profile)]> profile in
  Profiles.add_subdoc field checks keys uid body fresh_id c
  = Normal ()
      (reply 200 (Json_profile profile')
         (set_db (λ s, set_profiles (<[i := profile']> (profiles s)) s) c)).
Proof.
  exact (add_subdoc_req_run uid (Validator.only_body body) fresh_id c i profile).
Qed.

Lemma add_subdoc_no_profile uid body fresh_id c :
  flat_map (λ check, Profile.check_notEmpty body check.1 check.2) checks = [] →
  Profile.Profile_findOne uid c = Normal None c →
  response_of (Profiles.add_subdoc field checks keys uid body fresh_id c)
  = Some {| status := 500; body := Text "Server Error" |}
  ∧ store_of (Profiles.add_subdoc field checks keys uid body fresh_id c)
    = db c.
Proof.
  exact (add_subdoc_req_no_profile uid (Validator.only_body body) fresh_id c).
Qed.

Lemma add_then_remove uid body fresh_id s i profile :
  field ≠ "user" →
  flat_map (λ check, Profile.check_notEmpty body check.1 check.2) checks = [] →
  Profile.Profile_findOne uid (request s) = Normal (Some (i, profile)) (request s) →
  serve_all [Profiles.add_subdoc field checks keys uid body fresh_id;
             Profile.delete_subdoc field uid fresh_id] s
  = set_profiles
      (<[i := <[field := VSubdocs (Profile.subdocs field profile)]> profile]>
         (profiles s)) s.
Proof.
  intros Hfield Hvalid Hfound. simpl. unfold serve at 2.
  rewrite (add_subdoc_run _ _ _ _ _ _ Hvalid Hfound).
  apply Profile_findOne_found in Hfound as (_ & Hup & Hfind).
  simpl in Hup, Hfind. unfold store_of, serve. simpl.
  set (new := {| subdoc_id := fresh_id;
                 subdoc_attrs := Profiles.pick keys body |}).
  set (profile' := <[field := VSubdocs (new :: Profile.subdocs field profile)]>
                     profile).
  set (s' := set_profiles (<[i := profile']> (profiles s)) s).
  assert (Profile.Profile_findOne uid (request s')
          = Normal (Some (i, profile')) (request s')) as Hfound'.
  { apply Profile_findOne_intro; [done|]. simpl.
    apply list_find_replaced with profile; [done|].
    apply owned_by_insert; [done|].
    by apply list_find_Some in Hfind as (_ & ? & _). }
  rewrite (delete_subdoc_run field uid fresh_id _ _ _ Hfound'). cbv zeta.
  assert (Profile.subdocs field profile'
          = new :: Profile.subdocs field profile) as Hsub
    by apply subdocs_insert.
  rewrite !Hsub.
  assert (Js.Array_indexOf (map subdoc_id (new :: Profile.subdocs field profile))
            fresh_id = 0) as ->.
  { unfold Js.Array_indexOf. simpl. by rewrite decide_True. }
  rewrite splice_head. unfold store_of, s', profile'. simpl.
  rewrite list_insert_insert_eq, insert_insert_eq. by destruct s.
Qed.
End add_subdoc.

Lemma lookup_pick keys (body : gmap string string) k :
  Profiles.pick keys body !! k = if decide (k ∈ keys) then body !! k else None.
Proof.
  unfold Profiles.pick. destruct (decide (k ∈ keys)) as [Hk|Hk].
  - destruct (body !! k) as [v|] eqn:Hv.
    + by apply map_lookup_filter_Some.
    + apply map_lookup_filter_None. left. done.
  - apply map_lookup_filter_None. right. intros v _. done.
Qed.

(** X9.  Adding an experience or education entry.  Each required field
    (title, company and from; school, degree, fieldofstudy and from) is
    looked for in the body, the cookies, the headers, the route parameters
    and the query of the request: the request is valid when every required
    field is somewhere and is empty nowhere, and is answered 400 with the
    field errors otherwise.  A valid request of a user with a profile
    prepends an entry that holds exactly the named fields the body holds,
    saves the profile and answers with it; without a profile the request is
    answered 500, as it is when the store fails.  Only the valid request of
    a user with a profile changes the store. *)
Theorem add_entry_spec field checks keys uid req fresh_id c :
  let errors :=
    flat_map (λ check, Profile.check_notEmpty_req req check.1 check.2) checks in
  let add := Profiles.add_subdoc_req field checks keys uid req fresh_id in
  let body := Validator.req_body req in
  (errors ≠ [] → add c = Normal () (reply 400 (Json_errors errors) c))
  ∧ (errors = [] →
     (∀ i profile,
        Profile.Profile_findOne uid c = Normal (Some (i, profile)) c →
        let newEntry :=
          {| subdoc_id := fresh_id;
             subdoc_attrs := Profiles.pick keys body |} in
        let profile' :=
          <[field := VSubdocs (newEntry :: Profile.subdocs field profile)]>
            profile in
        add c
        = Normal ()
            (reply 200 (Json_profile profile')
               (set_db (λ s, set_profiles (<[i := profile']> (profiles s)) s)
                  c)))
     ∧ (Profile.Profile_findOne uid c = Normal None c →
        response_of (add c)
        = Some {| status := 500; body := Text "Server Error" |}
        ∧ store_of (add c) = db c)
     ∧ (∀ e, Profile.Profile_findOne uid c = Throw e c →
        add c
        = Normal ()
            (reply 500 (Text "Server Error")
               (logged (Log_string (message e)) c))))
  ∧ (∀ k, Profiles.pick keys body !! k
          = if decide (k ∈ keys) then body !! k else None)
  ∧ (Profiles.add_experience_req uid req fresh_id
     = Profiles.add_subdoc_req "experience"
         [("title", "title is required"); ("company", "company is required");
          ("from", "from date is required")]
         ["title"; "company"; "location"; "from"; "to"; "current";
          "description"] uid req fresh_id
     ∧ Profiles.add_education_req uid req fresh_id
       = Profiles.add_subdoc_req "education"
           [("school", "school is required"); ("degree", "degree is required");
            ("fieldofstudy", "field of study is required");
            ("from", "from date is required")]
           ["school"; "degree"; "fieldofstudy"; "from"; "to"; "current";
            "description"] uid req fresh_id)
  ∧ (errors = []
     ↔ Forall (λ check, Validator.values req check.1 ≠ []
                        ∧ Forall (λ v, v ≠ "") (Validator.values req check.1))
         checks)
  ∧ (∀ f,
       Validator.values req f
       = omap id [Validator.req_body req !! f; Validator.req_cookies req !! f;
                  Validator.req_headers req !! f;
                  Validator.req_params req !! f;
                  Validator.req_query req !! f])
  ∧ (∀ body' : gmap string string,
       (flat_map (λ check, Profile.check_notEmpty body' check.1 check.2) checks
        = []
        ↔ Forall (λ check, Js.truthy (body' !! check.1) = true) checks)
       ∧ Profiles.add_subdoc field checks keys uid body' fresh_id
         = Profiles.add_subdoc_req field checks keys uid
             (Validator.only_body body') fresh_id).
Proof.
  intros errors add body. subst add body.
  split; [apply add_subdoc_req_invalid|].
  split.
  { intros Hvalid. split; [|split].
    - intros i profile Hfound. by apply add_subdoc_req_run.
    - by apply add_subdoc_req_no_profile.
    - intros e Hdown. by apply add_subdoc_req_down. }
  split; [apply lookup_pick|]. split; [done|]. split.
  { subst errors. induction checks as [|[f m] rest IH]; simpl.
    - split; [by constructor|done].
    - rewrite Forall_cons. simpl. rewrite <- IH, <- check_notEmpty_req_nil.
      split.
      + by intros [? ?]%app_eq_nil.
      + by intros [-> ->]. }
  split; [done|]. intros body'. split; [|done].
  induction checks as [|[f m] rest IH]; simpl.
  - split; [by constructor|done].
  - rewrite Forall_cons. simpl. rewrite <- IH, <- check_notEmpty_nil.
    split.
    + by intros [? ?]%app_eq_nil.
    + by intros [-> ->].
Qed.

Lemma add_entry_spec_witness :
  let body : gmap string string :=
    {[ "title" := "Dev"; "company" := "Acme"; "from" := "2020-01-01";
       "salary" := "secret" ]} in
  let req query :=
    {| Validator.req_body := body; Validator.req_cookies := ∅;
       Validator.req_headers := ∅; Validator.req_params := ∅;
       Validator.req_query := query |} in
  Profile.subdocs "experience"
    <$> profiles (store_of (Profiles.add_experience_req alice (req ∅)
                              "e9e9e9e9e9e9e9e9e9e9e9e9" (request store2)))
  = [[ {| subdoc_id := "e9e9e9e9e9e9e9e9e9e9e9e9";
          subdoc_attrs := {[ "title" := "Dev"; "company" := "Acme";
                             "from" := "2020-01-01" ]} |}; exp1; exp2 ]]
  ∧ response_of (Profiles.add_experience_req alice (req {[ "title" := "" ]})
                   "e9e9e9e9e9e9e9e9e9e9e9e9" (request store2))
    = Some {| status := 400;
              body := Json_errors [{| param := Some "title";
                                      msg := "title is required" |}] |}
  ∧ status <$> response_of (Profiles.add_education_req alice (req ∅)
                              "e9e9e9e9e9e9e9e9e9e9e9e9" (request store2))
    = Some 400.
Proof.
  intros body req.
  assert (Profile.Profile_findOne alice (request store2)
          = Normal (Some (0%nat, profile1)) (request store2)) as Hfound
    by (vm_compute; reflexivity).
  pose (exp_checks := [("title", "title is required");
                       ("company", "company is required");
                       ("from", "from date is required")]).
  pose (edu_checks := [("school", "school is required");
                       ("degree", "degree is required");
                       ("fieldofstudy", "field of study is required");
                       ("from", "from date is required")]).
  assert (flat_map (λ check, Profile.check_notEmpty_req (req ∅) check.1 check.2)
            exp_checks = []) as Hvalid by (vm_compute; reflexivity).
  assert (flat_map
            (λ check, Profile.check_notEmpty_req (req {[ "title" := "" ]})
                        check.1 check.2) exp_checks
          = [{| param := Some "title"; msg := "title is required" |}])
    as Hquery by (vm_compute; reflexivity).
  assert (flat_map (λ check, Profile.check_notEmpty_req (req ∅) check.1 check.2)
            edu_checks ≠ []) as Hinvalid by (vm_compute; discriminate).
  subst exp_checks edu_checks.
  split; [|split].
  - unfold Profiles.add_experience_req.
    rewrite (proj1 (proj1 (proj2 (add_entry_spec "experience" _
               ["title"; "company"; "location"; "from"; "to"; "current";
                "description"] alice (req ∅)
               "e9e9e9e9e9e9e9e9e9e9e9e9" (request store2)))
               Hvalid) 0%nat profile1 Hfound).
    vm_compute. reflexivity.
  - unfold Profiles.add_experience_req.
    rewrite (proj1 (add_entry_spec "experience" _
               ["title"; "company"; "location"; "from"; "to"; "current";
                "description"] alice (req {[ "title" := "" ]})
               "e9e9e9e9e9e9e9e9e9e9e9e9" (request store2)));
      by rewrite Hquery.
  - unfold Profiles.add_education_req.
    rewrite (proj1 (add_entry_spec "education" _
               ["school"; "degree"; "fieldofstudy"; "from"; "to"; "current";
                "description"] alice (req ∅)
               "e9e9e9e9e9e9e9e9e9e9e9e9" (request store2)) Hinvalid).
    reflexivity.
Defined.

(** X10.  Removing the entry one has just added restores the list: the new
    entry is the first of the list, where the removal finds its identifier.
    Users and posts are untouched, the profiles are as before up to the list
    being written out in the document, and the store is exactly as before
    when the document held the list already. *)
Theorem add_then_remove_entry field checks keys uid body fresh_id s i profile :
  field ≠ "user" →
  flat_map (λ check, Profile.check_notEmpty body check.1 check.2) checks = [] →
  Profile.Profile_findOne uid (request s) = Normal (Some (i, profile)) (request s) →
  let s' :=
    serve_all [Profiles.add_subdoc field checks keys uid body fresh_id;
               Profile.delete_subdoc field uid fresh_id] s in
  s' = set_profiles
         (<[i := <[field := VSubdocs (Profile.subdocs field profile)]> profile]>
            (profiles s)) s
  ∧ ((∃ entries, profile !! field = Some (VSubdocs entries)) → s' = s).
Proof.
  intros Hfield Hvalid Hfound s'.
  pose proof (add_then_remove field checks keys uid body fresh_id s i profile
                Hfield Hvalid Hfound) as Hrun.
  fold s' in Hrun. split; [exact Hrun|].
  intros [entries Hentries]. rewrite Hrun.
  apply Profile_findOne_found in Hfound as (_ & _ & Hfind).
  apply list_find_Some in Hfind as (Hi & _ & _). simpl in Hi.
  assert (<[i := <[field := VSubdocs (Profile.subdocs field profile)]> profile]>
            (profiles s) = profiles s) as ->.
  { apply list_insert_id. rewrite Hi. f_equal. symmetry. apply insert_id.
    unfold Profile.subdocs. by rewrite Hentries. }
  apply set_profiles_id.
Qed.

Lemma add_then_remove_entry_witness :
  serve_all [Profiles.add_experience alice
               {[ "title" := "Dev"; "company" := "Acme";
                  "from" := "2020-01-01" ]} "e9e9e9e9e9e9e9e9e9e9e9e9";
             Profile.delete_experience alice "e9e9e9e9e9e9e9e9e9e9e9e9"] store2
  = store2.
Proof.
  assert (Profile.Profile_findOne alice (request store2)
          = Normal (Some (0%nat, profile1)) (request store2)) as Hfound
    by (vm_compute; reflexivity).
  pose (body := ({[ "title" := "Dev"; "company" := "Acme";
                    "from" := "2020-01-01" ]} : gmap string string)).
  pose (checks := [("title", "title is required");
                   ("company", "company is required");
                   ("from", "from date is required")]).
  assert (flat_map (λ check, Profile.check_notEmpty body check.1 check.2) checks
          = []) as Hvalid by (vm_compute; reflexivity).
  assert ("experience" ≠ "user") as Hfield by literals_differ.
  apply (proj2 (add_then_remove_entry "experience" checks
                  ["title"; "company"; "location"; "from"; "to"; "current";
                   "description"] alice body "e9e9e9e9e9e9e9e9e9e9e9e9"
                  store2 0%nat profile1 Hfield Hvalid Hfound)).
  exists [exp1; exp2]. vm_compute. reflexivity.
Defined.

(** ** Profiles: the profile of a user, and deleting the account *)

Lemma get_by_user_found cast user_id uid c i doc :
  cast user_id = Some uid →
  Profile.Profile_findOne uid c = Normal (Some (i, doc)) c →
  Profiles.get_by_user cast user_id c
  = Normal ()
      (reply 200 (Json_profile (Profile.populate_user (users (db c)) doc)) c).
Proof.
  intros Hcast Hfound.
  unfold Profiles.get_by_user, Profiles.Profile_findOne_param. rewrite Hcast.
  js_unfold. by js_rewrite Hfound.
Qed.

Lemma get_me_found uid c i doc :
  Profile.Profile_findOne uid c = Normal (Some (i, doc)) c →
  Profile.get_me uid c
  = Normal ()
      (reply 200 (Json_profile (Profile.populate_user (users (db c)) doc)) c).
Proof.
  intros Hfound. unfold Profile.get_me. js_unfold. by js_rewrite Hfound.
Qed.

Lemma get_me_no_profile uid c :
  Profile.Profile_findOne uid c = Normal None c →
  Profile.get_me uid c
  = Normal () (reply 400 (Json_msg "There is no profile for this user") c).
Proof.
  intros Hfound. unfold Profile.get_me. js_unfold. by js_rewrite Hfound.
Qed.

Lemma Profile_findOne_down uid c e :
  unreachable (db c) = Some e → Profile.Profile_findOne uid c = Throw e c.
Proof.
  intros Hdown. unfold Profile.Profile_findOne, mbind, Js_bind, connected.
  by rewrite Hdown.
Qed.

Lemma Profile_findOne_thrown uid c e :
  Profile.Profile_findOne uid c = Throw e c → unreachable (db c) = Some e.
Proof.
  unfold Profile.Profile_findOne, mbind, Js_bind, connected, read_store.
  destruct (unreachable (db c)); [|done]. by intros [= ->].
Qed.

(** The profile with its user filled in: the [user] field holds the
    identifier, the name and the avatar of the user, or [null] when the user
    is gone; the other fields are those of the profile. *)
Lemma populate_user_owned us uid (doc : Doc) :
  Profile.owned_by uid doc →
  Profile.populate_user us doc !! "user"
  = Some (match List.find (λ u, bool_decide (user_id u = uid)) us with
          | Some u => VObj {[ "_id" := user_id u; "name" := user_name u;
                              "avatar" := user_avatar u ]}
          | None => VNull
          end)
  ∧ ∀ k, k ≠ "user" → Profile.populate_user us doc !! k = doc !! k.
Proof.
  unfold Profile.owned_by, Profile.populate_user. intros ->.
  destruct (List.find _ us) as [u|].
  - split; [apply lookup_insert_eq|]. intros k Hk. by apply lookup_insert_ne.
  - split; [apply lookup_insert_eq|]. intros k Hk. by apply lookup_insert_ne.
Qed.

(** X11.  GET api/profile/user/:user_id answers every request and leaves
    the store alone: 400 "Profile Not Found" for an identifier that cannot
    be cast and for a user without a profile; when there is a profile, the
    profile with its [user] field replaced by the identifier, the name and
    the avatar of the user (by [null] when there is no such user) and every
    other field as stored, which is the answer that GET api/profile/me
    gives its owner; and 500 with the message logged when the store
    fails. *)
Theorem profile_by_user_spec (cast : string → option string) param c :
  let r := Profiles.get_by_user cast param c in
  (cast param = None →
   r = Normal () (reply 400 (Json_msg "Profile Not Found") c))
  ∧ (∀ uid, cast param = Some uid →
       (Profile.Profile_findOne uid c = Normal None c →
        r = Normal () (reply 400 (Json_msg "Profile Not Found") c))
       ∧ (∀ i doc, Profile.Profile_findOne uid c = Normal (Some (i, doc)) c →
            let profile := Profile.populate_user (users (db c)) doc in
            r = Normal () (reply 200 (Json_profile profile) c)
            ∧ r = Profile.get_me uid c
            ∧ profile !! "user"
              = Some (match List.find (λ u, bool_decide (user_id u = uid))
                              (users (db c)) with
                      | Some u =>
                          VObj {[ "_id" := user_id u; "name" := user_name u;
                                  "avatar" := user_avatar u ]}
                      | None => VNull
                      end)
            ∧ ∀ k, k ≠ "user" → profile !! k = doc !! k)
       ∧ (∀ e, unreachable (db c) = Some e → kind e ≠ Some "ObjectId" →
            r = Normal ()
                  (reply 500 (Text "Server Error")
                     (logged (Log_string (message e)) c))))
  ∧ store_of r = db c
  ∧ ∃ code b, response_of r = Some {| status := code; body := b |}
              ∧ (code = 200 ∨ code = 400 ∨ code = 500).
Proof.
  intros r. subst r.
  assert (cast param = None →
          Profiles.get_by_user cast param c
          = Normal () (reply 400 (Json_msg "Profile Not Found") c)) as Hmal.
  { intros Hcast.
    unfold Profiles.get_by_user, Profiles.Profile_findOne_param.
    rewrite Hcast. js_unfold. by rewrite bool_decide_true. }
  assert (∀ uid, cast param = Some uid →
          Profile.Profile_findOne uid c = Normal None c →
          Profiles.get_by_user cast param c
          = Normal () (reply 400 (Json_msg "Profile Not Found") c)) as Hnone.
  { intros uid Hcast Hfound.
    unfold Profiles.get_by_user, Profiles.Profile_findOne_param.
    rewrite Hcast. js_unfold. by js_rewrite Hfound. }
  assert (∀ uid e, cast param = Some uid →
          Profile.Profile_findOne uid c = Throw e c →
          Profiles.get_by_user cast param c
          = Normal ()
              (if bool_decide (kind e = Some "ObjectId")
               then reply 400 (Json_msg "Profile Not Found") c
               else reply 500 (Text "Server Error")
                      (logged (Log_string (message e)) c))) as Hthrown.
  { intros uid e Hcast Hfound.
    unfold Profiles.get_by_user, Profiles.Profile_findOne_param.
    rewrite Hcast. js_unfold. js_rewrite Hfound.
    by destruct (bool_decide (kind e = Some "ObjectId")). }
  split; [exact Hmal|]. split.
  { intros uid Hcast. split; [by apply Hnone|]. split.
    - intros i doc Hfound profile.
      rewrite (get_by_user_found _ _ _ _ _ _ Hcast Hfound).
      rewrite (get_me_found _ _ _ _ Hfound).
      split; [done|]. split; [done|]. apply populate_user_owned.
      apply Profile_findOne_found in Hfound as (_ & _ & Hfind).
      by apply list_find_Some in Hfind as (_ & Hown & _).
    - intros e Hdown Hkind.
      rewrite (Hthrown uid e Hcast (Profile_findOne_down _ _ _ Hdown)).
      by rewrite bool_decide_false. }
  destruct (cast param) as [uid|] eqn:Hcast.
  - destruct (Profile_findOne_cases uid c) as [[e H]|[H|(i & doc & H)]].
    + rewrite (Hthrown uid e eq_refl H).
      destruct (bool_decide (kind e = Some "ObjectId")); simpl; eauto 10.
    + rewrite (Hnone uid eq_refl H). simpl; eauto 10.
    + rewrite (get_by_user_found _ _ _ _ _ _ Hcast H). simpl; eauto 10.
  - rewrite (Hmal eq_refl). simpl; eauto 10.
Qed.

Lemma profile_by_user_spec_witness :
  let c := request (store3 [] []) in
  response_of (Profiles.get_by_user hex24_cast "not-an-id" c)
  = Some {| status := 400; body := Json_msg "Profile Not Found" |}
  ∧ Profiles.get_by_user hex24_cast alice c = Profile.get_me alice c
  ∧ Profile.populate_user (users (db c)) profile1 !! "user"
    = Some (VObj {[ "_id" := alice; "name" := "Alice"; "avatar" := "a.png" ]}).
Proof.
  intros c.
  assert (Profile.Profile_findOne alice c = Normal (Some (0%nat, profile1)) c)
    as Hfound by (vm_compute; reflexivity).
  split; [|split].
  - rewrite (proj1 (profile_by_user_spec hex24_cast "not-an-id" c) eq_refl).
    reflexivity.
  - apply (proj1 (proj2 (proj1 (proj2 (proj1 (proj2
             (profile_by_user_spec hex24_cast alice c)) alice eq_refl))
             0%nat profile1 Hfound))).
  - apply (proj1 (proj2 (proj2 (proj1 (proj2 (proj1 (proj2
             (profile_by_user_spec hex24_cast alice c)) alice eq_refl))
             0%nat profile1 Hfound)))).
Defined.

Lemma delete_account_connected uid c :
  unreachable (db c) = None →
  Profiles.delete_account uid c
  = Normal ()
      (reply 200 (Json_msg "User Deleted")
         (set_db
            (λ s, set_users
                    (Profiles.remove_first (λ u, user_id u = uid) (users s))
                    (set_profiles
                       (Profiles.remove_first (Profile.owned_by uid)
                          (profiles s)) s)) c)).
Proof.
  intros Hup.
  unfold Profiles.delete_account, Profiles.Profile_findOneAndRemove,
    Profiles.User_findOneAndRemove, connected, write_store.
  js_unfold. rewrite Hup. simpl. by rewrite Hup.
Qed.

Lemma delete_account_down uid c e :
  unreachable (db c) = Some e →
  Profiles.delete_account uid c
  = Normal ()
      (reply 500 (Text "Server Error") (logged (Log_string (message e)) c)).
Proof.
  intros Hdown.
  unfold Profiles.delete_account, Profiles.Profile_findOneAndRemove, connected.
  js_unfold. by rewrite Hdown.
Qed.

Section remove_first.
Context {A : Type} (P : A → Prop) `{∀ x, Decision (P x)}.

Lemma remove_first_absent (l : list A) :
  Forall (λ x, ¬ P x) l → Profiles.remove_first P l = l.
Proof.
  intros Hl. unfold Profiles.remove_first.
  destruct (list_find P l) as [[i x]|] eqn:Hfind; [|done].
  apply list_find_Some in Hfind as (Hi & Hx & _).
  rewrite Forall_lookup in Hl. by destruct (Hl i x Hi).
Qed.

Lemma remove_first_sublist (l : list A) : sublist (Profiles.remove_first P l) l.
Proof.
  unfold Profiles.remove_first.
  destruct (list_find P l) as [[i x]|]; [apply sublist_delete|done].
Qed.

Lemma remove_first_length (l : list A) :
  length (Profiles.remove_first P l)
  = if decide (Exists P l) then pred (length l) else length l.
Proof.
  unfold Profiles.remove_first.
  destruct (list_find P l) as [[i x]|] eqn:Hfind.
  - apply list_find_Some in Hfind as (Hi & Hx & _).
    rewrite decide_True by (apply Exists_exists; eauto using list_elem_of_lookup_2).
    rewrite length_delete by eauto. lia.
  - apply list_find_None in Hfind.
    rewrite decide_False; [done|]. intros Hex.
    apply Exists_exists in Hex as (x & Hx & HP).
    rewrite Forall_forall in Hfind. by apply (Hfind x).
Qed.
End remove_first.

(** Where no two entries have the same key, removing the first entry with a
    key leaves none with it. *)
Lemma remove_first_key {A} (key : A → option string) (k : string) (l : list A) :
  NoDup (omap key l) →
  Forall (λ x, key x ≠ Some k)
    (Profiles.remove_first (λ x, key x = Some k) l).
Proof.
  unfold Profiles.remove_first. intros Hnodup.
  destruct (list_find (λ x, key x = Some k) l) as [[i x]|] eqn:Hfind.
  - apply list_find_Some in Hfind as (Hi & Hx & Hbefore).
    rewrite <- (take_drop_middle l i x Hi) in Hnodup.
    rewrite omap_app in Hnodup. simpl in Hnodup. rewrite Hx in Hnodup.
    apply NoDup_app in Hnodup as (_ & _ & Hafter).
    apply NoDup_cons in Hafter as [Hafter _].
    rewrite delete_take_drop. apply Forall_app. split.
    + apply Forall_lookup. intros j y Hj.
      apply lookup_take_Some in Hj as [Hj Hji]. by apply (Hbefore j y).
    + apply Forall_forall. intros y Hy Hkey. apply Hafter.
      apply list_elem_of_omap. eauto.
  - by apply list_find_None in Hfind.
Qed.

Lemma remove_first_unique {A} (P : A → Prop) `{∀ x, Decision (P x)}
    (key : A → option string) (k : string) (l : list A) :
  (∀ x, P x ↔ key x = Some k) →
  NoDup (omap key l) →
  Forall (λ x, ¬ P x) (Profiles.remove_first P l).
Proof.
  intros HP Hnodup.
  assert (Profiles.remove_first P l
          = Profiles.remove_first (λ x, key x = Some k) l) as ->.
  { unfold Profiles.remove_first.
    by rewrite (list_find_ext P (λ x, key x = Some k)) by done. }
  eapply Forall_impl; [by apply remove_first_key|].
  intros x Hx HPx. by apply Hx, HP.
Qed.

Lemma owned_by_owner uid (d : Doc) : Profile.owned_by uid d ↔ owner d = Some uid.
Proof.
  unfold Profile.owned_by, owner.
  destruct (d !! "user") as [[| | | |]|]; naive_solver.
Qed.

Lemma Profile_findOne_absent uid c :
  unreachable (db c) = None →
  Forall (λ d, ¬ Profile.owned_by uid d) (profiles (db c)) →
  Profile.Profile_findOne uid c = Normal None c.
Proof.
  intros Hup Habsent.
  unfold Profile.Profile_findOne, mbind, Js_bind, connected, read_store.
  rewrite Hup. f_equal. by apply list_find_None.
Qed.

(** X12.  DELETE api/profile removes the first profile of the user and the
    first user with the identifier, answers "User Deleted" whether or not
    there was anything to remove, and leaves every post in place, those of
    the user too.  On a store that holds one profile per user no profile of
    the user is left, so that GET api/profile/me then answers 400; on a
    store that fails the answer is 500 and nothing is removed. *)
Theorem delete_account_spec uid c :
  let r := Profiles.delete_account uid c in
  (unreachable (db c) = None →
   response_of r = Some {| status := 200; body := Json_msg "User Deleted" |}
   ∧ posts (store_of r) = posts (db c)
   ∧ profiles (store_of r)
     = Profiles.remove_first (Profile.owned_by uid) (profiles (db c))
   ∧ users (store_of r)
     = Profiles.remove_first (λ u, user_id u = uid) (users (db c))
   ∧ length (profiles (store_of r))
     = (if decide (Exists (Profile.owned_by uid) (profiles (db c)))
        then pred (length (profiles (db c))) else length (profiles (db c)))
   ∧ length (users (store_of r))
     = (if decide (Exists (λ u, user_id u = uid) (users (db c)))
        then pred (length (users (db c))) else length (users (db c)))
   ∧ (one_profile_per_user (db c) →
      Forall (λ d, ¬ Profile.owned_by uid d) (profiles (store_of r))
      ∧ response_of (Profile.get_me uid (request (store_of r)))
        = Some {| status := 400;
                  body := Json_msg "There is no profile for this user" |})
   ∧ (NoDup (user_id <$> users (db c)) →
      Forall (λ u, user_id u ≠ uid) (users (store_of r))))
  ∧ (∀ e, unreachable (db c) = Some e →
       r = Normal ()
             (reply 500 (Text "Server Error")
                (logged (Log_string (message e)) c))).
Proof.
  intros r. subst r. split; [|apply delete_account_down].
  intros Hup. rewrite (delete_account_connected _ _ Hup).
  unfold response_of, store_of. simpl.
  split; [done|]. split; [done|]. split; [done|]. split; [done|].
  split; [apply remove_first_length|]. split; [apply remove_first_length|].
  split.
  - intros Hone.
    assert (Forall (λ d, ¬ Profile.owned_by uid d)
              (Profiles.remove_first (Profile.owned_by uid) (profiles (db c))))
      as Hgone.
    { apply remove_first_unique with owner uid; [apply owned_by_owner|done]. }
    split; [done|].
    rewrite get_me_no_profile; [done|].
    by apply Profile_findOne_absent.
  - intros Hnodup.
    apply remove_first_unique with (λ u, Some (user_id u)) uid.
    + intros u. naive_solver.
    + by rewrite <- list_fmap_alt.
Qed.

Lemma delete_account_spec_witness :
  profiles (store_of (Profiles.delete_account alice (request store2))) = []
  ∧ response_of
      (Profile.get_me alice
         (request (store_of (Profiles.delete_account alice (request store2)))))
    = Some {| status := 400;
              body := Json_msg "There is no profile for this user" |}.
Proof.
  pose proof (proj1 (delete_account_spec alice (request store2)) eq_refl)
    as (_ & _ & Hprofiles & _ & _ & _ & Hone & _).
  split.
  - rewrite Hprofiles. vm_compute. reflexivity.
  - apply Hone. unfold one_profile_per_user. vm_compute.
    apply NoDup_singleton.
Defined.

(** ** Profiles: one profile per user *)

Lemma Profile_findOne_none uid c :
  Profile.Profile_findOne uid c = Normal None c →
  unreachable (db c) = None
  ∧ Forall (λ d, ¬ Profile.owned_by uid d) (profiles (db c)).
Proof.
  unfold Profile.Profile_findOne, mbind, Js_bind, connected, read_store.
  destruct (unreachable (db c)); [done|]. intros [= Hfind].
  split; [done|]. by apply list_find_None in Hfind.
Qed.

Lemma upsert_profile_new uid body oid c :
  Profile.Profile_findOne uid c = Normal None c →
  let profile := Profile.new_Profile oid (Profile.profileFields uid body) in
  Profile.upsert_profile uid body oid c
  = Normal ()
      (reply 200 (Json_profile profile)
         (set_db (λ s, set_profiles (profiles s ++ [profile]) s) c)).
Proof.
  intros Hnone profile. unfold Profile.upsert_profile. js_unfold.
  js_rewrite Hnone. apply Profile_findOne_none in Hnone as [Hup _].
  unfold Profile.Profile_save_new, connected, write_store. js_unfold.
  by rewrite Hup.
Qed.

Lemma upsert_profile_down uid body oid c e :
  Profile.Profile_findOne uid c = Throw e c →
  Profile.upsert_profile uid body oid c
  = Normal ()
      (reply 500 (Text "Server Error") (logged (Log_string (message e)) c)).
Proof.
  intros Hdown. unfold Profile.upsert_profile. js_unfold. by js_rewrite Hdown.
Qed.

Lemma owner_new_Profile uid body oid :
  owner (Profile.new_Profile oid (Profile.profileFields uid body)) = Some uid.
Proof.
  apply owned_by_owner. unfold Profile.owned_by, Profile.new_Profile.
  rewrite lookup_insert_ne by literals_differ.
  apply lookup_union_Some_l, profileFields_user.
Qed.

Lemma owner_insert field v (d : Doc) :
  field ≠ "user" → owner (<[field := v]> d) = owner d.
Proof. intros Hne. unfold owner. by rewrite lookup_insert_ne. Qed.

Lemma omap_owner_insert (l : list Doc) i d d' :
  l !! i = Some d → owner d' = owner d →
  omap owner (<[i := d']> l) = omap owner l.
Proof.
  revert i. induction l as [|d0 l IH]; intros [|i] Hi Hown; try done.
  - injection Hi as ->. cbn. by rewrite Hown.
  - cbn. cbn in Hi. specialize (IH i Hi Hown).
    destruct (owner d0); [f_equal|]; exact IH.
Qed.

Lemma sublist_omap {A B} (f : A → option B) (l l' : list A) :
  sublist l' l → sublist (omap f l') (omap f l).
Proof.
  induction 1 as [|x l1 l2 _ IH|x l1 l2 _ IH]; simpl.
  - constructor.
  - destruct (f x); [by constructor|done].
  - destruct (f x); [by constructor|done].
Qed.

Lemma profiles_change_invariant (l l' : list Doc) :
  profiles_change l l' → NoDup (omap owner l) → NoDup (omap owner l').
Proof.
  intros [->|[(i & d & d' & Hi & Hown & ->)|[(d & uid & Hown & Hnone & ->)|Hsub]]]
    Hnodup.
  - done.
  - by rewrite (omap_owner_insert _ _ _ _ Hi Hown).
  - rewrite omap_app. simpl. rewrite Hown.
    apply NoDup_app. split; [done|]. split; [|apply NoDup_singleton].
    intros uid' Hin ->%list_elem_of_singleton.
    apply list_elem_of_omap in Hin as (d0 & Hd0 & Hown0).
    rewrite Forall_forall in Hnone.
    by apply (Hnone d0 Hd0), owned_by_owner.
  - eapply sublist_NoDup; [done|]. by apply sublist_omap.
Qed.

Section subdoc_steps.
Variable field : string.
Hypothesis not_user : field ≠ "user".

Lemma add_subdoc_step checks keys uid body fresh_id c :
  let s' := store_of (Profiles.add_subdoc field checks keys uid body fresh_id c) in
  profiles_change (profiles (db c)) (profiles s')
  ∧ users s' = users (db c) ∧ posts s' = posts (db c)
  ∧ unreachable s' = unreachable (db c).
Proof.
  intros s'. subst s'.
  destruct (decide (flat_map (λ check, Profile.check_notEmpty body check.1 check.2)
                      checks = [])) as [Hvalid|Hinvalid].
  - destruct (Profile_findOne_cases uid c) as [[e H]|[H|(i & doc & H)]].
    + unfold Profiles.add_subdoc.
      rewrite (add_subdoc_req_down field checks keys uid _ fresh_id c e
                 Hvalid H).
      split; [by left|done].
    + destruct (add_subdoc_no_profile field checks keys uid body fresh_id c
                  Hvalid H) as [_ ->].
      split; [by left|done].
    + rewrite (add_subdoc_run field checks keys uid body fresh_id c i doc
                 Hvalid H).
      apply Profile_findOne_found in H as (_ & _ & Hfind).
      apply list_find_Some in Hfind as (Hi & _ & _).
      unfold store_of. simpl. split; [|done].
      right. left. eexists i, doc, _. split; [done|]. split; [|done].
      by apply owner_insert.
  - rewrite (add_subdoc_invalid field checks keys uid body fresh_id c Hinvalid).
    split; [by left|done].
Qed.

Lemma delete_subdoc_step uid sub_id c :
  let s' := store_of (Profile.delete_subdoc field uid sub_id c) in
  profiles_change (profiles (db c)) (profiles s')
  ∧ users s' = users (db c) ∧ posts s' = posts (db c)
  ∧ unreachable s' = unreachable (db c).
Proof.
  intros s'. subst s'.
  destruct (Profile_findOne_cases uid c) as [[e H]|[H|(i & doc & H)]].
  - unfold Profile.delete_subdoc. js_unfold. js_rewrite H. simpl.
    split; [by left|done].
  - unfold Profile.delete_subdoc. js_unfold. js_rewrite H. simpl.
    split; [by left|done].
  - rewrite (delete_subdoc_run field uid sub_id c i doc H). cbv zeta.
    apply Profile_findOne_found in H as (_ & _ & Hfind).
    apply list_find_Some in Hfind as (Hi & _ & _).
    unfold store_of. simpl. split; [|done].
    right. left. eexists i, doc, _. split; [done|]. split; [|done].
    by apply owner_insert.
Qed.
End subdoc_steps.

Lemma upsert_step uid body oid c :
  let s' := store_of (Profile.upsert uid body oid c) in
  profiles_change (profiles (db c)) (profiles s')
  ∧ users s' = users (db c) ∧ posts s' = posts (db c)
  ∧ unreachable s' = unreachable (db c).
Proof.
  intros s'. subst s'. unfold Profile.upsert, Profile.upsert_req. cbv zeta.
  destruct (negb _).
  { split; [by left|done]. }
  destruct (Profile_findOne_cases uid c) as [[e H]|[H|(i & doc & H)]].
  - rewrite (upsert_profile_down _ _ _ _ _ H). split; [by left|done].
  - rewrite (upsert_profile_new _ _ _ _ H). cbv zeta.
    apply Profile_findOne_none in H as [_ Hnone].
    unfold store_of. simpl. split; [|done].
    right. right. left. eexists _, uid.
    split; [apply owner_new_Profile|]. by split.
  - rewrite (upsert_profile_existing _ _ _ _ _ _ H).
    apply Profile_findOne_found in H as (_ & _ & Hfind).
    apply list_find_Some in Hfind as (Hi & Hown & _).
    unfold store_of. simpl. split; [|done].
    right. left. eexists i, doc, _. split; [done|]. split; [|done].
    apply owned_by_owner in Hown. rewrite Hown.
    apply owned_by_owner, update_set_owned.
Qed.

Lemma delete_account_step uid c :
  let s' := store_of (Profiles.delete_account uid c) in
  profiles_change (profiles (db c)) (profiles s')
  ∧ sublist (users s') (users (db c)) ∧ posts s' = posts (db c)
  ∧ unreachable s' = unreachable (db c).
Proof.
  intros s'. subst s'.
  assert (unreachable (db c) = None ∨ ∃ e, unreachable (db c) = Some e)
    as [Hup|[e Hup]] by (destruct (unreachable (db c)); eauto); cycle 1.
  - rewrite (delete_account_down _ _ _ Hup). by split; [left|].
  - rewrite (delete_account_connected _ _ Hup). unfold store_of. simpl.
    split; [|split; [apply remove_first_sublist|done]].
    right. right. right. apply remove_first_sublist.
Qed.

Lemma profiles_step r c :
  let s' := store_of (Profiles.handle r c) in
  profiles_change (profiles (db c)) (profiles s')
  ∧ sublist (users s') (users (db c)) ∧ posts s' = posts (db c)
  ∧ unreachable s' = unreachable (db c).
Proof.
  assert (∀ s' : Store,
            profiles_change (profiles (db c)) (profiles s')
            ∧ users s' = users (db c) ∧ posts s' = posts (db c)
            ∧ unreachable s' = unreachable (db c) →
            profiles_change (profiles (db c)) (profiles s')
            ∧ sublist (users s') (users (db c)) ∧ posts s' = posts (db c)
            ∧ unreachable s' = unreachable (db c)) as Hweaken.
  { intros s' (? & -> & ? & ?). done. }
  destruct r; simpl.
  - apply Hweaken, upsert_step.
  - apply Hweaken, add_subdoc_step. literals_differ.
  - apply Hweaken, add_subdoc_step. literals_differ.
  - apply Hweaken, delete_subdoc_step. literals_differ.
  - apply Hweaken, delete_subdoc_step. literals_differ.
  - apply delete_account_step.
Qed.

Lemma serve_all_snoc (hs : list (JsM unit)) (h : JsM unit) s :
  serve_all (hs ++ [h]) s = serve h (serve_all hs s).
Proof. unfold serve_all. by rewrite foldl_app. Qed.

(** X13.  The profile router keeps one profile per user: whatever requests
    it serves one after the other (create or update, add or remove an
    experience or education entry, delete the account), with whatever
    bodies and by whatever users, a store in which no two profiles belong
    to one user stays such a store.  The requests leave the posts alone and
    add no user. *)
Theorem profile_router_keeps_one_profile (rs : list Profiles.Request) s :
  one_profile_per_user s →
  let s' := serve_all (Profiles.handle <$> rs) s in
  one_profile_per_user s'
  ∧ posts s' = posts s
  ∧ sublist (users s') (users s)
  ∧ unreachable s' = unreachable s.
Proof.
  revert s. induction rs as [|r rs IH]; intros s Hone; [done|].
  destruct (profiles_step r (request s)) as (Hchange & Husers & Hposts & Hup).
  cbn in Hchange, Husers, Hposts, Hup.
  destruct (IH (store_of (Profiles.handle r (request s))))
    as (Hone' & Hposts' & Husers' & Hup').
  { unfold one_profile_per_user. by eapply profiles_change_invariant. }
  change (serve_all (Profiles.handle <$> r :: rs) s)
    with (serve_all (Profiles.handle <$> rs)
            (store_of (Profiles.handle r (request s)))).
  cbv zeta. split; [done|]. split; [congruence|]. split; [|congruence].
  by etransitivity.
Qed.

Lemma profile_router_keeps_one_profile_witness :
  one_profile_per_user
    (serve_all
       (Profiles.handle
          <$> [Profiles.Upsert bob {[ "status" := "Dev"; "skills" := "js, coq" ]}
                 "b0b0b0b0b0b0b0b0b0b0b0b0";
               Profiles.Upsert bob {[ "status" := "Lead"; "skills" := "coq" ]}
                 "b1b1b1b1b1b1b1b1b1b1b1b1";
               Profiles.DeleteExperience alice "ffffffffffffffffffffffff";
               Profiles.DeleteAccount alice])
       store2).
Proof.
  apply (profile_router_keeps_one_profile
           [Profiles.Upsert bob {[ "status" := "Dev"; "skills" := "js, coq" ]}
              "b0b0b0b0b0b0b0b0b0b0b0b0";
            Profiles.Upsert bob {[ "status" := "Lead"; "skills" := "coq" ]}
              "b1b1b1b1b1b1b1b1b1b1b1b1";
            Profiles.DeleteExperience alice "ffffffffffffffffffffffff";
            Profiles.DeleteAccount alice] store2).
  unfold one_profile_per_user. vm_compute. apply NoDup_singleton.
Defined.

(** ** Profiles: the first profile of a user *)

Lemma Profile_findOne_appended uid s (doc : Doc) :
  Profile.Profile_findOne uid (request s) = Normal None (request s) →
  Profile.owned_by uid doc →
  let s' := set_profiles (profiles s ++ [doc]) s in
  Profile.Profile_findOne uid (request s')
  = Normal (Some (length (profiles s), doc)) (request s').
Proof.
  intros Hnone Hown s'.
  apply Profile_findOne_none in Hnone as [Hup Habsent]. simpl in Hup, Habsent.
  apply Profile_findOne_intro; [done|]. simpl.
  rewrite list_find_app_r by (by apply list_find_None).
  simpl. by rewrite decide_True.
Qed.

Lemma upsert_profile_new_then_update uid body body' oid oid' s :
  Profile.Profile_findOne uid (request s) = Normal None (request s) →
  let created := Profile.new_Profile oid (Profile.profileFields uid body) in
  serve_all [Profile.upsert_profile uid body oid;
             Profile.upsert_profile uid body' oid'] s
  = set_profiles
      (profiles s
       ++ [Profile.update_set (Profile.profileFields uid body') created]) s.
Proof.
  intros Hnone created.
  assert (Profile.owned_by uid created) as Hown
    by apply owned_by_owner, owner_new_Profile.
  pose proof (Profile_findOne_appended uid s created Hnone Hown) as Hfound.
  cbv zeta in Hfound.
  unfold serve_all. simpl. unfold serve at 2.
  rewrite (upsert_profile_new _ _ _ _ Hnone). cbv zeta. fold created.
  unfold store_of, serve. simpl.
  change {| db := set_profiles (profiles s ++ [created]) s; sent := None;
            console := [] |}
    with (request (set_profiles (profiles s ++ [created]) s)).
  rewrite (upsert_profile_existing _ _ _ _ _ _ Hfound).
  unfold store_of, set_profiles. cbn.
  replace (length (profiles s)) with (length (profiles s) + 0)%nat at 1 by lia.
  by rewrite insert_app_r.
Qed.

(** X14.  The first POST api/profile of a user appends one profile, built
    from the collected fields, and answers with it; the next one finds that
    profile and updates it where it is, under the identifier it got, so
    that the two requests leave exactly one more profile in the store. *)
Theorem upsert_creates_once uid body body' oid oid' s :
  Profile.Profile_findOne uid (request s) = Normal None (request s) →
  let fields := Profile.profileFields uid body in
  let created := Profile.new_Profile oid fields in
  let updated := Profile.update_set (Profile.profileFields uid body') created in
  Profile.upsert_profile uid body oid (request s)
  = Normal ()
      (reply 200 (Json_profile created)
         (request (set_profiles (profiles s ++ [created]) s)))
  ∧ (∀ k, k ≠ "_id" → fields !! k = None → k ∉ ["experience"; "education"] →
          created !! k = None)
  ∧ (∀ k v, k ≠ "_id" → fields !! k = Some v → created !! k = Some v)
  ∧ serve_all [Profile.upsert_profile uid body oid;
               Profile.upsert_profile uid body' oid'] s
    = set_profiles (profiles s ++ [updated]) s
  ∧ updated !! "_id" = Some (VStr oid)
  ∧ Profile.owned_by uid updated.
Proof.
  intros Hnone fields created updated.
  split; [by rewrite (upsert_profile_new _ _ _ _ Hnone)|].
  split.
  { intros k Hid Hk Hlists. subst created. unfold Profile.new_Profile.
    rewrite lookup_insert_ne by done.
    apply lookup_union_None. split; [done|].
    rewrite lookup_insert_ne by set_solver.
    apply lookup_singleton_ne. set_solver. }
  split.
  { intros k v Hid Hk. subst created. unfold Profile.new_Profile.
    rewrite lookup_insert_ne by done. by apply lookup_union_Some_l. }
  split; [by apply upsert_profile_new_then_update|].
  split; [|apply update_set_owned].
  subst updated created. unfold Profile.update_set, Profile.new_Profile.
  rewrite lookup_union_r.
  - apply lookup_insert_eq.
  - apply profileFields_unnamed; [literals_differ..|].
    apply (bool_decide_unpack _). vm_compute. exact I.
Qed.

Lemma upsert_creates_once_witness :
  length (profiles
            (serve_all
               [Profile.upsert_profile bob
                  {[ "status" := "Dev"; "skills" := "js, coq" ]}
                  "b0b0b0b0b0b0b0b0b0b0b0b0";
                Profile.upsert_profile bob
                  {[ "status" := "Lead"; "skills" := "coq" ]}
                  "b1b1b1b1b1b1b1b1b1b1b1b1"] store2))
  = 2%nat.
Proof.
  assert (Profile.Profile_findOne bob (request store2)
          = Normal None (request store2)) as Hnone
    by (vm_compute; reflexivity).
  rewrite (proj1 (proj2 (proj2 (proj2
             (upsert_creates_once bob
                {[ "status" := "Dev"; "skills" := "js, coq" ]}
                {[ "status" := "Lead"; "skills" := "coq" ]}
                "b0b0b0b0b0b0b0b0b0b0b0b0" "b1b1b1b1b1b1b1b1b1b1b1b1"
                store2 Hnone))))).
  reflexivity.
Defined.

(** ** Profiles: the skills of the body *)

Lemma split_comma_cons s : ∃ piece pieces, Profile.split_comma s = piece :: pieces.
Proof.
  destruct s as [|ch rest]; simpl; [eauto|].
  destruct (Ascii.eqb ch ","); [eauto|].
  destruct (Profile.split_comma rest); eauto.
Qed.

Lemma join_comma_cons ch piece pieces :
  join_comma (String ch piece :: pieces)
  = String ch (join_comma (piece :: pieces)).
Proof. by destruct pieces. Qed.

Lemma split_comma_length s :
  length (Profile.split_comma s) = S (commas s).
Proof.
  induction s as [|ch rest IH]; simpl; [done|].
  destruct (Ascii.eqb ch ","); simpl; [by rewrite IH|].
  destruct (split_comma_cons rest) as (piece & pieces & E).
  rewrite E in IH |- *. exact IH.
Qed.

Lemma join_split_comma s : join_comma (Profile.split_comma s) = s.
Proof.
  induction s as [|ch rest IH]; [done|]. cbn [Profile.split_comma].
  destruct (split_comma_cons rest) as (piece & pieces & E).
  rewrite E in IH |- *.
  destruct (Ascii.eqb_spec ch ",") as [->|_].
  - change (join_comma (EmptyString :: piece :: pieces))
      with ("" +:+ "," +:+ join_comma (piece :: pieces)).
    by rewrite IH.
  - by rewrite join_comma_cons, IH.
Qed.

Lemma split_comma_pieces s : Forall (λ piece, commas piece = 0%nat) (Profile.split_comma s).
Proof.
  induction s as [|ch rest IH]; simpl; [by repeat constructor|].
  destruct (Ascii.eqb ch ",") eqn:Hch; [by constructor|].
  destruct (split_comma_cons rest) as (piece & pieces & E).
  rewrite E in IH |- *. apply Forall_cons in IH as [Hpiece Hpieces].
  constructor; [|done]. simpl. by rewrite Hch.
Qed.

Lemma chars_continues s c cs :
  Js.chars s = c :: cs → Js.continues c = Js.continues s.
Proof.
  destruct s as [|b rest]; simpl; [done|].
  destruct (Js.chars rest) as [|c' cs']; [by intros [= <- _]|].
  by destruct (Js.continues c'); intros [= <- _].
Qed.

Lemma chars_nil s : Js.chars s = [] → s = "".
Proof.
  destruct s as [|b rest]; simpl; [done|].
  destruct (Js.chars rest) as [|c' cs']; [done|].
  by destruct (Js.continues c').
Qed.

Lemma chars_String b rest :
  Js.chars (String b rest)
  = match Js.chars rest with
    | c :: cs =>
        if Js.continues c then String b c :: cs
        else String b EmptyString :: c :: cs
    | [] => [String b EmptyString]
    end.
Proof. done. Qed.

Lemma chars_continuation conts r :
  continuation_bytes conts → conts ≠ "" → Js.continues r = false →
  Js.chars (conts +:+ r) = conts :: Js.chars r.
Proof.
  induction conts as [|b conts IH]; [done|]. intros [Hb Hconts] _ Hr.
  change (String b conts +:+ r) with (String b (conts +:+ r)).
  rewrite chars_String. destruct conts as [|b' conts'].
  - change ("" +:+ r) with r. destruct (Js.chars r) as [|c cs] eqn:E; [done|].
    by rewrite (chars_continues _ _ _ E), Hr.
  - rewrite IH by done. cbn [Js.continues]. by destruct Hconts as [-> _].
Qed.

Lemma chars_group b conts r :
  continuation_bytes conts → Js.continues r = false →
  Js.chars (String b conts +:+ r) = String b conts :: Js.chars r.
Proof.
  intros Hconts Hr.
  change (String b conts +:+ r) with (String b (conts +:+ r)).
  rewrite chars_String. destruct conts as [|b' conts'].
  - change ("" +:+ r) with r. destruct (Js.chars r) as [|c cs] eqn:E; [done|].
    by rewrite (chars_continues _ _ _ E), Hr.
  - rewrite chars_continuation by done. cbn [Js.continues].
    by destruct Hconts as [-> _].
Qed.

Lemma chars_characters s : characters (Js.chars s).
Proof.
  induction s as [|b rest [IHg IHl]]; [by split; constructor|].
  cbn [Js.chars]. destruct (Js.chars rest) as [|c cs] eqn:E.
  - split; [|by constructor]. constructor; [|done]. by exists b, "".
  - apply Forall_cons in IHg as [(b' & conts & -> & Hconts) IHg].
    simpl in IHl. cbn [Js.continues].
    destruct (Js.is_continuation b') eqn:Hb'.
    + split; [|done]. constructor; [|done]. by exists b, (String b' conts).
    + split.
      * constructor; [by exists b, ""|]. constructor; [|done].
        by exists b', conts.
      * simpl. by constructor.
Qed.

Lemma concat_continues c l :
  group c → Js.continues (Js.concat (c :: l)) = Js.continues c.
Proof. by intros (b & conts & -> & _). Qed.

Lemma chars_concat l : characters l → Js.chars (Js.concat l) = l.
Proof.
  induction l as [|c l IH]; [done|]. intros [Hg Hl].
  apply Forall_cons in Hg as [Hc Hg]. simpl in Hl.
  destruct Hc as (b & conts & -> & Hconts). cbn [Js.concat].
  rewrite chars_group; [|done|].
  - f_equal. apply IH. split; [done|]. by apply Forall_tail.
  - destruct l as [|c' l']; [done|].
    apply Forall_cons in Hg as [Hc' _], Hl as [Hl _].
    by rewrite concat_continues.
Qed.

Lemma concat_chars s : Js.concat (Js.chars s) = s.
Proof.
  induction s as [|b rest IH]; [done|]. cbn [Js.chars].
  destruct (Js.chars rest) as [|c cs]; simpl in *; [by rewrite <- IH|].
  destruct (Js.continues c); simpl; by rewrite <- IH.
Qed.

Section drop_while.
Context {A : Type} (P : A → bool).

Lemma drop_while_suffix l : ∃ dropped, l = dropped ++ Js.drop_while P l ∧ Forall (λ x, P x = true) dropped.
Proof.
  induction l as [|x l (dropped & IH & Hd)]; simpl; [by exists []|].
  destruct (P x) eqn:Hx; [|by exists []].
  exists (x :: dropped). split; [simpl; by f_equal|by constructor].
Qed.

Lemma drop_while_head l x : head (Js.drop_while P l) = Some x → P x = false.
Proof.
  induction l as [|y l IH]; simpl; [done|].
  destruct (P y) eqn:Hy; [done|]. by intros [= <-].
Qed.

Lemma drop_while_id l : (∀ x, head l = Some x → P x = false) → Js.drop_while P l = l.
Proof. destruct l as [|x l]; simpl; [done|]. intros H. by rewrite (H x). Qed.
End drop_while.

Lemma characters_suffix l k : characters (l ++ k) → characters k.
Proof.
  intros [Hg Hl]. apply Forall_app in Hg as [_ Hg]. split; [done|].
  destruct l as [|c l]; [done|]. simpl in Hl.
  apply Forall_app in Hl as [_ Hl]. by apply Forall_tail.
Qed.

Lemma characters_prefix l k : characters (l ++ k) → characters l.
Proof.
  intros [Hg Hl]. apply Forall_app in Hg as [Hg _]. split; [done|].
  destruct l as [|c l]; [done|]. simpl in Hl |- *.
  by apply Forall_app in Hl as [Hl _].
Qed.

(** The characters of the trimmed string: those of the string without the
    white space before and after. *)
Lemma chars_trim s :
  ∃ before after,
    Js.chars s = before ++ Js.chars (Profile.trim s) ++ after
    ∧ Forall (λ c, Js.is_white_space c = true) before
    ∧ Forall (λ c, Js.is_white_space c = true) after
    ∧ Js.chars (Profile.trim s)
      = reverse (Js.drop_while Js.is_white_space
                   (reverse (Js.drop_while Js.is_white_space (Js.chars s)))).
Proof.
  unfold Profile.trim, Js.String_trim. cbv zeta.
  destruct (drop_while_suffix Js.is_white_space (Js.chars s))
    as (before & Hbefore & Hws).
  set (kept := Js.drop_while Js.is_white_space (Js.chars s)) in *.
  destruct (drop_while_suffix Js.is_white_space (reverse kept))
    as (after & Hafter & Hws').
  set (kept' := Js.drop_while Js.is_white_space (reverse kept)) in *.
  assert (kept = reverse kept' ++ reverse after) as Hkept.
  { by rewrite <- reverse_app, <- Hafter, reverse_involutive. }
  assert (Js.chars (Js.concat (reverse kept')) = reverse kept') as Hchars.
  { apply chars_concat. pose proof (chars_characters s) as Hs.
    rewrite Hbefore, Hkept in Hs.
    by apply characters_suffix, characters_prefix in Hs. }
  exists before, (reverse after). rewrite Hchars.
  split; [by rewrite <- Hkept|]. split; [done|]. split; [|done].
  by apply Forall_reverse.
Qed.

Lemma trim_trimmed s : trimmed (Profile.trim s).
Proof.
  unfold trimmed. destruct (chars_trim s) as (_ & _ & _ & _ & _ & ->).
  intros c [Hc|Hc].
  - set (kept := Js.drop_while Js.is_white_space (Js.chars s)) in *.
    destruct (drop_while_suffix Js.is_white_space (reverse kept))
      as (after & Hafter & _).
    set (kept' := Js.drop_while Js.is_white_space (reverse kept)) in *.
    apply (drop_while_head Js.is_white_space (Js.chars s)). fold kept.
    rewrite <- (reverse_involutive kept), Hafter, reverse_app.
    destruct (reverse kept'); [done|]. exact Hc.
  - rewrite last_reverse in Hc. by apply drop_while_head in Hc.
Qed.

Lemma trim_idemp s : Profile.trim (Profile.trim s) = Profile.trim s.
Proof.
  pose proof (trim_trimmed s) as Ht. unfold trimmed in Ht.
  unfold Profile.trim at 1. unfold Js.String_trim. cbv zeta.
  rewrite (drop_while_id _ (Js.chars (Profile.trim s)))
    by (intros c Hc; apply Ht; by left).
  rewrite drop_while_id, reverse_involutive; [apply concat_chars|].
  intros c Hc. apply Ht. right. by rewrite <- head_reverse.
Qed.

(** X15.  The skills of a profile are the pieces of the body's string
    between its commas, each trimmed: one more than the string has commas,
    none dropped, so that the string "a,,b" gives an empty skill; joining
    the pieces with commas gives the string back.  Trimming takes white
    space away, and only white space, from the start and the end of a
    piece, the no-break space and the other white space outside the ASCII
    range included; a trimmed skill neither starts nor ends with white
    space and is left as it is by trimming it again. *)
Theorem skills_of_body uid body v :
  body !! "skills" = Some v → v ≠ "" →
  let skills := map Profile.trim (Profile.split_comma v) in
  Profile.profileFields uid body !! "skills" = Some (VStrs skills)
  ∧ length skills = S (commas v)
  ∧ join_comma (Profile.split_comma v) = v
  ∧ Forall (λ piece, commas piece = 0%nat) (Profile.split_comma v)
  ∧ Forall
      (λ piece, ∃ before after,
         Js.chars piece = before ++ Js.chars (Profile.trim piece) ++ after
         ∧ Forall (λ c, Js.is_white_space c = true) before
         ∧ Forall (λ c, Js.is_white_space c = true) after)
      (Profile.split_comma v)
  ∧ (∀ s, Js.concat (Js.chars s) = s)
  ∧ Forall trimmed skills
  ∧ map Profile.trim skills = skills
  ∧ (∀ c, Js.is_white_space c = true
          ↔ c ∈ Js.of_bytes
                  <$> [ [9]; [10]; [11]; [12]; [13]; [32]; [194; 160];
                        [225; 154; 128]; [226; 128; 128]; [226; 128; 129];
                        [226; 128; 130]; [226; 128; 131]; [226; 128; 132];
                        [226; 128; 133]; [226; 128; 134]; [226; 128; 135];
                        [226; 128; 136]; [226; 128; 137]; [226; 128; 138];
                        [226; 128; 168]; [226; 128; 169]; [226; 128; 175];
                        [226; 129; 159]; [227; 128; 128]; [239; 187; 191] ]%N).
Proof.
  intros Hv Hne skills. subst skills.
  split; [by apply profileFields_skills|].
  split; [by rewrite length_map, split_comma_length|].
  split; [apply join_split_comma|]. split; [apply split_comma_pieces|].
  split.
  { apply Forall_forall. intros piece _.
    destruct (chars_trim piece) as (before & after & H1 & H2 & H3 & _).
    by exists before, after. }
  split; [apply concat_chars|]. split; [|split].
  - apply Forall_forall. intros skill Hin.
    apply list_elem_of_fmap in Hin as (piece & -> & _). apply trim_trimmed.
  - rewrite map_map. apply map_ext. intros piece. apply trim_idemp.
  - intros c. unfold Js.is_white_space. apply bool_decide_eq_true.
Qed.

Lemma skills_of_body_witness :
  let skills := " js, coq ,,html," +:+ Js.of_bytes [194; 160]%N +:+ "c" in
  Profile.profileFields alice {[ "skills" := skills ]} !! "skills"
  = Some (VStrs ["js"; "coq"; ""; "html"; "c"]).
Proof.
  intros skills.
  assert (({[ "skills" := skills ]} : gmap string string) !! "skills"
          = Some skills) as Hbody by apply lookup_singleton_eq.
  assert (skills ≠ "") as Hne by (vm_compute; discriminate).
  pose proof (skills_of_body alice {[ "skills" := skills ]} skills Hbody Hne)
    as [H _].
  rewrite H. vm_compute. reflexivity.
Defined.

(** ** Profiles: the other outcomes of the GitHub lookup *)

Lemma github_unconfigured config_get JSON_valid username upstream c :
  config_get "githubClientId" = None ∨ config_get "githubSecret" = None →
  let err := TypeError "console.err is not a function" in
  Profile.github config_get JSON_valid username upstream c
  = Normal () (logged (Log_unhandled err) (reply 500 (Error_page err) c)).
Proof.
  intros Hmissing. unfold Profile.github, Profile.github_options, config,
    express_error.
  js_unfold.
  destruct (config_get "githubClientId") as [clientId|]; [|done].
  destruct Hmissing as [Hid|Hsecret]; [done|]. by rewrite Hsecret.
Qed.

Lemma github_configured config_get JSON_valid username upstream c clientId
    secret :
  config_get "githubClientId" = Some clientId →
  config_get "githubSecret" = Some secret →
  Profile.github config_get JSON_valid username upstream c
  = Profile.call_back JSON_valid
      (upstream
         {| Profile.uri :=
              "https://api.github.com/users/" +:+ username
              +:+ "/repos?per_page=5&sort=created:asc&client_id="
              +:+ clientId +:+ "&client_secret=" +:+ secret;
            Profile.method := "GET";
            Profile.headers := [("user-agent", "node.js")] |}) c.
Proof.
  intros Hid Hsecret. unfold Profile.github, Profile.github_options, config.
  js_unfold. by rewrite Hid, Hsecret.
Qed.

Lemma call_back_found JSON_valid body c :
  Profile.call_back JSON_valid (Profile.Net_response 200 body) c
  = if JSON_valid body then Normal () (reply 200 (Json_parsed body) c)
    else Throw {| name := "SyntaxError";
                  message := "Unexpected token in JSON"; kind := None |} c.
Proof.
  unfold Profile.call_back, Profile.github_callback. js_unfold.
  rewrite bool_decide_false by (intros Hne; by apply Hne).
  by destruct (JSON_valid body).
Qed.

Lemma call_back_outcome JSON_valid upstream c :
  let r := Profile.call_back JSON_valid upstream c in
  store_of r = db c
  ∧ ∀ resp, response_of r = Some resp →
            sent c = Some resp ∨ status resp = 200 ∨ status resp = 400.
Proof.
  destruct upstream as [e|statusCode body]; simpl.
  - split; [done|]. intros resp. unfold response_of. simpl. eauto.
  - unfold Profile.github_callback. js_unfold.
    destruct (bool_decide (statusCode ≠ 200)).
    + split; [done|]. unfold response_of. simpl. intros resp [= <-]. eauto.
    + destruct (JSON_valid body).
      * split; [done|]. unfold response_of. simpl. intros resp [= <-]. eauto.
      * split; [done|]. unfold response_of. simpl. eauto.
Qed.

(** X16.  The other outcomes of GET api/profile/github/:username.  Without
    one of the two client credentials the [catch] block calls
    [console.err], which is no function: the handler, which is no [async]
    function, throws a TypeError to the router, and the request is answered
    500 with the error page of Express, whatever the upstream would say.
    With the credentials, an upstream 200 is answered with the parsed body,
    and makes the callback throw when the body is no JSON; the handler then
    answers 200 or 400 or not at all.  No outcome touches the store. *)
Theorem github_outcomes (config_get : string → option string)
    (JSON_valid : string → bool) username upstream c :
  let r := Profile.github config_get JSON_valid username upstream c in
  let err := TypeError "console.err is not a function" in
  (config_get "githubClientId" = None ∨ config_get "githubSecret" = None →
   r = Normal () (logged (Log_unhandled err) (reply 500 (Error_page err) c))
   ∧ response_of r = Some {| status := 500; body := Error_page err |})
  ∧ (∀ clientId secret,
       config_get "githubClientId" = Some clientId →
       config_get "githubSecret" = Some secret →
       (∀ body,
          upstream
            {| Profile.uri :=
                 "https://api.github.com/users/" +:+ username
                 +:+ "/repos?per_page=5&sort=created:asc&client_id="
                 +:+ clientId +:+ "&client_secret=" +:+ secret;
               Profile.method := "GET";
               Profile.headers := [("user-agent", "node.js")] |}
          = Profile.Net_response 200 body →
          r = if JSON_valid body
              then Normal () (reply 200 (Json_parsed body) c)
              else Throw {| name := "SyntaxError";
                            message := "Unexpected token in JSON";
                            kind := None |} c)
       ∧ ∀ resp, response_of r = Some resp →
                 sent c = Some resp ∨ status resp = 200 ∨ status resp = 400)
  ∧ store_of r = db c
  ∧ ∀ resp, response_of r = Some resp →
            sent c = Some resp ∨ status resp = 200 ∨ status resp = 400
            ∨ status resp = 500.
Proof.
  intros r err. subst r err.
  split.
  { intros Hmissing. by rewrite github_unconfigured. }
  split.
  { intros clientId secret Hid Hsecret.
    rewrite (github_configured _ _ _ _ _ _ _ Hid Hsecret). split.
    - intros body Hup. rewrite Hup. apply call_back_found.
    - apply call_back_outcome. }
  destruct (config_get "githubClientId") as [clientId|] eqn:Hid;
    [destruct (config_get "githubSecret") as [secret|] eqn:Hsecret|].
  - rewrite (github_configured _ _ _ _ _ _ _ Hid Hsecret).
    destruct (call_back_outcome JSON_valid
                (upstream
                   {| Profile.uri :=
                        "https://api.github.com/users/" +:+ username
                        +:+ "/repos?per_page=5&sort=created:asc&client_id="
                        +:+ clientId +:+ "&client_secret=" +:+ secret;
                      Profile.method := "GET";
                      Profile.headers := [("user-agent", "node.js")] |}) c)
      as [Hstore Hresp].
    split; [exact Hstore|]. intros resp H.
    destruct (Hresp resp H) as [?|[?|?]]; eauto.
  - rewrite github_unconfigured by (by right).
    split; [done|]. unfold response_of. simpl. intros resp [= <-]. eauto.
  - rewrite github_unconfigured by (by left).
    split; [done|]. unfold response_of. simpl. intros resp [= <-]. eauto.
Qed.

Lemma github_outcomes_witness :
  response_of
    (Profile.github (λ key, if decide (key = "githubSecret") then None
                            else Some "id")
       (λ _, true) "octocat" (λ _, Profile.Net_response 200 "[]")
       (request store2))
  = Some {| status := 500;
            body := Error_page (TypeError "console.err is not a function") |}
  ∧ Profile.github (λ _, Some "x") (λ body, bool_decide (body = "[]"))
      "octocat" (λ _, Profile.Net_response 200 "[]") (request store2)
    = Normal () (reply 200 (Json_parsed "[]") (request store2)).
Proof.
  split.
  - apply (proj1 (github_outcomes
                    (λ key, if decide (key = "githubSecret") then None
                            else Some "id")
                    (λ _, true) "octocat"
                    (λ _, Profile.Net_response 200 "[]") (request store2))).
    right. reflexivity.
  - exact (proj1 (proj1 (proj2 (github_outcomes (λ _, Some "x")
                           (λ body, bool_decide (body = "[]")) "octocat"
                           (λ _, Profile.Net_response 200 "[]")
                           (request store2)))
             "x" "x" eq_refl eq_refl) "[]" eq_refl).
Defined.

(** ** Registration: validation, failures and the e-mail addresses *)

Section registrations.
Variable config_get : string → option string.
Variable isEmail : string → bool.
Variable gravatar_url : string → string.
Variable bcrypt_hash : string → string → string.
Variable jwt_sign : string → string → Z → JsError + string.

Abbreviation register_user' :=
  (Users.register_user config_get gravatar_url bcrypt_hash jwt_sign).
Abbreviation register' :=
  (Users.register config_get isEmail gravatar_url bcrypt_hash jwt_sign).
Abbreviation new_user name email password fresh :=
  {| user_id := Users.new_id fresh; user_name := name;
     user_email := email; user_avatar := gravatar_url email;
     user_password := bcrypt_hash password (Users.new_salt fresh);
     user_date := Users.now fresh |}.

Abbreviation register_req' :=
  (Users.register_req config_get isEmail gravatar_url bcrypt_hash jwt_sign).

(** The characters of a string in UTF-8: one for every byte that is no
    continuation byte, and one more when the string starts with a
    continuation byte. *)
Lemma code_points_bytes s :
  Js.code_points s
  = (length (filter (λ b, Js.is_continuation b = false)
               (String.list_ascii_of_string s))
     + if Js.continues s then 1 else 0)%nat.
Proof.
  unfold Js.code_points. induction s as [|b rest IH]; [done|].
  cbn [Js.chars String.list_ascii_of_string Js.continues].
  rewrite filter_cons.
  destruct (Js.chars rest) as [|c cs] eqn:E.
  - apply chars_nil in E as ->. simpl.
    destruct (decide (Js.is_continuation b = false)) as [->|Hb]; [done|].
    apply not_false_is_true in Hb. by rewrite Hb.
  - rewrite (chars_continues _ _ _ E). simpl in IH.
    destruct (decide (Js.is_continuation b = false)) as [Hb|Hb].
    + rewrite Hb. destruct (Js.continues rest); simpl in *; lia.
    + apply not_false_is_true in Hb. rewrite Hb.
      destruct (Js.continues rest); simpl in *; lia.
Qed.

Lemma validate_req_nil req :
  Users.validate_req isEmail req = []
  ↔ (Validator.values req "name" ≠ []
     ∧ Forall (λ v, v ≠ "") (Validator.values req "name"))
    ∧ Forall (λ value, isEmail (default "" value) = true)
        (Validator.selected req "email")
    ∧ (Validator.values req "password" ≠ []
       ∧ Forall (λ v, (6 ≤ Js.code_points v)%nat)
           (Validator.values req "password")).
Proof.
  unfold Users.validate_req.
  rewrite !app_nil, !check_nil.
  rewrite (selected_values Validator.notEmpty) by done.
  rewrite (selected_values (Validator.isLength 6)) by (vm_compute; reflexivity).
  assert (∀ l, Forall (λ v, Validator.notEmpty v = true) l
               ↔ Forall (λ v : string, v ≠ "") l) as ->.
  { intros l. apply Forall_proper; [|done]. intros v.
    unfold Validator.notEmpty. by rewrite negb_true_iff, String.eqb_neq. }
  assert (∀ l, Forall (λ v, Validator.isLength 6 v = true) l
               ↔ Forall (λ v, (6 ≤ Js.code_points v)%nat) l) as ->; [|done].
  intros l. apply Forall_proper; [|done]. intros v.
  unfold Validator.isLength. by rewrite bool_decide_eq_true.
Qed.

Lemma validate_nil body :
  Users.validate isEmail body = []
  ↔ default "" (body !! "name") ≠ ""
    ∧ isEmail (default "" (body !! "email")) = true
    ∧ (6 ≤ Js.code_points (default "" (body !! "password")))%nat.
Proof.
  unfold Users.validate, Users.validate_req.
  rewrite !check_only_body, !app_nil.
  unfold Validator.notEmpty, Validator.isLength.
  destruct (String.eqb_spec (default "" (body !! "name")) "") as [->|Hname],
    (isEmail (default "" (body !! "email"))),
    (bool_decide_reflect
       (6 ≤ Js.code_points (default "" (body !! "password")))%nat);
    simpl;
    (split; [intros (H1 & H2 & H3); by repeat split
            |by intros (H1 & H2 & H3)]).
Qed.

Lemma validate_req_length req :
  (length (Users.validate_req isEmail req) ≤ 15)%nat.
Proof.
  unfold Users.validate_req. rewrite !length_app.
  pose proof (check_length Validator.notEmpty req "name" "Name is required").
  pose proof (check_length isEmail req "email" "Please include a valid email").
  pose proof (check_length (Validator.isLength 6) req "password"
                "Please enter a password with 6 or more chars").
  pose proof (selected_length req "name").
  pose proof (selected_length req "email").
  pose proof (selected_length req "password").
  lia.
Qed.

Lemma register_req_rejected req fresh c :
  Users.validate_req isEmail req ≠ [] →
  register_req' req fresh c
  = Normal () (reply 400 (Json_errors (Users.validate_req isEmail req)) c).
Proof.
  intros Hne. unfold Users.register_req. cbv zeta.
  by rewrite bool_decide_false by done.
Qed.

Lemma register_req_valid req fresh :
  Users.validate_req isEmail req = [] →
  register_req' req fresh
  = register_user' (default "" (Validator.req_body req !! "name"))
      (default "" (Validator.req_body req !! "email"))
      (default "" (Validator.req_body req !! "password")) fresh.
Proof.
  intros Hvalid. unfold Users.register_req. cbv zeta. rewrite Hvalid.
  by rewrite bool_decide_true.
Qed.

Lemma User_findOne_cases email c :
  (∃ e, unreachable (db c) = Some e ∧ Users.User_findOne email c = Throw e c)
  ∨ (unreachable (db c) = None
     ∧ Users.User_findOne email c
       = Normal (List.find (λ u, bool_decide (user_email u = email))
                   (users (db c))) c).
Proof.
  unfold Users.User_findOne, mbind, Js_bind, connected, read_store.
  destruct (unreachable (db c)); eauto.
Qed.

Lemma register_user_down name email password fresh c e :
  unreachable (db c) = Some e →
  register_user' name email password fresh c
  = Normal ()
      (reply 500 (Text "Server Error") (logged (Log_string (message e)) c)).
Proof.
  intros Hdown. unfold Users.register_user.
  destruct (User_findOne_cases email c) as [(e' & He' & H)|[Hup _]];
    [|congruence].
  assert (e' = e) as -> by congruence.
  js_unfold. by js_rewrite H.
Qed.

Lemma register_user_store name email password fresh c :
  Users.User_findOne email c = Normal None c →
  store_of (register_user' name email password fresh c)
  = set_users (users (db c) ++ [new_user name email password fresh]) (db c).
Proof.
  intros Hnone.
  rewrite (register_user_run config_get gravatar_url bcrypt_hash jwt_sign
             _ _ _ _ _ Hnone).
  destruct (config_get "jwtSecret") as [secret|]; [|done].
  destruct (jwt_sign (Users.new_id fresh) secret 360000); [|done].
  by destruct (Js.truthy (Some secret)).
Qed.

Lemma register_user_retry name email password fresh c name' password' fresh' :
  Users.User_findOne email c = Normal None c →
  let s := store_of (register_user' name email password fresh c) in
  register_user' name' email password' fresh' (request s)
  = Normal ()
      (reply 400
         (Json_errors [{| param := None; msg := "User already exists" |}])
         (request s)).
Proof.
  intros Hnone s.
  apply register_user_existing with (new_user name email password fresh).
  subst s. rewrite (register_user_store _ _ _ _ _ Hnone).
  apply User_findOne_connected in Hnone as [Hup Hfind].
  unfold Users.User_findOne, mbind, Js_bind, connected, read_store. simpl.
  rewrite Hup. f_equal. by apply find_app_new.
Qed.

Lemma find_email_None email (us : list User) :
  List.find (λ u, bool_decide (user_email u = email)) us = None →
  email ∉ user_email <$> us.
Proof.
  induction us as [|u us IH]; simpl; [intros _; apply not_elem_of_nil|].
  destruct (bool_decide (user_email u = email)) eqn:E; [done|].
  apply bool_decide_eq_false in E. intros H%IH.
  apply not_elem_of_cons. split; [congruence|done].
Qed.

Lemma register_step body fresh c :
  store_of (register' body fresh c) = db c
  ∨ (∃ u, (user_email u ∉ user_email <$> users (db c))
          ∧ store_of (register' body fresh c)
            = set_users (users (db c) ++ [u]) (db c)).
Proof.
  destruct (decide (Users.validate isEmail body = [])) as [Hvalid|Hne];
    [|left; by rewrite (register_rejected _ _ _ _ _ _ _ _ Hne)].
  rewrite (register_valid _ _ _ _ _ _ _ Hvalid).
  set (email := default "" (body !! "email")).
  destruct (User_findOne_cases email c) as [(e & Hdown & _)|[Hup Hfind]].
  - left. by rewrite (register_user_down _ _ _ _ _ _ Hdown).
  - destruct (List.find _ (users (db c))) as [registered|] eqn:E.
    + left. by rewrite (register_user_existing _ _ _ _ _ _ _ _ _ _ Hfind).
    + right. eexists. split; [|by apply register_user_store].
      simpl. by apply find_email_None.
Qed.

(** X17.  The registration keeps the e-mail addresses apart: whatever
    requests it serves one after the other, valid or not, a store in which
    no two users have one address stays such a store.  The users that were
    there stay as they are, in their places, and profiles and posts are
    left alone. *)
Theorem registrations_keep_emails_apart
    (rs : list (gmap string string * Users.Fresh)) s :
  one_user_per_email s →
  let s' := serve_all ((λ r, register' r.1 r.2) <$> rs) s in
  one_user_per_email s'
  ∧ users s `prefix_of` users s'
  ∧ profiles s' = profiles s ∧ posts s' = posts s
  ∧ unreachable s' = unreachable s.
Proof.
  revert s. induction rs as [|[body fresh] rs IH]; intros s Hone; [done|].
  change (serve_all ((λ r, register' r.1 r.2) <$> (body, fresh) :: rs) s)
    with (serve_all ((λ r, register' r.1 r.2) <$> rs)
            (store_of (register' body fresh (request s)))).
  cbv zeta.
  destruct (register_step body fresh (request s)) as [->|(u & Hnew & ->)];
    simpl.
  - by apply IH.
  - destruct (IH (set_users (users s ++ [u]) s))
      as (Hone' & Hprefix & Hprofiles & Hposts & Hup).
    { unfold one_user_per_email. simpl. rewrite fmap_app.
      apply NoDup_app. split; [done|]. split; [|apply NoDup_singleton].
      simpl. intros email Hin ->%list_elem_of_singleton. by apply Hnew. }
    split; [done|]. split; [|done].
    etransitivity; [|exact Hprefix]. by apply prefix_app_r.
Qed.

(** X18.  The validation of a registration comes before everything else.
    Each of the three fields is looked for in the body, the cookies, the
    headers, the route parameters and the query of the request: the name
    must be somewhere and not be empty wherever it is, the address must be
    an e-mail address wherever it is, and the password must have six
    characters or more (characters, not bytes) wherever it is; a field that
    is nowhere is validated as the empty string.  A request that fails is
    answered 400 with the errors, on a store that fails as well, and
    nothing is looked up, logged or stored; a request that passes is
    answered 500 on a store that fails.  On a request with the fields in
    the body only the three conditions are those on the fields of the
    body. *)
Theorem register_validation req fresh c :
  let errors := Users.validate_req isEmail req in
  (errors = []
   ↔ (Validator.values req "name" ≠ []
      ∧ Forall (λ v, v ≠ "") (Validator.values req "name"))
     ∧ Forall (λ value, isEmail (default "" value) = true)
         (Validator.selected req "email")
     ∧ (Validator.values req "password" ≠ []
        ∧ Forall (λ v, (6 ≤ Js.code_points v)%nat)
            (Validator.values req "password")))
  ∧ (errors ≠ [] →
     register_req' req fresh c = Normal () (reply 400 (Json_errors errors) c))
  ∧ (errors = [] →
     ∀ e, unreachable (db c) = Some e →
          register_req' req fresh c
          = Normal ()
              (reply 500 (Text "Server Error")
                 (logged (Log_string (message e)) c)))
  ∧ (length errors ≤ 15)%nat
  ∧ (∀ s, Js.code_points s
          = (length (filter (λ b, Js.is_continuation b = false)
                       (String.list_ascii_of_string s))
             + if Js.continues s then 1 else 0)%nat)
  ∧ (∀ field,
       Validator.values req field
       = omap id [Validator.req_body req !! field;
                  Validator.req_cookies req !! field;
                  Validator.req_headers req !! field;
                  Validator.req_params req !! field;
                  Validator.req_query req !! field]
       ∧ Validator.selected req field
         = match Validator.values req field with
           | [] => [None]
           | values => Some <$> values
           end)
  ∧ (∀ body,
       (Users.validate isEmail body = []
        ↔ default "" (body !! "name") ≠ ""
          ∧ isEmail (default "" (body !! "email")) = true
          ∧ (6 ≤ Js.code_points (default "" (body !! "password")))%nat)
       ∧ register' body fresh = register_req' (Validator.only_body body) fresh).
Proof.
  intros errors. subst errors.
  split; [apply validate_req_nil|]. split; [apply register_req_rejected|].
  split.
  { intros Hvalid e Hdown. rewrite (register_req_valid _ _ Hvalid).
    by apply register_user_down. }
  split; [apply validate_req_length|]. split; [apply code_points_bytes|].
  split; [done|].
  intros body. split; [apply validate_nil|done].
Qed.

(** X19.  The user is stored before the token is signed.  When the address
    is new and the secret is not configured, the user is stored with the
    hashed password and the request is answered 500.  When the secret is
    configured and signing fails, the user is stored as well: a failure
    that is reported at once, which is the one for an empty secret, is
    thrown inside the [try] block and answered 500 with its message
    logged; a failure that is reported later escapes the handler, which
    answers nothing.  Either way the address is taken from then on: the
    next registration with it is answered 400 "User already exists". *)
Theorem register_stores_before_signing name email password fresh c :
  Users.User_findOne email c = Normal None c →
  let user := new_user name email password fresh in
  let c' :=
    set_db (λ s, set_users (users s ++ [user]) s)
      (logged (Log_string (user_password user)) c) in
  (config_get "jwtSecret" = None →
   register_user' name email password fresh c
   = Normal ()
       (reply 500 (Text "Server Error")
          (logged
             (Log_string "Configuration property jwtSecret is not defined")
             c')))
  ∧ (∀ secret err,
       config_get "jwtSecret" = Some secret →
       jwt_sign (Users.new_id fresh) secret 360000 = inl err →
       (secret = "" →
        register_user' name email password fresh c
        = Normal ()
            (reply 500 (Text "Server Error")
               (logged (Log_string (message err)) c')))
       ∧ (secret ≠ "" →
          register_user' name email password fresh c = Throw err c'
          ∧ response_of (register_user' name email password fresh c)
            = sent c))
  ∧ store_of (register_user' name email password fresh c)
    = set_users (users (db c) ++ [user]) (db c)
  ∧ ∀ name' password' fresh',
      let s := store_of (register_user' name email password fresh c) in
      register_user' name' email password' fresh' (request s)
      = Normal ()
          (reply 400
             (Json_errors [{| param := None; msg := "User already exists" |}])
             (request s)).
Proof.
  intros Hnone user c'.
  pose proof (register_user_run config_get gravatar_url bcrypt_hash jwt_sign
                name email password fresh c Hnone) as Hrun.
  cbv zeta in Hrun. fold user in Hrun. fold c' in Hrun.
  split; [intros Hsecret; by rewrite Hrun, Hsecret|]. split.
  - intros secret err Hsecret Herr. rewrite Hrun, Hsecret, Herr. split.
    + by intros ->.
    + intros Hne. rewrite truthy_Some by done. by split.
  - split; [by apply register_user_store|].
    intros name' password' fresh'. by apply register_user_retry.
Qed.
End registrations.

Lemma registrations_keep_emails_apart_witness :
  let register :=
    Users.register (λ _, Some "secret") (λ e, bool_decide (e = "a@x.com"))
      (λ e, "//www.gravatar.com/avatar/" +:+ e)
      (λ password salt, "hash:" +:+ salt +:+ ":" +:+ password)
      (λ id secret expiresIn, inr ("token:" +:+ id)) in
  let body : gmap string string :=
    {[ "name" := "A"; "email" := "a@x.com"; "password" := "secret1" ]} in
  let fresh id :=
    {| Users.new_id := id; Users.new_salt := "salt"; Users.now := 1 |} in
  one_user_per_email
    (serve_all
       ((λ r, register r.1 r.2)
          <$> [(body, fresh "a1a1a1a1a1a1a1a1a1a1a1a1");
               (body, fresh "a2a2a2a2a2a2a2a2a2a2a2a2")])
       store2).
Proof.
  intros register body fresh.
  apply (registrations_keep_emails_apart (λ _, Some "secret")
           (λ e, bool_decide (e = "a@x.com"))
           (λ e, "//www.gravatar.com/avatar/" +:+ e)
           (λ password salt, "hash:" +:+ salt +:+ ":" +:+ password)
           (λ id secret expiresIn, inr ("token:" +:+ id))
           [(body, fresh "a1a1a1a1a1a1a1a1a1a1a1a1");
            (body, fresh "a2a2a2a2a2a2a2a2a2a2a2a2")] store2).
  unfold one_user_per_email. vm_compute. apply NoDup_nil_2.
Defined.

Lemma register_validation_witness :
  let req :=
    {| Validator.req_body :=
         {[ "name" := "A"; "email" := "a@x.com"; "password" := "secret1" ]};
       Validator.req_cookies := ∅; Validator.req_headers := ∅;
       Validator.req_params := ∅;
       Validator.req_query :=
         {[ "password" := Js.of_bytes [195; 169; 195; 169; 195; 169; 195; 169;
                                       195; 169]%N ]} |} in
  response_of
    (Users.register_req (λ _, Some "secret")
       (λ e, bool_decide (e = "a@x.com"))
       (λ e, "//www.gravatar.com/avatar/" +:+ e)
       (λ password salt, "hash:" +:+ salt +:+ ":" +:+ password)
       (λ id secret expiresIn, inr ("token:" +:+ id))
       req
       {| Users.new_id := "a1a1a1a1a1a1a1a1a1a1a1a1"; Users.new_salt := "salt";
          Users.now := 1 |}
       (request store_down))
  = Some {| status := 400;
            body := Json_errors
                      [{| param := Some "password";
                          msg := "Please enter a password with 6 or more chars"
                       |}] |}.
Proof.
  intros req.
  assert (Users.validate_req (λ e, bool_decide (e = "a@x.com")) req
          = [{| param := Some "password";
                msg := "Please enter a password with 6 or more chars" |}])
    as Herrors by (vm_compute; reflexivity).
  assert (Users.validate_req (λ e, bool_decide (e = "a@x.com")) req ≠ [])
    as Hinvalid by (by rewrite Herrors).
  rewrite (proj1 (proj2 (register_validation (λ _, Some "secret")
             (λ e, bool_decide (e = "a@x.com"))
             (λ e, "//www.gravatar.com/avatar/" +:+ e)
             (λ password salt, "hash:" +:+ salt +:+ ":" +:+ password)
             (λ id secret expiresIn, inr ("token:" +:+ id))
             req
             {| Users.new_id := "a1a1a1a1a1a1a1a1a1a1a1a1";
                Users.new_salt := "salt"; Users.now := 1 |}
             (request store_down))) Hinvalid).
  by rewrite Herrors.
Defined.

Lemma register_stores_before_signing_witness :
  let register_user secret :=
    Users.register_user (λ _, secret)
      (λ e, "//www.gravatar.com/avatar/" +:+ e)
      (λ password salt, "hash:" +:+ salt +:+ ":" +:+ password)
      (λ id secret expiresIn,
         if String.eqb secret ""
         then inl {| name := "Error";
                     message := "secretOrPrivateKey must have a value";
                     kind := None |}
         else inr ("token:" +:+ id)) in
  let fresh :=
    {| Users.new_id := "a1a1a1a1a1a1a1a1a1a1a1a1"; Users.new_salt := "salt";
       Users.now := 1 |} in
  let r := register_user None "A" "a@x.com" "secret1" fresh (request store2) in
  let r' :=
    register_user (Some "") "A" "a@x.com" "secret1" fresh (request store2) in
  status <$> response_of r = Some 500
  ∧ user_email <$> users (store_of r) = ["a@x.com"]
  ∧ status <$> response_of r' = Some 500
  ∧ console (final r')
    = [Log_string "hash:salt:secret1";
       Log_string "secretOrPrivateKey must have a value"]
  ∧ user_email <$> users (store_of r') = ["a@x.com"].
Proof.
  intros register_user fresh r r'. subst r r' register_user. cbv beta.
  assert (Users.User_findOne "a@x.com" (request store2)
          = Normal None (request store2)) as Hnone
    by (vm_compute; reflexivity).
  set (jwt_sign := λ (id secret : string) (expiresIn : Z),
         if String.eqb secret ""
         then inl {| name := "Error";
                     message := "secretOrPrivateKey must have a value";
                     kind := None |}
         else inr ("token:" +:+ id) : JsError + string).
  rewrite (proj1 (register_stores_before_signing (λ _, None)
             (λ e, "//www.gravatar.com/avatar/" +:+ e)
             (λ password salt, "hash:" +:+ salt +:+ ":" +:+ password)
             jwt_sign "A" "a@x.com" "secret1" fresh (request store2) Hnone)
             eq_refl).
  rewrite (proj1 (proj1 (proj2 (register_stores_before_signing
             (λ _, Some "")
             (λ e, "//www.gravatar.com/avatar/" +:+ e)
             (λ password salt, "hash:" +:+ salt +:+ ":" +:+ password)
             jwt_sign "A" "a@x.com" "secret1" fresh (request store2) Hnone))
             "" _ eq_refl eq_refl) eq_refl).
  repeat split; reflexivity.
Defined.
